(** * Scrapbox-Duplicator: the incremental sync pipeline

    A shallow embedding of the TypeScript sources and the properties of
    the pipeline: exclusion filter, change selection, batch partitioning,
    batch import, checkpoint store and the orchestrating [main].

    The repository holds several generations of the same program:
    - [Plain]   : index.ts, first half  (checkpoint, a single import call);
    - [Batched] : unnamed/part_000, first half (checkpoint, batches chained
                  through [Array.prototype.reduce] over promises);
    - [Eff]     : index.ts, second half, with pages.ts (the Effect version).

    Conventions of the embedding:
    - a JS string is a [string] of bytes (UTF-8); the marker searched for is
      pure ASCII, so byte-level containment is code-unit containment;
    - an integral JS number is a [Z]; [number] adds the two non-integral
      values the program can meet ([NaN] out of [parseInt], [-Infinity] out
      of [Math.max] on no argument);
    - integers are exact: the rounding of doubles beyond 2^53 and the
      exponent notation of [toString] from 1e21 on are out of reach of
      timestamps in seconds and are not modelled; [parseInt] skips the
      ASCII white space only;
    - effects are threaded through an error/state monad over a [World]
      holding the checkpoint file; every computation returns, next to its
      result and the new world, the events it produced in order; the
      answers of the outside world are given by an [Env];
    - a file operation fails in two ways only: reading a file that does
      not exist, writing where writing is refused. *)

From Stdlib Require Import ZArith List String Ascii Bool Lia PeanoNat.
Import ListNotations.

Local Open Scope string_scope.
Local Open Scope Z_scope.

(* ================================================================== *)
(** ** Strings and numbers *)

(** [s.includes(needle)]: [needle] occurs in [s] at some offset. *)
Fixpoint includes (s needle : string) : bool :=
  if String.prefix needle s then true
  else match s with
       | EmptyString => false
       | String _ s' => includes s' needle
       end.

(** The numbers the pipeline manipulates. *)
Inductive number : Type :=
| Num (z : Z)
| NaN
| NegInfinity.

(** [a > b] for an integral [a] and any number [b]; a comparison with
    [NaN] is false. *)
Definition gt (a : Z) (b : number) : bool :=
  match b with
  | Num z => z <? a
  | NaN => false
  | NegInfinity => true
  end.

(** [Math.max(...xs)]: [-Infinity] on no argument. *)
Definition num_max (a : number) (x : Z) : number :=
  match a with
  | Num z => Num (Z.max z x)
  | NaN => NaN
  | NegInfinity => Num x
  end.

Definition Math_max (xs : list Z) : number := fold_left num_max xs NegInfinity.

Definition digit_char (d : Z) : ascii := ascii_of_nat (48 + Z.to_nat d).

Definition digit_of (c : ascii) : option Z :=
  let n := nat_of_ascii c in
  if ((48 <=? n) && (n <=? 57))%nat then Some (Z.of_nat (n - 48)) else None.

(** Decimal digits of a non-negative integer, most significant first. *)
Fixpoint dec_fuel (fuel : nat) (n : Z) : string :=
  match fuel with
  | O => EmptyString
  | S f =>
      (if n <? 10 then EmptyString else dec_fuel f (n / 10))
        ++ String (digit_char (n mod 10)) EmptyString
  end.

Definition dec (n : Z) : string := dec_fuel (S (Z.to_nat (Z.log2 n))) n.

(** [Number.prototype.toString()]. *)
Definition toString (x : number) : string :=
  match x with
  | Num z => if z <? 0 then String "-" (dec (- z)) else dec z
  | NaN => "NaN"
  | NegInfinity => "-Infinity"
  end.

Definition nat_toString (n : nat) : string := toString (Num (Z.of_nat n)).

Definition is_ws (c : ascii) : bool :=
  let n := nat_of_ascii c in
  ((n =? 32) || (n =? 9) || (n =? 10) || (n =? 11) || (n =? 12) || (n =? 13))%nat.

Fixpoint skip_ws (s : string) : string :=
  match s with
  | String c s' => if is_ws c then skip_ws s' else s
  | EmptyString => s
  end.

(** Value of the longest prefix of decimal digits, continuing from [acc]. *)
Fixpoint parse_digits (s : string) (acc : Z) : Z :=
  match s with
  | String c s' =>
      match digit_of c with
      | Some d => parse_digits s' (acc * 10 + d)
      | None => acc
      end
  | EmptyString => acc
  end.

Definition starts_with_digit (s : string) : bool :=
  match s with
  | String c _ => match digit_of c with Some _ => true | None => false end
  | EmptyString => false
  end.

(** [parseInt(s, 10)]: leading white space is skipped, one sign is
    accepted, the longest run of digits is read, anything after it is
    ignored; without a digit the result is [NaN].  It never throws. *)
Definition parseInt (s : string) : number :=
  let s1 := skip_ws s in
  let '(neg, s2) :=
    match s1 with
    | String "-"%char r => (true, r)
    | String "+"%char r => (false, r)
    | _ => (false, s1)
    end in
  if starts_with_digit s2
  then Num (if neg then - parse_digits s2 0 else parse_digits s2 0)
  else NaN.

(* ================================================================== *)
(** ** Data model *)

Record Line : Type := mkLine {
  text : string;
  line_created : Z;
  line_updated : Z
}.

Record Page : Type := mkPage {
  title : string;
  lines : list Line;
  updated : Z
}.

Definition LAST_IMPORT_FILE : string := "last_import.txt".
Definition INITIAL_IMPORT_TIME : Z := 1745842021.
Definition BATCH_SIZE : nat := 100.

(* ================================================================== *)
(** ** Exclusion filter and change selection (pure) *)

Definition private_icon : string := "[private.icon]".

(** [lines.some(line => line.text.includes(icon))] *)
Definition isIncludedIcon (icon : string) (ls : list Line) : bool :=
  existsb (fun line => includes (text line) icon) ls.

Definition filterPrivateIconPages (pages : list Page) : list Page :=
  filter (fun p => negb (isIncludedIcon private_icon (lines p))) pages.

(** [filteredPages.filter(p => p.updated > lastImportTime)], written inline
    in every [main]. *)
Definition selectChanges (pages : list Page) (lastImportTime : number) : list Page :=
  filter (fun p => gt (updated p) lastImportTime) pages.

(* ================================================================== *)
(** ** Batch partitioning *)

(** [items.slice(start, end)] for non-negative indices. *)
Definition slice {T : Type} (items : list T) (start stop : nat) : list T :=
  let len := List.length items in
  let k := Nat.min start len in
  let final := Nat.min stop len in
  firstn (final - k) (skipn k items).

(** [Math.ceil(n / batchSize)] as an array length: [n / 0] is [Infinity]
    for [n > 0] (no array of that length can be made: [None]) and [NaN]
    for [n = 0] (length 0). *)
Definition batchCount (n batchSize : nat) : option nat :=
  match batchSize with
  | O => match n with O => Some O | S _ => None end
  | S _ => Some ((n + batchSize - 1) / batchSize)%nat
  end.

(** [Array.from({ length: Math.ceil(items.length / batchSize) },
               (_, i) => items.slice(i * batchSize, (i + 1) * batchSize))] *)
Definition splitBatches {T : Type} (items : list T) (batchSize : nat)
  : option (list (list T)) :=
  match batchCount (List.length items) batchSize with
  | Some k =>
      Some (map (fun i => slice items (i * batchSize) ((i + 1) * batchSize))
                (seq 0 k))
  | None => None
  end.

(* ================================================================== *)
(** ** The outside world *)

Record Config : Type := mkConfig {
  sid : string;
  exportingProjectName : string;
  importingProjectName : string
}.

(** An [Error]-like object: what the Deno versions throw (and what the
    batched version returns from its reducer). *)
Record ErrorObject : Type := mkError {
  err_name : string;
  err_message : string
}.

(** Everything that can be thrown (Deno versions) or can fail an Effect
    (Effect version). *)
Inductive Err : Type :=
| JsError (e : ErrorObject)                 (* throw error *)
| AssertError                               (* assertString(undefined) *)
| IoError (path : string)                   (* a Deno file operation threw *)
| RangeError                                (* invalid array length *)
| ConfigError (key : string)                (* Config.string on a missing key *)
| ExportError (message project : string)    (* _tag: 'ExportError' *)
| ImportError (message project : string)    (* _tag: 'ImportError' *)
| FileReadError (message path : string)     (* _tag: 'FileReadError' *)
| FileWriteError (message path : string).   (* _tag: 'FileWriteError' *)

(** Answer of the export endpoint ([exportPages] of the libraries). *)
Inductive ExportAnswer : Type :=
| ExportOk (pages : list Page)
| ExportFailed (name message : string).

(** Answer of [importPages] of deps.ts (Deno versions): a result object. *)
Inductive ImportAnswer : Type :=
| ImportOk (value : string)
| ImportFailed (name message : string).

(** What happens inside [importPages] of pages.ts (Effect version). *)
Inductive RemoteAnswer : Type :=
| ProfileFailed                             (* getProfile: not ok *)
| FetchRejected (message : string)          (* fetch rejects *)
| HttpError (status : Z) (body : string)    (* response.ok is false *)
| HttpOk.

Record Env : Type := mkEnv {
  env_get : string -> option string;        (* environment variables *)
  export_answer : ExportAnswer;
  import_answer : nat -> ImportAnswer;      (* answer to the k-th import call *)
  remote_answer : nat -> RemoteAnswer;      (* the same, Effect version *)
  io_message : string                       (* message of a file-system error *)
}.

Inductive Event : Type :=
| EvLog (msg : string)                      (* console.log of a string *)
| EvLogTitles (titles : list string)        (* console.log of the titles *)
| EvLogValue (value : string)               (* console.log(result.value) *)
| EvLogResult (name message : string)       (* console.log(result) *)
| EvError (e : Err)                         (* console.error('Error:', e) *)
| EvExit (code : Z)                         (* exit(code) *)
| EvExport (project : string)
| EvGetProfile (session : string)           (* CSRF token request *)
| EvImport (project session : string) (pages : list Page)
| EvSleep (ms : Z)
| EvRead (path : string)
| EvWrite (path content : string)           (* a write that succeeded *)
| EvWriteFailed (path content : string).

Record World : Type := mkWorld {
  file : option string;      (* content of last_import.txt, if it exists *)
  writable : bool;           (* whether a write to it goes through *)
  imports : nat              (* import calls issued so far *)
}.

(* ================================================================== *)
(** ** The monad of runs: errors, world, and the events produced *)

Definition Res (A : Type) : Type := ((Err + A) * World * list Event)%type.
Definition M (A : Type) : Type := World -> Res A.

Definition ret {A : Type} (a : A) : M A := fun w => (inr a, w, []).

Definition throw {A : Type} (e : Err) : M A := fun w => (inl e, w, []).

Definition bind {A B : Type} (m : M A) (k : A -> M B) : M B :=
  fun w =>
    match m w with
    | (inl e, w1, t1) => (inl e, w1, t1)
    | (inr a, w1, t1) =>
        match k a w1 with
        | (r, w2, t2) => (r, w2, (t1 ++ t2)%list)
        end
    end.

(** [try { m } catch (e) { h e }], and [Effect.catchAll]. *)
Definition catch {A : Type} (m : M A) (h : Err -> M A) : M A :=
  fun w =>
    match m w with
    | (inl e, w1, t1) =>
        match h e w1 with
        | (r, w2, t2) => (r, w2, (t1 ++ t2)%list)
        end
    | (inr a, w1, t1) => (inr a, w1, t1)
    end.

Definition emit (e : Event) : M unit := fun w => (inr tt, w, [e]).

Declare Scope run_scope.
Delimit Scope run_scope with run.
Notation "x <- c1 ;; c2" := (bind c1 (fun x => c2))
  (at level 61, c1 at next level, right associativity) : run_scope.
Notation "c1 ;; c2" := (bind c1 (fun _ => c2))
  (at level 61, right associativity) : run_scope.
Local Open Scope run_scope.

Definition outcome {O : Type} (r : O * World * list Event) : O := fst (fst r).
Definition world {O : Type} (r : O * World * list Event) : World := snd (fst r).
Definition events {O : Type} (r : O * World * list Event) : list Event := snd r.

(** How a whole run ends. *)
Inductive Outcome : Type :=
| Completed
| Exited (code : Z).

(** *** Primitive operations *)

Definition dquote : string := String (ascii_of_nat 34) EmptyString.
Definition check_mark : string :=
  String (ascii_of_nat 226) (String (ascii_of_nat 156)
    (String (ascii_of_nat 147) EmptyString)).

Definition console_log (msg : string) : M unit := emit (EvLog msg).

Definition sleep (ms : Z) : M unit := emit (EvSleep ms).

(** Reading the checkpoint file: fails when the file does not exist. *)
Definition readTextFile (path : string) : M string :=
  fun w =>
    match file w with
    | Some content => (inr content, w, [EvRead path])
    | None => (inl (IoError path), w, [EvRead path])
    end.

Definition writeTextFile (path content : string) : M unit :=
  fun w =>
    if writable w
    then (inr tt, mkWorld (Some content) (writable w) (imports w),
          [EvWrite path content])
    else (inl (IoError path), w, [EvWriteFailed path content]).

Section Collaborators.
Variable env : Env.

(** [exportPages(project, { sid, metadata: true })] of the libraries. *)
Definition lib_exportPages (project : string) : M ExportAnswer :=
  fun w => (inr (export_answer env), w, [EvExport project]).

(** [importPages(project, { pages }, { sid })] of deps.ts. *)
Definition deps_importPages (project : string) (pages : list Page)
           (session : string) : M ImportAnswer :=
  fun w =>
    (inr (import_answer env (imports w)),
     mkWorld (file w) (writable w) (S (imports w)),
     [EvImport project session pages]).
End Collaborators.

(** Projections of a trace. *)
Definition is_remote (e : Event) : bool :=
  match e with
  | EvGetProfile _ | EvImport _ _ _ | EvSleep _ => true
  | _ => false
  end.

Definition remote_events (evs : list Event) : list Event := filter is_remote evs.

Fixpoint import_calls (evs : list Event) : list (list Page) :=
  match evs with
  | [] => []
  | EvImport _ _ pages :: rest => pages :: import_calls rest
  | _ :: rest => import_calls rest
  end.

Fixpoint writes_of (evs : list Event) : list string :=
  match evs with
  | [] => []
  | EvWrite _ content :: rest => content :: writes_of rest
  | _ :: rest => writes_of rest
  end.

(* ================================================================== *)
(** ** Checkpoint store (Deno versions: index.ts 112-125, part_000 138-151) *)

Definition saveLastImportTime (time : number) : M unit :=
  writeTextFile LAST_IMPORT_FILE (toString time).

(** The [catch] block only runs when reading the file throws; the comment
    in the source says: on the first run, set a specific date. *)
Definition getLastImportTime : M number :=
  catch
    (content <- readTextFile LAST_IMPORT_FILE ;;
     ret (parseInt content))
    (fun _ =>
       saveLastImportTime (Num INITIAL_IMPORT_TIME) ;;
       ret (Num INITIAL_IMPORT_TIME)).

(** [try { ... } catch (error) { console.error("Error:", error); exit(1) }] *)
Definition top_level (body : M unit) (w : World) : Outcome * World * list Event :=
  match body w with
  | (inr _, w', evs) => (Completed, w', evs)
  | (inl e, w', evs) => (Exited 1, w', (evs ++ [EvError e; EvExit 1])%list)
  end.

(* ================================================================== *)
(** ** Deno versions: configuration and export (identical in both) *)

Section Deno.
Variable env : Env.

(** [assertString] throws on [undefined]. *)
Definition assertString (v : option string) : M string :=
  match v with
  | Some s => ret s
  | None => throw AssertError
  end.

Definition getConfig : M Config :=
  let sid := env_get env "SID" in
  let exportingProjectName := env_get env "SOURCE_PROJECT_NAME" in
  let importingProjectName := env_get env "DESTINATION_PROJECT_NAME" in
  sid <- assertString sid ;;
  exportingProjectName <- assertString exportingProjectName ;;
  importingProjectName <- assertString importingProjectName ;;
  ret (mkConfig sid exportingProjectName importingProjectName).

Definition exportPagesFromProject (config : Config) : M (list Page) :=
  console_log ("Exporting a json file from " ++ dquote ++ "/"
               ++ exportingProjectName config ++ dquote ++ "...") ;;
  result <- lib_exportPages env (exportingProjectName config) ;;
  match result with
  | ExportFailed name message =>
      throw (JsError (mkError (name ++ " when exporting a json file") message))
  | ExportOk pages => ret pages
  end.
End Deno.

(* ================================================================== *)
(** ** [Plain]: index.ts, lines 1-125 *)

Module Plain.
Section Plain.
Variable env : Env.

Definition importPagesToProject (config : Config) (pages : list Page) : M unit :=
  if (List.length pages =? 0)%nat then
    console_log "No page to be imported found."
  else
    console_log ("Importing " ++ nat_toString (List.length pages) ++ " pages to "
                 ++ dquote ++ "/" ++ importingProjectName config ++ dquote ++ "...") ;;
    result <- deps_importPages env (importingProjectName config) pages (sid config) ;;
    match result with
    | ImportFailed name message =>
        throw (JsError (mkError (name ++ " when importing pages") message))
    | ImportOk value => emit (EvLogValue value)
    end.

Definition main_try : M unit :=
  config <- getConfig env ;;
  pages <- exportPagesFromProject env config ;;
  let filteredPages := filterPrivateIconPages pages in
  lastImportTime <- getLastImportTime ;;
  let newPages := selectChanges filteredPages lastImportTime in
  if (List.length newPages =? 0)%nat then
    console_log "No new pages to import."
  else
    console_log ("Found " ++ nat_toString (List.length newPages)
                 ++ " new or updated pages to import.") ;;
    emit (EvLogTitles (map title newPages)) ;;
    importPagesToProject config newPages ;;
    saveLastImportTime (Math_max (map updated newPages)).

Definition main : World -> Outcome * World * list Event := top_level main_try.
End Plain.
End Plain.

(* ================================================================== *)
(** ** [Batched]: unnamed/part_000, lines 1-151 *)

Module Batched.
Section Batched.
Variable env : Env.

(** The reducer passed to [batches.reduce]: it first awaits the promise
    of the previous batch, whose value it ignores.  On a failed import
    it RETURNS an error object (the promise resolves with it); nothing
    is thrown. *)
Definition reducer (config : Config) (totalBatches : nat)
           (previousPromise : M (option ErrorObject))
           (batch : list Page) (index : nat) : M (option ErrorObject) :=
  _ <- previousPromise ;;
  let batchNumber := (index + 1)%nat in
  console_log ("Importing batch " ++ nat_toString batchNumber ++ "/"
               ++ nat_toString totalBatches ++ " ("
               ++ nat_toString (List.length batch) ++ " pages)...") ;;
  result <- deps_importPages env (importingProjectName config) batch (sid config) ;;
  match result with
  | ImportFailed name message =>
      ret (Some (mkError
                   (name ++ " when importing pages (batch "
                    ++ nat_toString batchNumber ++ "/"
                    ++ nat_toString totalBatches ++ ")")
                   message))
  | ImportOk _ =>
      console_log ("Batch " ++ nat_toString batchNumber ++ "/"
                   ++ nat_toString totalBatches ++ " completed successfully.") ;;
      (if (index <? totalBatches - 1)%nat then sleep 1000 else ret tt) ;;
      ret None
  end.

(** [batches.reduce(callback, initial)], the callback receiving the
    index of the element. *)
Fixpoint reduce_from {A T : Type} (f : A -> T -> nat -> A) (acc : A)
         (items : list T) (index : nat) : A :=
  match items with
  | [] => acc
  | x :: rest => reduce_from f (f acc x index) rest (S index)
  end.

Definition importPagesToProject (config : Config) (pages : list Page) : M unit :=
  if (List.length pages =? 0)%nat then
    console_log "No page to be imported found."
  else
    console_log ("Importing " ++ nat_toString (List.length pages) ++ " pages to "
                 ++ dquote ++ "/" ++ importingProjectName config ++ dquote
                 ++ " in batches of " ++ nat_toString BATCH_SIZE ++ "...") ;;
    match splitBatches pages BATCH_SIZE with
    | None => throw RangeError
    | Some batches =>
        _ <- reduce_from (reducer config (List.length batches))
                         (ret None) batches 0 ;;
        console_log ("All " ++ nat_toString (List.length pages)
                     ++ " pages imported successfully.")
    end.

Definition main_try : M unit :=
  config <- getConfig env ;;
  pages <- exportPagesFromProject env config ;;
  let filteredPages := filterPrivateIconPages pages in
  lastImportTime <- getLastImportTime ;;
  let newPages := selectChanges filteredPages lastImportTime in
  if (List.length newPages =? 0)%nat then
    console_log "No new pages to import."
  else
    console_log ("Found " ++ nat_toString (List.length newPages)
                 ++ " new or updated pages to import.") ;;
    emit (EvLogTitles (map title newPages)) ;;
    importPagesToProject config newPages ;;
    saveLastImportTime (Math_max (map updated newPages)).

Definition main : World -> Outcome * World * list Event := top_level main_try.
End Batched.
End Batched.

(* ================================================================== *)
(** ** [Eff]: index.ts, lines 126-243, with pages.ts *)

Module Eff.
Section Eff.
Variable env : Env.

(** pages.ts 55-100: the CSRF token is asked for first; every exception
    becomes an [ImportError] carrying a message and the project. *)
Definition importPages (project : string) (pages : list Page)
           (session : string) : M unit :=
  fun w =>
    let w' := mkWorld (file w) (writable w) (S (imports w)) in
    match remote_answer env (imports w) with
    | ProfileFailed =>
        (inl (ImportError "Failed to get CSRF token" project), w',
         [EvGetProfile session])
    | FetchRejected message =>
        (inl (ImportError message project), w',
         [EvGetProfile session; EvImport project session pages])
    | HttpError status body =>
        (inl (ImportError ("Import failed: " ++ toString (Num status)
                           ++ " - " ++ body) project), w',
         [EvGetProfile session; EvImport project session pages])
    | HttpOk =>
        (inr tt, w', [EvGetProfile session; EvImport project session pages])
    end.

(** pages.ts 102-126 *)
Definition exportPagesFromProject (project session : string) : M (list Page) :=
  console_log ("Exporting a json file from " ++ dquote ++ "/" ++ project
               ++ dquote ++ "...") ;;
  result <- lib_exportPages env project ;;
  match result with
  | ExportFailed name message =>
      emit (EvLogResult name message) ;;
      throw (ExportError message project)
  | ExportOk pages => ret pages
  end.

(** The [for] loop of [processBatchesEffect], from index [i] on. *)
Fixpoint forBatches {T : Type}
         (processFunc : list T -> nat -> nat -> M unit)
         (batches : list (list T)) (i totalBatches : nat) : M unit :=
  match batches with
  | [] => ret tt
  | batch :: rest =>
      processFunc batch (i + 1)%nat totalBatches ;;
      forBatches processFunc rest (S i) totalBatches
  end.

(** pages.ts 128-150.  The array of batches is built before the effect
    is; with a batch size of 0 and some item its construction throws. *)
Definition processBatchesEffect {T : Type} (items : list T) (batchSize : nat)
           (processFunc : list T -> nat -> nat -> M unit) : M unit :=
  match splitBatches items batchSize with
  | None => throw RangeError
  | Some batches => forBatches processFunc batches 0 (List.length batches)
  end.

(** pages.ts 14-53 *)
Definition importPagesToProject (importingProjectName : string)
           (pages : list Page) (session : string) : M unit :=
  if (List.length pages =? 0)%nat then
    console_log "No page to be imported found."
  else
    console_log ("Importing " ++ nat_toString (List.length pages) ++ " pages to "
                 ++ dquote ++ "/" ++ importingProjectName ++ dquote
                 ++ " in batches of " ++ nat_toString BATCH_SIZE ++ "...") ;;
    processBatchesEffect pages BATCH_SIZE
      (fun batch batchNumber totalBatches =>
         console_log ("Importing batch " ++ nat_toString batchNumber ++ "/"
                      ++ nat_toString totalBatches ++ " ("
                      ++ nat_toString (List.length batch) ++ " pages)...") ;;
         importPages importingProjectName batch session ;;
         console_log (check_mark ++ " Batch " ++ nat_toString batchNumber ++ "/"
                      ++ nat_toString totalBatches ++ " completed successfully.") ;;
         (if (batchNumber <? totalBatches)%nat then sleep 1000 else ret tt)) ;;
    console_log ("All " ++ nat_toString (List.length pages)
                 ++ " pages imported successfully.").

Definition config_string (key : string) : M string :=
  match env_get env key with
  | Some s => ret s
  | None => throw (ConfigError key)
  end.

Definition getConfigEffect : M Config :=
  sid <- config_string "SID" ;;
  exportingProjectName <- config_string "SOURCE_PROJECT_NAME" ;;
  importingProjectName <- config_string "DESTINATION_PROJECT_NAME" ;;
  ret (mkConfig sid exportingProjectName importingProjectName).

Definition saveLastImportTimeEffect (time : number) : M unit :=
  catch (writeTextFile LAST_IMPORT_FILE (toString time))
        (fun _ => throw (FileWriteError (io_message env) LAST_IMPORT_FILE)).

Definition getLastImportTimeEffect : M number :=
  catch
    (catch
       (content <- readTextFile LAST_IMPORT_FILE ;;
        ret (parseInt content))
       (fun _ => throw (FileReadError (io_message env) LAST_IMPORT_FILE)))
    (fun _ =>
       saveLastImportTimeEffect (Num INITIAL_IMPORT_TIME) ;;
       ret (Num INITIAL_IMPORT_TIME)).

Definition mainEffect : M unit :=
  config <- getConfigEffect ;;
  pages <- exportPagesFromProject (exportingProjectName config) (sid config) ;;
  let filteredPages := filterPrivateIconPages pages in
  lastImportTime <- getLastImportTimeEffect ;;
  let newPages := selectChanges filteredPages lastImportTime in
  if (List.length newPages =? 0)%nat then
    console_log "No new pages to import."
  else
    console_log ("Found " ++ nat_toString (List.length newPages)
                 ++ " new or updated pages to import.") ;;
    emit (EvLogTitles (map title newPages)) ;;
    importPagesToProject (importingProjectName config) newPages (sid config) ;;
    saveLastImportTimeEffect (Math_max (map updated newPages)).

Definition main : World -> Outcome * World * list Event := top_level mainEffect.
End Eff.
End Eff.

(* ================================================================== *)
(** ** [Full]: unnamed/part_000, lines 152-244 (no checkpoint, no batches) *)

Module Full.
Section Full.
Variable env : Env.

(** part_000 223-244: the text of index.ts 89-110. *)
Definition importPagesToProject (config : Config) (pages : list Page) : M unit :=
  if (List.length pages =? 0)%nat then
    console_log "No page to be imported found."
  else
    console_log ("Importing " ++ nat_toString (List.length pages) ++ " pages to "
                 ++ dquote ++ "/" ++ importingProjectName config ++ dquote ++ "...") ;;
    result <- deps_importPages env (importingProjectName config) pages (sid config) ;;
    match result with
    | ImportFailed name message =>
        throw (JsError (mkError (name ++ " when importing pages") message))
    | ImportOk value => emit (EvLogValue value)
    end.

Definition main_try : M unit :=
  config <- getConfig env ;;
  pages <- exportPagesFromProject env config ;;
  let filteredPages := filterPrivateIconPages pages in
  importPagesToProject config filteredPages.

Definition main : World -> Outcome * World * list Event := top_level main_try.
End Full.
End Full.

(* ================================================================== *)
(** ** Vocabulary of the properties *)

(** [Kept keep l r]: [r] is [l] from which exactly the elements that do
    not satisfy [keep] were removed, the others staying in place. *)
Inductive Kept {A : Type} (keep : A -> Prop) : list A -> list A -> Prop :=
| Kept_nil : Kept keep [] []
| Kept_keep x l r : keep x -> Kept keep l r -> Kept keep (x :: l) (x :: r)
| Kept_drop x l r : ~ keep x -> Kept keep l r -> Kept keep (x :: l) r.

(** The marker occurs somewhere in the string. *)
Definition occurs_in (needle s : string) : Prop :=
  exists pre post, s = pre ++ needle ++ post.

(** Some line of the page carries the private marker. *)
Definition has_marker (p : Page) : Prop :=
  exists line, In line (lines p) /\ occurs_in private_icon (text line).

(** A computation that leaves the checkpoint file alone. *)
Definition Frame {A : Type} (m : M A) : Prop :=
  forall w,
    file (world (m w)) = file w
    /\ writable (world (m w)) = writable w
    /\ writes_of (events (m w)) = [].

(** The checkpoint value a run reads at its start: the content of the
    file as [parseInt] sees it, or the default when there is no file. *)
Definition watermark (w : World) : number :=
  match file w with
  | Some content => parseInt content
  | None => Num INITIAL_IMPORT_TIME
  end.

(** The value stored in the checkpoint file, when the file exists. *)
Definition stored (w : World) : option number := option_map parseInt (file w).

(** The three variables a run needs are set. *)
Definition configured (env : Env) (config : Config) : Prop :=
  env_get env "SID" = Some (sid config)
  /\ env_get env "SOURCE_PROJECT_NAME" = Some (exportingProjectName config)
  /\ env_get env "DESTINATION_PROJECT_NAME" = Some (importingProjectName config).

(** The delta of a run that exported [pages] in world [w]. *)
Definition delta (pages : list Page) (w : World) : list Page :=
  selectChanges (filterPrivateIconPages pages) (watermark w).

(** [intersperse sep l]: [sep] between any two consecutive elements. *)
Fixpoint intersperse {A : Type} (sep : A) (l : list A) : list A :=
  match l with
  | [] => []
  | [x] => [x]
  | x :: rest => x :: sep :: intersperse sep rest
  end.

(** The import calls and the pacing delays of a trace. *)
Definition is_paced (e : Event) : bool :=
  match e with
  | EvImport _ _ _ | EvSleep _ => true
  | _ => false
  end.

Definition paced_events (evs : list Event) : list Event := filter is_paced evs.

(** The body shared by every [main]: configuration, export, exclusion
    filter, checkpoint read, change selection, import, checkpoint write. *)
Section Orchestrator.
Variable getConfig : M Config.
Variable exportPages : Config -> M (list Page).
Variable getLast : M number.
Variable save : number -> M unit.
Variable importTo : Config -> list Page -> M unit.

(** What a run does once the pages are exported and the checkpoint is
    read. *)
Definition sync_tail (config : Config) (pages : list Page)
           (lastImportTime : number) : M unit :=
  (let filteredPages := filterPrivateIconPages pages in
   let newPages := selectChanges filteredPages lastImportTime in
   if (List.length newPages =? 0)%nat then
     console_log "No new pages to import."
   else
     console_log ("Found " ++ nat_toString (List.length newPages)
                  ++ " new or updated pages to import.") ;;
     emit (EvLogTitles (map title newPages)) ;;
     importTo config newPages ;;
     save (Math_max (map updated newPages)))%run.

Definition sync : M unit :=
  (config <- getConfig ;;
   pages <- exportPages config ;;
   lastImportTime <- getLast ;;
   sync_tail config pages lastImportTime)%run.
End Orchestrator.

(** What reading the checkpoint does, in terms of the file. *)
Definition CheckpointRead (getLast : M number) : Prop :=
  forall w,
    match file w with
    | Some content =>
        getLast w = (inr (parseInt content), w, [EvRead LAST_IMPORT_FILE])
    | None =>
        let seed := toString (Num INITIAL_IMPORT_TIME) in
        if writable w
        then getLast w
             = (inr (Num INITIAL_IMPORT_TIME),
                mkWorld (Some seed) (writable w) (imports w),
                [EvRead LAST_IMPORT_FILE; EvWrite LAST_IMPORT_FILE seed])
        else exists e,
            getLast w
            = (inl e, w,
               [EvRead LAST_IMPORT_FILE; EvWriteFailed LAST_IMPORT_FILE seed])
    end.

(** What writing the checkpoint does. *)
Definition CheckpointWrite (save : number -> M unit) : Prop :=
  forall time w,
    if writable w
    then save time w
         = (inr tt, mkWorld (Some (toString time)) (writable w) (imports w),
            [EvWrite LAST_IMPORT_FILE (toString time)])
    else exists e,
        save time w
        = (inl e, w, [EvWriteFailed LAST_IMPORT_FILE (toString time)]).



(** The checkpoint read can succeed: there is a file, or one can be made. *)
Definition store_usable (w : World) : Prop :=
  file w <> None \/ writable w = true.

(** The world after a successful checkpoint read, and what the read did. *)
Definition after_read (w : World) : World :=
  match file w with
  | Some _ => w
  | None =>
      mkWorld (Some (toString (Num INITIAL_IMPORT_TIME))) (writable w) (imports w)
  end.

Definition read_events (w : World) : list Event :=
  match file w with
  | Some _ => [EvRead LAST_IMPORT_FILE]
  | None =>
      [EvRead LAST_IMPORT_FILE;
       EvWrite LAST_IMPORT_FILE (toString (Num INITIAL_IMPORT_TIME))]
  end.

(** What a successful export leaves in the trace. *)
Definition export_events (project : string) : list Event :=
  [EvLog ("Exporting a json file from " ++ dquote ++ "/" ++ project
          ++ dquote ++ "...");
   EvExport project].

(** Concrete inputs: a page updated one second after the default
    checkpoint; an environment that exports [pages] and in which the first
    import call fails and the later ones succeed; a world whose checkpoint
    file holds the default. *)
Definition sample_page : Page :=
  mkPage "page" [mkLine "text" 1745842022 1745842022] 1745842022.

Definition failing_env (pages : list Page) : Env :=
  mkEnv (fun _ => Some "name")
        (ExportOk pages)
        (fun k => if (k =? 0)%nat then ImportFailed "ImportError" "rejected"
                  else ImportOk "ok")
        (fun k => if (k =? 0)%nat then HttpError 500 "rejected" else HttpOk)
        "EACCES".

Definition stored_world : World := mkWorld (Some "1745842021") true 0.

(** The errors a run reported on the console. *)
Fixpoint errors_of (evs : list Event) : list Err :=
  match evs with
  | [] => []
  | EvError e :: rest => e :: errors_of rest
  | _ :: rest => errors_of rest
  end.

(** The trace [evs] imports [batches] one after the other, in this order,
    with a 1000 ms delay between two consecutive batches and none after
    the last. *)
Definition paced_in_order (post : list Page -> Event) (batches : list (list Page))
           (evs : list Event) : Prop :=
  import_calls evs = batches
  /\ paced_events evs = intersperse (EvSleep 1000) (map post batches)
  /\ List.length (paced_events evs) = (2 * List.length batches - 1)%nat
  /\ last (paced_events evs) (EvSleep 1000) = post (last batches []).

(** What a run logs on finding a non-empty delta. *)
Definition found_events (newPages : list Page) : list Event :=
  [EvLog ("Found " ++ nat_toString (List.length newPages)
          ++ " new or updated pages to import.");
   EvLogTitles (map title newPages)].

(** A string of ASCII white space only. *)
Fixpoint all_ws (s : string) : bool :=
  match s with
  | EmptyString => true
  | String c s' => is_ws c && all_ws s'
  end.

(** Every page of every import call of the trace satisfies [allowed]. *)
Definition sends_only (allowed : Page -> Prop) (evs : list Event) : Prop :=
  Forall (Forall allowed) (import_calls evs).

(** The CSRF token requests of a trace. *)
Fixpoint token_requests (evs : list Event) : list string :=
  match evs with
  | [] => []
  | EvGetProfile session :: rest => session :: token_requests rest
  | _ :: rest => token_requests rest
  end.

(** Every import call of the trace comes right after a token request
    for the same session. *)
Fixpoint token_before_post (evs : list Event) : Prop :=
  match evs with
  | [] => True
  | EvGetProfile session :: rest =>
      match rest with
      | EvImport _ session' _ :: rest' => session = session' /\ token_before_post rest'
      | _ => token_before_post rest
      end
  | EvImport _ _ _ :: _ => False
  | _ :: rest => token_before_post rest
  end.

(** A computation that makes no import call. *)
Definition Silent {A : Type} (m : M A) : Prop :=
  forall w, import_calls (events (m w)) = [].

(** A computation whose every import call comes right after a token
    request for the same session, and which counts one import attempt per
    token request. *)
Definition Tokened {A : Type} (m : M A) : Prop :=
  forall w,
    token_before_post (events (m w))
    /\ imports (world (m w))
       = (imports w + List.length (token_requests (events (m w))))%nat
    /\ (List.length (import_calls (events (m w)))
        <= List.length (token_requests (events (m w))))%nat.

(** The message of the [ImportError] that [importPages] of pages.ts makes
    of each way its request can go wrong. *)
Definition import_failure_message (answer : RemoteAnswer) : string :=
  match answer with
  | ProfileFailed => "Failed to get CSRF token"
  | FetchRejected message => message
  | HttpError status body =>
      "Import failed: " ++ toString (Num status) ++ " - " ++ body
  | HttpOk => EmptyString
  end.

(** The requests [importPages] of pages.ts makes when its attempt fails:
    no POST when the token request itself failed. *)
Definition failed_attempt (answer : RemoteAnswer) (project session : string)
           (batch : list Page) : list Event :=
  EvGetProfile session
    :: match answer with
       | ProfileFailed => []
       | _ => [EvImport project session batch]
       end.

(** The line logged before the import of a batch. *)
Definition batch_announcement (batchNumber totalBatches size : nat) : Event :=
  EvLog ("Importing batch " ++ nat_toString batchNumber ++ "/"
         ++ nat_toString totalBatches ++ " ("
         ++ nat_toString size ++ " pages)...").


(** The checkpoint file accesses of a trace. *)
Definition is_file_access (e : Event) : bool :=
  match e with
  | EvRead _ | EvWrite _ _ | EvWriteFailed _ _ => true
  | _ => false
  end.

Definition file_accesses (evs : list Event) : list Event := filter is_file_access evs.

(** What a run reports on the error channel and how it exits. *)
Definition is_report (e : Event) : bool :=
  match e with
  | EvError _ | EvExit _ => true
  | _ => false
  end.

Definition reports (evs : list Event) : list Event := filter is_report evs.

(** A computation that reports nothing by itself. *)
Definition Unreporting {A : Type} (m : M A) : Prop :=
  forall w, reports (events (m w)) = [].

(** A run either completes without a report, or reports one error as
    its last act and exits with status 1. *)
Definition reported_once (R : Outcome * World * list Event) : Prop :=
  (outcome R = Completed /\ reports (events R) = [])
  \/ (exists e pre,
         outcome R = Exited 1
         /\ events R = (pre ++ [EvError e; EvExit 1])%list
         /\ reports pre = []).

(* ================================================================== *)
(** * Properties *)

(** ** Batch partitioning *)

Section Slices.
Context {T : Type}.
Implicit Types (l : list T) (a b c : nat).

Lemma firstn_plus l : forall a b,
  firstn (a + b) l = (firstn a l ++ firstn b (skipn a l))%list.
Proof.
  induction l as [|x l IH]; intros a b.
  - now rewrite skipn_nil, !firstn_nil.
  - destruct a as [|a]; simpl; [reflexivity|].
    now rewrite IH.
Qed.

Lemma slice_firstn_skipn l a b :
  slice l a b = firstn (b - a) (skipn a l).
Proof.
  unfold slice.
  destruct (Nat.le_gt_cases (List.length l) a) as [Hge|Hlt].
  - rewrite (skipn_all2 l Hge), (skipn_all2 l) by lia.
    now rewrite !firstn_nil.
  - rewrite (Nat.min_l a) by lia.
    destruct (Nat.le_gt_cases b (List.length l)) as [Hb|Hb].
    + now rewrite (Nat.min_l b) by lia.
    + rewrite (Nat.min_r b) by lia.
      rewrite !firstn_all2; try reflexivity; rewrite length_skipn; lia.
Qed.

Lemma slice_length l a b :
  List.length (slice l a b)
  = (Nat.min b (List.length l) - Nat.min a (List.length l))%nat.
Proof.
  unfold slice. rewrite length_firstn, length_skipn. lia.
Qed.

Lemma slice_adjacent l a b c :
  (a <= b)%nat -> (b <= c)%nat ->
  (slice l a b ++ slice l b c)%list = slice l a c.
Proof.
  intros Hab Hbc. rewrite !slice_firstn_skipn.
  replace (c - a)%nat with ((b - a) + (c - b))%nat by lia.
  rewrite firstn_plus, skipn_skipn.
  now replace (b - a + a)%nat with b by lia.
Qed.

Lemma slice_whole l c : (List.length l <= c)%nat -> slice l 0 c = l.
Proof.
  intros Hc. rewrite slice_firstn_skipn. simpl.
  apply firstn_all2. lia.
Qed.

(** Consecutive windows of width [B] glue into one slice. *)
Lemma concat_windows l B : forall k i,
  List.concat (map (fun j => slice l (j * B) ((j + 1) * B)) (seq i k))
  = slice l (i * B) ((i + k) * B).
Proof.
  induction k as [|k IH]; intros i; cbn [seq map List.concat].
  - rewrite Nat.add_0_r, slice_firstn_skipn, Nat.sub_diag. reflexivity.
  - rewrite IH.
    replace (S i * B)%nat with ((i + 1) * B)%nat by lia.
    rewrite slice_adjacent by nia.
    f_equal; nia.
Qed.
End Slices.

(** [batchCount] is the ceiling of the quotient. *)
Lemma batchCount_ceiling (n B : nat) :
  (0 < n)%nat -> (0 < B)%nat ->
  exists k, batchCount n B = Some k
            /\ ((k - 1) * B < n)%nat /\ (n <= k * B)%nat /\ (0 < k)%nat.
Proof.
  intros Hn HB. unfold batchCount.
  destruct B as [|B']; [lia|].
  set (B := S B') in *.
  exists ((n + B - 1) / B)%nat. split; [reflexivity|].
  pose proof (Nat.div_mod_eq (n + B - 1) B) as Hdm.
  pose proof (Nat.mod_upper_bound (n + B - 1) B ltac:(lia)) as Hr.
  set (q := ((n + B - 1) / B)%nat) in *.
  set (r := ((n + B - 1) mod B)%nat) in *.
  assert (0 < q)%nat by (destruct q; [nia | lia]).
  repeat split; nia.
Qed.

(** C2: a non-empty page list split with a positive batch size gives
    exactly the ceiling of |P|/B batches (the least [k] with |P| <= k*B),
    each of at most [B] pages, all but the last of exactly [B] pages, and
    the batches concatenated in order are the list itself. *)
Theorem splitBatches_partition {T : Type} (P : list T) (B : nat) :
  P <> [] -> (0 < B)%nat ->
  exists batches,
    splitBatches P B = Some batches
    /\ ((List.length batches - 1) * B < List.length P)%nat
    /\ (List.length P <= List.length batches * B)%nat
    /\ Forall (fun b => (List.length b <= B)%nat) batches
    /\ (forall i b, nth_error batches i = Some b ->
                    (S i < List.length batches)%nat -> List.length b = B)
    /\ List.concat batches = P.
Proof.
  intros HP HB.
  assert (Hn : (0 < List.length P)%nat) by (destruct P; [congruence | simpl; lia]).
  destruct (batchCount_ceiling (List.length P) B Hn HB)
    as (k & Hk & Hlo & Hhi & Hpos).
  unfold splitBatches. rewrite Hk.
  eexists. split; [reflexivity|].
  rewrite length_map, length_seq.
  split; [exact Hlo|]. split; [exact Hhi|]. split; [|split].
  - apply Forall_forall. intros b Hb.
    apply in_map_iff in Hb. destruct Hb as (i & <- & _).
    rewrite slice_length. nia.
  - intros i b Hnth Hi.
    rewrite nth_error_map in Hnth.
    destruct (nth_error (seq 0 k) i) as [j|] eqn:Hj; [|discriminate].
    injection Hnth as <-.
    apply nth_error_nth with (d := O) in Hj.
    rewrite seq_nth in Hj by lia. simpl in Hj. subst j.
    rewrite slice_length. nia.
  - rewrite concat_windows. simpl. now apply slice_whole.
Qed.

Lemma splitBatches_partition_witness :
  exists batches,
    splitBatches [1; 2; 3; 4; 5] 2 = Some batches
    /\ ((List.length batches - 1) * 2 < 5)%nat
    /\ (5 <= List.length batches * 2)%nat
    /\ Forall (fun b => (List.length b <= 2)%nat) batches
    /\ (forall i b, nth_error batches i = Some b ->
                    (S i < List.length batches)%nat -> List.length b = 2%nat)
    /\ List.concat batches = [1; 2; 3; 4; 5].
Proof.
  apply (splitBatches_partition [1; 2; 3; 4; 5] 2); [discriminate | lia].
Defined.

(** ** Exclusion filter and change selection *)

Lemma filter_Kept {A : Type} (f : A -> bool) (keep : A -> Prop) :
  (forall x, f x = true <-> keep x) ->
  forall l, Kept keep l (filter f l).
Proof.
  intros Hf. induction l as [|x l IH]; simpl.
  - constructor.
  - destruct (f x) eqn:E.
    + apply Kept_keep; [now apply Hf | exact IH].
    + apply Kept_drop; [|exact IH].
      intros Hk. apply Hf in Hk. congruence.
Qed.

(** [Kept] determines its result: it specifies a function. *)
Lemma Kept_unique {A : Type} (keep : A -> Prop) (l r r' : list A) :
  Kept keep l r -> Kept keep l r' -> r = r'.
Proof.
  intros H. revert r'.
  induction H as [|x l r Hx _ IH|x l r Hx _ IH]; intros r' H';
    inversion H'; subst; try contradiction; try reflexivity.
  - f_equal. now apply IH.
  - now apply IH.
Qed.

Lemma Kept_In {A : Type} (keep : A -> Prop) (l r : list A) :
  Kept keep l r -> forall x, In x r <-> In x l /\ keep x.
Proof.
  induction 1 as [|y l r Hy _ IH|y l r Hy _ IH]; intros x; simpl.
  - tauto.
  - rewrite IH. split.
    + intros [->|[? ?]]; auto.
    + intros [[->|?] ?]; auto.
  - rewrite IH. split.
    + intros [? ?]; auto.
    + intros [[->|?] ?]; [contradiction | auto].
Qed.

Lemma filter_idempotent {A : Type} (f : A -> bool) (l : list A) :
  filter f (filter f l) = filter f l.
Proof.
  induction l as [|x l IH]; simpl; [reflexivity|].
  destruct (f x) eqn:E; simpl; rewrite ?E, IH; reflexivity.
Qed.

Lemma prefix_spec (n s : string) :
  String.prefix n s = true <-> exists post, s = n ++ post.
Proof.
  revert s. induction n as [|a n IH]; intros s.
  - split; [intros _; now exists s | intros _; now destruct s].
  - destruct s as [|b s]; simpl.
    + split; [discriminate | intros [post H]; discriminate].
    + destruct (ascii_dec a b) as [->|Hab].
      * rewrite IH. split; intros [post H]; exists post.
        -- now rewrite H.
        -- now injection H.
      * split; [discriminate|].
        intros [post H]. injection H as H1 _. congruence.
Qed.

Lemma append_assoc (a b c : string) : (a ++ b) ++ c = a ++ (b ++ c).
Proof. induction a as [|x a IH]; simpl; [reflexivity | now rewrite IH]. Qed.

Lemma includes_unfold (s needle : string) :
  includes s needle
  = if String.prefix needle s then true
    else match s with
         | EmptyString => false
         | String _ s' => includes s' needle
         end.
Proof. destruct s; reflexivity. Qed.

(** [includes] decides occurrence at any offset. *)
Lemma includes_spec (s needle : string) :
  includes s needle = true <-> occurs_in needle s.
Proof.
  unfold occurs_in. induction s as [|c s IH]; rewrite includes_unfold.
  - destruct (String.prefix needle EmptyString) eqn:E.
    + split; [intros _ | reflexivity].
      apply prefix_spec in E. destruct E as [post E].
      now exists EmptyString, post.
    + split; [discriminate|].
      intros ([|x pre] & post & H); [|discriminate].
      simpl in H. assert (String.prefix needle EmptyString = true)
        by (apply prefix_spec; now exists post).
      congruence.
  - destruct (String.prefix needle (String c s)) eqn:E.
    + split; [intros _ | reflexivity].
      apply prefix_spec in E. destruct E as [post E].
      now exists EmptyString, post.
    + rewrite IH. split.
      * intros (pre & post & H). exists (String c pre), post.
        simpl. now rewrite H.
      * intros ([|x pre] & post & H).
        -- simpl in H. assert (String.prefix needle (String c s) = true)
             by (apply prefix_spec; now exists post).
           congruence.
        -- simpl in H. injection H as _ H. now exists pre, post.
Qed.

Lemma isIncludedIcon_spec (p : Page) :
  isIncludedIcon private_icon (lines p) = true <-> has_marker p.
Proof.
  unfold isIncludedIcon, has_marker. rewrite existsb_exists.
  split; intros (line & Hin & H); exists line; split; auto;
    now apply includes_spec.
Qed.

(** C5: the exclusion filter removes exactly the pages in which some
    line contains the marker at any position, keeps the others as they
    are and in their order; a page list free of the marker is returned
    unchanged. *)
Theorem filterPrivateIconPages_spec (pages : list Page) :
  Kept (fun p => ~ has_marker p) pages (filterPrivateIconPages pages)
  /\ (forall p, In p (filterPrivateIconPages pages)
                 <-> In p pages /\ ~ has_marker p)
  /\ ((forall p, In p pages -> ~ has_marker p) ->
       filterPrivateIconPages pages = pages).
Proof.
  assert (HK : Kept (fun p => ~ has_marker p) pages (filterPrivateIconPages pages)).
  { apply filter_Kept. intros p. rewrite negb_true_iff.
    rewrite <- isIncludedIcon_spec.
    destruct (isIncludedIcon private_icon (lines p)); split; congruence. }
  split; [exact HK|]. split; [now apply Kept_In|].
  intros Hfree. clear HK. unfold filterPrivateIconPages.
  induction pages as [|p l IH]; simpl; [reflexivity|].
  destruct (isIncludedIcon private_icon (lines p)) eqn:E; simpl.
  - exfalso. apply (Hfree p); [now left | now apply isIncludedIcon_spec].
  - f_equal. apply IH. intros q Hq. apply Hfree. now right.
Qed.

(** C3: change selection keeps exactly the pages whose [updated] is
    strictly greater than the timestamp, in their input order; a page
    whose [updated] equals the timestamp is omitted; selecting again from
    the result with the same timestamp changes nothing. *)
Theorem selectChanges_spec (pages : list Page) (C : Z) :
  Kept (fun p => C < updated p) pages (selectChanges pages (Num C))
  /\ (forall p, In p (selectChanges pages (Num C))
                 <-> In p pages /\ C < updated p)
  /\ (forall p, updated p = C -> ~ In p (selectChanges pages (Num C)))
  /\ selectChanges (selectChanges pages (Num C)) (Num C)
      = selectChanges pages (Num C).
Proof.
  assert (HK : Kept (fun p => C < updated p) pages (selectChanges pages (Num C))).
  { apply filter_Kept. intros p. simpl. apply Z.ltb_lt. }
  pose proof (Kept_In _ _ _ HK) as HIn.
  split; [exact HK|]. split; [exact HIn|]. split.
  - intros p Heq Hp. apply HIn in Hp. lia.
  - apply filter_idempotent.
Qed.


(** ** Numbers written to and read back from the checkpoint file *)

Lemma digit_of_digit_char (d : Z) :
  0 <= d < 10 -> digit_of (digit_char d) = Some d.
Proof.
  intros Hd.
  assert (H : d = 0 \/ d = 1 \/ d = 2 \/ d = 3 \/ d = 4 \/ d = 5 \/ d = 6
              \/ d = 7 \/ d = 8 \/ d = 9) by lia.
  repeat (destruct H as [->|H]; [reflexivity|]). now subst.
Qed.

Lemma append_nil_r (s : string) : s ++ EmptyString = s.
Proof. induction s as [|c s IH]; simpl; [reflexivity | now rewrite IH]. Qed.

Lemma parse_digits_dec_fuel : forall (fuel : nat) (n : Z) (rest : string),
    0 <= n < 2 ^ Z.of_nat fuel ->
    parse_digits (dec_fuel fuel n ++ rest) 0 = parse_digits rest n.
Proof.
  induction fuel as [|f IH]; intros n rest Hn.
  - change (2 ^ Z.of_nat 0) with 1 in Hn. cbn [dec_fuel append].
    now replace n with 0 by lia.
  - cbn [dec_fuel]. rewrite append_assoc.
    assert (Hd : 0 <= n mod 10 < 10) by (apply Z.mod_pos_bound; lia).
    rewrite Nat2Z.inj_succ, Z.pow_succ_r in Hn by lia.
    destruct (n <? 10) eqn:E.
    + apply Z.ltb_lt in E. cbn [append parse_digits].
      rewrite digit_of_digit_char by exact Hd.
      now rewrite Z.mod_small by lia.
    + apply Z.ltb_ge in E.
      rewrite IH.
      * cbn [append parse_digits]. rewrite digit_of_digit_char by exact Hd.
        f_equal. pose proof (Z.div_mod n 10 ltac:(lia)). lia.
      * split; [apply Z.div_pos; lia|].
        apply Z.div_lt_upper_bound; lia.
Qed.

Lemma starts_with_digit_dec_fuel : forall (fuel : nat) (n : Z) (rest : string),
    0 <= n -> starts_with_digit rest = true ->
    starts_with_digit (dec_fuel fuel n ++ rest) = true.
Proof.
  induction fuel as [|f IH]; intros n rest Hn Hrest; [exact Hrest|].
  cbn [dec_fuel]. rewrite append_assoc.
  assert (Hd : 0 <= n mod 10 < 10) by (apply Z.mod_pos_bound; lia).
  assert (Hs : starts_with_digit
                 (String (digit_char (n mod 10)) EmptyString ++ rest) = true).
  { cbn [append starts_with_digit]. now rewrite digit_of_digit_char. }
  destruct (n <? 10); [exact Hs|].
  apply IH; [apply Z.div_pos; lia | exact Hs].
Qed.

Lemma parse_digits_dec (n : Z) : 0 <= n -> parse_digits (dec n) 0 = n.
Proof.
  intros Hn. unfold dec.
  rewrite <- (append_nil_r (dec_fuel _ n)).
  rewrite parse_digits_dec_fuel; [reflexivity|].
  rewrite Nat2Z.inj_succ, Z2Nat.id by apply Z.log2_nonneg.
  destruct (Z.eq_dec n 0) as [->|Hz]; [vm_compute; split; congruence|].
  split; [lia|]. apply Z.log2_spec. lia.
Qed.

Lemma starts_with_digit_dec (n : Z) : 0 <= n -> starts_with_digit (dec n) = true.
Proof.
  intros Hn. unfold dec. cbn [dec_fuel].
  assert (Hd : 0 <= n mod 10 < 10) by (apply Z.mod_pos_bound; lia).
  assert (Hs : starts_with_digit (String (digit_char (n mod 10)) EmptyString) = true).
  { cbn [append starts_with_digit]. now rewrite digit_of_digit_char. }
  destruct (n <? 10); [exact Hs|].
  apply starts_with_digit_dec_fuel; [apply Z.div_pos; lia | exact Hs].
Qed.

Lemma parseInt_digits (s : string) :
  starts_with_digit s = true -> parseInt s = Num (parse_digits s 0).
Proof.
  destruct s as [|c s']; [discriminate|].
  destruct c as [[] [] [] [] [] [] [] []]; intros H;
    try discriminate H; reflexivity.
Qed.

Lemma parseInt_minus_digits (s : string) :
  starts_with_digit s = true ->
  parseInt (String "-"%char s) = Num (- parse_digits s 0).
Proof.
  destruct s as [|c s']; [discriminate|].
  destruct c as [[] [] [] [] [] [] [] []]; intros H;
    try discriminate H; reflexivity.
Qed.

(** What [saveLastImportTime] writes is read back as the same integer. *)
Lemma parseInt_toString (z : Z) : parseInt (toString (Num z)) = Num z.
Proof.
  unfold toString. destruct (z <? 0) eqn:E.
  - apply Z.ltb_lt in E.
    rewrite parseInt_minus_digits by (apply starts_with_digit_dec; lia).
    rewrite parse_digits_dec by lia. f_equal. lia.
  - apply Z.ltb_ge in E.
    rewrite parseInt_digits by (now apply starts_with_digit_dec).
    now rewrite parse_digits_dec.
Qed.

(** ** The monad of runs *)

Lemma bind_ok {A B : Type} (m : M A) (k : A -> M B) w a w1 e1 :
  m w = (inr a, w1, e1) ->
  bind m k w = (outcome (k a w1), world (k a w1), (e1 ++ events (k a w1))%list).
Proof.
  intros H. unfold bind. rewrite H.
  now destruct (k a w1) as [[r w2] e2].
Qed.

Lemma bind_err {A B : Type} (m : M A) (k : A -> M B) w e w1 e1 :
  m w = (inl e, w1, e1) -> bind m k w = (inl e, w1, e1).
Proof. intros H. unfold bind. now rewrite H. Qed.

Lemma writes_of_app (e1 e2 : list Event) :
  writes_of (e1 ++ e2) = (writes_of e1 ++ writes_of e2)%list.
Proof.
  induction e1 as [|e e1 IH]; simpl; [reflexivity|].
  destruct e; simpl; now rewrite IH.
Qed.

Lemma import_calls_app (e1 e2 : list Event) :
  import_calls (e1 ++ e2) = (import_calls e1 ++ import_calls e2)%list.
Proof.
  induction e1 as [|e e1 IH]; simpl; [reflexivity|].
  destruct e; simpl; now rewrite IH.
Qed.

Lemma remote_events_app (e1 e2 : list Event) :
  remote_events (e1 ++ e2) = (remote_events e1 ++ remote_events e2)%list.
Proof. apply filter_app. Qed.

Lemma paced_events_app (e1 e2 : list Event) :
  paced_events (e1 ++ e2) = (paced_events e1 ++ paced_events e2)%list.
Proof. apply filter_app. Qed.

(** *** Computations that leave the checkpoint file alone *)

Lemma Frame_ret {A : Type} (a : A) : Frame (ret a).
Proof. intros w. now cbn. Qed.

Lemma Frame_throw {A : Type} (e : Err) : Frame (@throw A e).
Proof. intros w. now cbn. Qed.

Lemma Frame_bind {A B : Type} (m : M A) (k : A -> M B) :
  Frame m -> (forall a, Frame (k a)) -> Frame (bind m k).
Proof.
  intros Hm Hk w. specialize (Hm w). unfold bind.
  destruct (m w) as [[[e|a] w1] e1]; cbn in *; [exact Hm|].
  specialize (Hk a w1).
  destruct (k a w1) as [[r w2] e2]; cbn in *.
  destruct Hm as (Hm1 & Hm2 & Hm3), Hk as (Hk1 & Hk2 & Hk3).
  now rewrite Hk1, Hm1, Hk2, Hm2, writes_of_app, Hm3, Hk3.
Qed.

Lemma Frame_console_log (msg : string) : Frame (console_log msg).
Proof. intros w. now cbn. Qed.

Lemma Frame_sleep (ms : Z) : Frame (sleep ms).
Proof. intros w. now cbn. Qed.


Lemma Frame_lib_exportPages env project : Frame (lib_exportPages env project).
Proof. intros w. now cbn. Qed.

Lemma Frame_assertString v : Frame (assertString v).
Proof. destruct v; [apply Frame_ret | apply Frame_throw]. Qed.

Lemma Frame_getConfig env : Frame (getConfig env).
Proof.
  unfold getConfig.
  repeat (apply Frame_bind; [apply Frame_assertString | intros ?]).
  apply Frame_ret.
Qed.

Lemma Frame_exportPagesFromProject env config :
  Frame (exportPagesFromProject env config).
Proof.
  unfold exportPagesFromProject.
  apply Frame_bind; [apply Frame_console_log | intros _].
  apply Frame_bind; [apply Frame_lib_exportPages | intros [pages|name message]].
  - apply Frame_ret.
  - apply Frame_throw.
Qed.

Local Opaque String.append nat_toString toString dquote check_mark.

(** ** The batched import of part_000 *)

Section BatchedFacts.
Variable env : Env.
Variable config : Config.
Variable totalBatches : nat.

Let step := Batched.reducer env config totalBatches.
Let post := EvImport (importingProjectName config) (sid config).

(** One step of the chain, after a previous promise that resolved. *)
Lemma reducer_run previousPromise batch index w v w0 e0 :
  previousPromise w = (inr v, w0, e0) ->
  exists v' evs,
    step previousPromise batch index w
    = (inr v', mkWorld (file w0) (writable w0) (S (imports w0)), (e0 ++ evs)%list)
    /\ import_calls evs = [batch]
    /\ writes_of evs = []
    /\ (v' = None <-> exists value, import_answer env (imports w0) = ImportOk value)
    /\ (forall value, import_answer env (imports w0) = ImportOk value ->
        paced_events evs
        = (post batch
             :: if (index <? totalBatches - 1)%nat then [EvSleep 1000] else [])%list).
Proof.
  intros Hprev. unfold step, Batched.reducer.
  rewrite (bind_ok _ _ _ _ _ _ Hprev).
  unfold bind, console_log, emit, deps_importPages, sleep, ret.
  destruct (import_answer env (imports w0)) as [value|name message];
    [destruct (index <? totalBatches - 1)%nat|]; cbn;
    (eexists; eexists; split; [reflexivity|]);
    repeat split; try reflexivity; try congruence; try (now eexists).
  intros [value H]; discriminate.
Qed.

Lemma intersperse_cons {A : Type} (sep x : A) (l : list A) :
  intersperse sep (x :: l)
  = (x :: match l with [] => [] | _ :: _ => sep :: intersperse sep l end)%list.
Proof. destruct l; reflexivity. Qed.

(** The whole chain: every batch is handed to the import call, whatever
    the answers are; nothing is thrown. *)
Lemma reduce_run : forall items index acc w v w0 e0,
  acc w = (inr v, w0, e0) ->
  exists v' evs,
    Batched.reduce_from step acc items index w
    = (inr v',
       mkWorld (file w0) (writable w0) (imports w0 + List.length items),
       (e0 ++ evs)%list)
    /\ import_calls evs = items
    /\ writes_of evs = []
    /\ ((forall k, (imports w0 <= k < imports w0 + List.length items)%nat ->
                   exists value, import_answer env k = ImportOk value) ->
        (index + List.length items = totalBatches)%nat ->
        paced_events evs = intersperse (EvSleep 1000) (map post items)).
Proof.
  induction items as [|batch rest IH]; intros index acc w v w0 e0 Hacc.
  - exists v, []. cbn [Batched.reduce_from List.length].
    rewrite Hacc, app_nil_r, Nat.add_0_r. destruct w0; cbn.
    repeat split; reflexivity.
  - cbn [Batched.reduce_from].
    destruct (reducer_run acc batch index w v w0 e0 Hacc)
      as (v1 & evs1 & Hstep & Hcalls1 & Hwrites1 & _ & Hpaced1).
    destruct (IH (S index) _ w _ _ _ Hstep)
      as (v' & evs & Hrun & Hcalls & Hwrites & Hpaced).
    exists v', (evs1 ++ evs)%list. cbn [file writable imports] in Hrun.
    rewrite Hrun. split.
    { rewrite <- app_assoc. cbn [List.length].
      replace (S (imports w0) + List.length rest)%nat
        with (imports w0 + S (List.length rest))%nat by lia.
      reflexivity. }
    rewrite import_calls_app, writes_of_app, Hcalls1, Hcalls, Hwrites1, Hwrites.
    repeat split; try reflexivity.
    intros Hok Hidx. cbn [List.length] in *.
    destruct (Hok (imports w0) ltac:(lia)) as [value Hvalue].
    rewrite paced_events_app, (Hpaced1 value Hvalue), Hpaced.
    + cbn [map]. rewrite intersperse_cons.
      destruct rest as [|b rest'].
      * cbn [List.length] in Hidx.
        replace (index <? totalBatches - 1)%nat with false
          by (symmetry; apply Nat.ltb_ge; lia).
        reflexivity.
      * cbn [List.length] in Hidx.
        replace (index <? totalBatches - 1)%nat with true
          by (symmetry; apply Nat.ltb_lt; lia).
        reflexivity.
    + intros k Hk. apply Hok. cbn [imports] in Hk. lia.
    + lia.
Qed.
End BatchedFacts.

(** BATCH_SIZE is positive: the batches of a page list always exist and
    concatenate to it. *)
Lemma splitBatches_BATCH_SIZE {T : Type} (items : list T) :
  exists batches,
    splitBatches items BATCH_SIZE = Some batches
    /\ List.concat batches = items
    /\ (items <> [] -> batches <> []).
Proof.
  destruct items as [|x items].
  - exists []. repeat split; try reflexivity; congruence.
  - destruct (batchCount_ceiling (List.length (x :: items)) BATCH_SIZE)
      as (k & Hk & _ & Hhi & Hpos); [cbn; lia | unfold BATCH_SIZE; lia |].
    unfold splitBatches. rewrite Hk. eexists. split; [reflexivity|]. split.
    + rewrite concat_windows. now apply slice_whole.
    + intros _ E. apply (f_equal (@List.length (list T))) in E.
      rewrite length_map, length_seq in E. cbn in E. lia.
Qed.

Section BatchedImport.
Variable env : Env.
Variable config : Config.

(** In the batched version a failed import of a batch stops nothing:
    the call hands every batch to the import operation, in order, and
    completes normally whatever the answers are. *)
Lemma Batched_importPagesToProject_run (pages : list Page) (w : World) :
  pages <> [] ->
  exists batches evs,
    splitBatches pages BATCH_SIZE = Some batches
    /\ Batched.importPagesToProject env config pages w
       = (inr tt,
          mkWorld (file w) (writable w) (imports w + List.length batches),
          evs)
    /\ import_calls evs = batches
    /\ writes_of evs = []
    /\ ((forall k, (imports w <= k < imports w + List.length batches)%nat ->
                   exists value, import_answer env k = ImportOk value) ->
        paced_events evs
        = intersperse (EvSleep 1000)
            (map (EvImport (importingProjectName config) (sid config)) batches)).
Proof.
  intros Hne.
  destruct (splitBatches_BATCH_SIZE pages) as (batches & Hsplit & _ & _).
  exists batches.
  unfold Batched.importPagesToProject.
  destruct pages as [|p pages]; [congruence|].
  cbn [List.length Nat.eqb]. rewrite Hsplit.
  assert (Hinit : @ret (option ErrorObject) None w = (inr None, w, [])) by reflexivity.
  destruct (reduce_run env config (List.length batches) batches 0 _ w _ _ _ Hinit)
    as (v' & evs & Hrun & Hcalls & Hwrites & Hpaced).
  eexists. split; [reflexivity|]. split.
  { unfold bind at 1. unfold console_log at 1, emit.
    rewrite (bind_ok _ _ _ _ _ _ Hrun). cbn. reflexivity. }
  cbn [app import_calls writes_of].
  rewrite import_calls_app, writes_of_app, Hcalls, Hwrites. cbn.
  rewrite app_nil_r. repeat split; try reflexivity.
  intros Hok. unfold paced_events. cbn [filter is_paced].
  fold (paced_events (evs ++ [EvLog ("All " ++ nat_toString (S (List.length pages))
                     ++ " pages imported successfully.")])).
  rewrite paced_events_app. cbn. rewrite app_nil_r.
  apply Hpaced; [exact Hok | reflexivity].
Qed.
End BatchedImport.

(** ** The batch loop of pages.ts *)

Section EffFacts.
Variable env : Env.
Variable project session : string.

(** The function handed to [processBatchesEffect] by [importPagesToProject]. *)
Let processFunc (batch : list Page) (batchNumber totalBatches : nat) : M unit :=
  (console_log ("Importing batch " ++ nat_toString batchNumber ++ "/"
                ++ nat_toString totalBatches ++ " ("
                ++ nat_toString (List.length batch) ++ " pages)...") ;;
   Eff.importPages env project batch session ;;
   console_log (check_mark ++ " Batch " ++ nat_toString batchNumber ++ "/"
                ++ nat_toString totalBatches ++ " completed successfully.") ;;
   (if (batchNumber <? totalBatches)%nat then sleep 1000 else ret tt))%run.

Let post := EvImport project session.

Lemma Frame_importPages batch : Frame (Eff.importPages env project batch session).
Proof.
  intros w. unfold Eff.importPages.
  destruct (remote_answer env (imports w)); now cbn.
Qed.

Lemma Frame_processFunc batch batchNumber totalBatches :
  Frame (processFunc batch batchNumber totalBatches).
Proof.
  unfold processFunc.
  apply Frame_bind; [apply Frame_console_log | intros _].
  apply Frame_bind; [apply Frame_importPages | intros _].
  apply Frame_bind; [apply Frame_console_log | intros _].
  destruct (batchNumber <? totalBatches)%nat; [apply Frame_sleep | apply Frame_ret].
Qed.

Lemma Frame_forBatches {T : Type} (f : list T -> nat -> nat -> M unit) total :
  (forall b n t, Frame (f b n t)) ->
  forall batches i, Frame (Eff.forBatches f batches i total).
Proof.
  intros Hf. induction batches as [|b rest IH]; intros i; cbn [Eff.forBatches].
  - apply Frame_ret.
  - apply Frame_bind; [apply Hf | intros _; apply IH].
Qed.

(** A batch whose import succeeds. *)
Lemma processFunc_ok batch i totalBatches w :
  remote_answer env (imports w) = HttpOk ->
  exists evs,
    processFunc batch (i + 1) totalBatches w
    = (inr tt, mkWorld (file w) (writable w) (S (imports w)), evs)
    /\ import_calls evs = [batch]
    /\ paced_events evs
       = (post batch :: if (i + 1 <? totalBatches)%nat then [EvSleep 1000] else [])%list.
Proof.
  intros Hok. unfold processFunc, bind, console_log, emit, Eff.importPages, sleep, ret.
  cbn [imports file writable]. rewrite Hok.
  destruct (i + 1 <? totalBatches)%nat; cbn;
    (eexists; split; [reflexivity|]); split; reflexivity.
Qed.

(** A batch whose import fails: the failure is an [ImportError] for the
    project, no delay follows. *)
Lemma processFunc_failed batch i totalBatches w :
  remote_answer env (imports w) <> HttpOk ->
  exists message evs,
    processFunc batch (i + 1) totalBatches w
    = (inl (ImportError message project),
       mkWorld (file w) (writable w) (S (imports w)), evs)
    /\ (import_calls evs = [] \/ import_calls evs = [batch])
    /\ paced_events evs = map post (import_calls evs).
Proof.
  intros Hbad. unfold processFunc, bind, console_log, emit, Eff.importPages, sleep, ret.
  cbn [imports file writable].
  destruct (remote_answer env (imports w)); try congruence; cbn;
    (eexists; eexists; split; [reflexivity|]); split; auto.
Qed.

(** All imports succeed: every batch is posted, in order, with a delay
    between two consecutive batches. *)
Lemma forBatches_ok totalBatches : forall batches i w,
  (forall k, (imports w <= k < imports w + List.length batches)%nat ->
             remote_answer env k = HttpOk) ->
  (i + List.length batches = totalBatches)%nat ->
  exists evs,
    Eff.forBatches processFunc batches i totalBatches w
    = (inr tt,
       mkWorld (file w) (writable w) (imports w + List.length batches), evs)
    /\ import_calls evs = batches
    /\ paced_events evs = intersperse (EvSleep 1000) (map post batches).
Proof.
  induction batches as [|batch rest IH]; intros i w Hok Hidx.
  - exists []. cbn. rewrite Nat.add_0_r. destruct w; now cbn.
  - cbn [Eff.forBatches List.length] in *.
    destruct (processFunc_ok batch i totalBatches w (Hok (imports w) ltac:(lia)))
      as (evs1 & Hstep & Hcalls1 & Hpaced1).
    rewrite (bind_ok _ _ _ _ _ _ Hstep).
    destruct (IH (S i) (mkWorld (file w) (writable w) (S (imports w))))
      as (evs & Hrun & Hcalls & Hpaced).
    { intros k Hk. apply Hok. cbn [imports] in Hk. lia. }
    { lia. }
    rewrite Hrun. cbn [outcome world events fst snd file writable imports].
    exists (evs1 ++ evs)%list. split.
    { now replace (S (imports w) + List.length rest)%nat
        with (imports w + S (List.length rest))%nat by lia. }
    rewrite import_calls_app, paced_events_app, Hcalls1, Hcalls, Hpaced1, Hpaced.
    split; [reflexivity|].
    cbn [map]. rewrite intersperse_cons.
    destruct rest as [|b rest']; cbn [List.length] in Hidx.
    + replace (i + 1 <? totalBatches)%nat with false
        by (symmetry; apply Nat.ltb_ge; lia).
      reflexivity.
    + replace (i + 1 <? totalBatches)%nat with true
        by (symmetry; apply Nat.ltb_lt; lia).
      reflexivity.
Qed.

(** The first failure, at the batch of index [j], ends the loop: the
    batches before it were posted, none after it is attempted. *)
Lemma forBatches_fail_fast totalBatches : forall batches i w j,
  (j < List.length batches)%nat ->
  (forall k, (imports w <= k < imports w + j)%nat ->
             remote_answer env k = HttpOk) ->
  remote_answer env (imports w + j) <> HttpOk ->
  exists message evs tail,
    Eff.forBatches processFunc batches i totalBatches w
    = (inl (ImportError message project),
       mkWorld (file w) (writable w) (imports w + S j), evs)
    /\ import_calls evs = (firstn j batches ++ tail)%list
    /\ (tail = [] \/ tail = firstn 1 (skipn j batches)).
Proof.
  induction batches as [|batch rest IH]; intros i w j Hj Hok Hbad;
    cbn [List.length] in Hj; [lia|].
  cbn [Eff.forBatches]. destruct j as [|j].
  - rewrite Nat.add_0_r in Hbad.
    destruct (processFunc_failed batch i totalBatches w Hbad)
      as (message & evs & Hstep & Hcalls & _).
    rewrite (bind_err _ _ _ _ _ _ Hstep).
    exists message, evs, (import_calls evs).
    rewrite Nat.add_1_r. repeat split; auto.
  - destruct (processFunc_ok batch i totalBatches w (Hok (imports w) ltac:(lia)))
      as (evs1 & Hstep & Hcalls1 & _).
    rewrite (bind_ok _ _ _ _ _ _ Hstep).
    destruct (IH (S i) (mkWorld (file w) (writable w) (S (imports w))) j)
      as (message & evs & tail & Hrun & Hcalls & Htail).
    { lia. }
    { intros k Hk. apply Hok. cbn [imports] in Hk. lia. }
    { cbn [imports]. now replace (S (imports w) + j)%nat
        with (imports w + S j)%nat by lia. }
    rewrite Hrun. cbn [outcome world events fst snd file writable imports].
    exists message, (evs1 ++ evs)%list, tail. split.
    { now replace (S (imports w) + S j)%nat
        with (imports w + S (S j))%nat by lia. }
    rewrite import_calls_app, Hcalls1, Hcalls. split; [reflexivity|].
    exact Htail.
Qed.
End EffFacts.

(** ** The checkpoint store *)




Lemma getLastImportTime_read : CheckpointRead getLastImportTime.
Proof.
  intros w. unfold getLastImportTime, catch, bind, readTextFile,
    saveLastImportTime, writeTextFile, ret.
  destruct (file w) as [content|]; [reflexivity|].
  cbn zeta. destruct (writable w); [reflexivity|].
  eexists. reflexivity.
Qed.

Lemma saveLastImportTime_write : CheckpointWrite saveLastImportTime.
Proof.
  intros time w. unfold saveLastImportTime, writeTextFile.
  destruct (writable w); [reflexivity | eexists; reflexivity].
Qed.

Lemma getLastImportTimeEffect_read env : CheckpointRead (Eff.getLastImportTimeEffect env).
Proof.
  intros w. unfold Eff.getLastImportTimeEffect, Eff.saveLastImportTimeEffect,
    catch, bind, readTextFile, writeTextFile, ret, throw.
  destruct (file w) as [content|]; [reflexivity|].
  cbn zeta. destruct (writable w); [reflexivity|].
  eexists. reflexivity.
Qed.

Lemma saveLastImportTimeEffect_write env :
  CheckpointWrite (Eff.saveLastImportTimeEffect env).
Proof.
  intros time w. unfold Eff.saveLastImportTimeEffect, catch, writeTextFile, throw.
  destruct (writable w); [reflexivity | eexists; reflexivity].
Qed.

(** ** Every [main] is an instance of [sync] *)

Lemma Plain_main_try_sync env :
  Plain.main_try env
  = sync (getConfig env) (exportPagesFromProject env) getLastImportTime
         saveLastImportTime (Plain.importPagesToProject env).
Proof. reflexivity. Qed.

Lemma Batched_main_try_sync env :
  Batched.main_try env
  = sync (getConfig env) (exportPagesFromProject env) getLastImportTime
         saveLastImportTime (Batched.importPagesToProject env).
Proof. reflexivity. Qed.

Lemma Eff_mainEffect_sync env :
  Eff.mainEffect env
  = sync (Eff.getConfigEffect env)
         (fun config =>
            Eff.exportPagesFromProject env (exportingProjectName config) (sid config))
         (Eff.getLastImportTimeEffect env)
         (Eff.saveLastImportTimeEffect env)
         (fun config pages =>
            Eff.importPagesToProject env (importingProjectName config) pages
                                     (sid config)).
Proof. reflexivity. Qed.

(** ** The orchestrator *)

Lemma bind_cases {A B : Type} (m : M A) (k : A -> M B) (w : World) :
  (exists e w1 e1, m w = (inl e, w1, e1) /\ bind m k w = (inl e, w1, e1))
  \/ (exists a w1 e1,
         m w = (inr a, w1, e1)
         /\ bind m k w
            = (outcome (k a w1), world (k a w1), (e1 ++ events (k a w1))%list)).
Proof.
  destruct (m w) as [[[e|a] w1] e1] eqn:E.
  - left. exists e, w1, e1. split; [reflexivity | now apply bind_err].
  - right. exists a, w1, e1. split; [reflexivity | now apply bind_ok].
Qed.

Lemma bind_emit {B : Type} (e : Event) (k : unit -> M B) (w : World) :
  bind (emit e) k w = (outcome (k tt w), world (k tt w), e :: events (k tt w)).
Proof. exact (bind_ok (emit e) k w tt w [e] eq_refl). Qed.

Lemma parseInt_not_NegInfinity (s : string) : parseInt s <> NegInfinity.
Proof.
  unfold parseInt.
  destruct (skip_ws s) as [|c r]; [discriminate|].
  destruct c as [[] [] [] [] [] [] [] []];
    match goal with
    | |- context [starts_with_digit ?x] => destruct (starts_with_digit x)
    end; discriminate.
Qed.

Lemma watermark_not_NegInfinity (w : World) : watermark w <> NegInfinity.
Proof.
  unfold watermark. destruct (file w); [apply parseInt_not_NegInfinity | discriminate].
Qed.


Section SyncFacts.
Variable getConfig : M Config.
Variable exportPages : Config -> M (list Page).
Variable getLast : M number.
Variable save : number -> M unit.
Variable importTo : Config -> list Page -> M unit.

Hypothesis getConfig_frame : Frame getConfig.
Hypothesis exportPages_frame : forall config, Frame (exportPages config).
Hypothesis importTo_frame : forall config pages, Frame (importTo config pages).
Hypothesis getLast_read : CheckpointRead getLast.
Hypothesis save_write : CheckpointWrite save.

Let run := sync getConfig exportPages getLast save importTo.

(** The steps after the checkpoint read, spelled out. *)
Lemma sync_tail_run config pages t w :
  let newPages := selectChanges (filterPrivateIconPages pages) t in
  let found :=
    [EvLog ("Found " ++ nat_toString (List.length newPages)
            ++ " new or updated pages to import.");
     EvLogTitles (map title newPages)] in
  sync_tail save importTo config pages t w
  = match newPages with
    | [] => (inr tt, w, [EvLog "No new pages to import."])
    | _ :: _ =>
        let R := importTo config newPages w in
        match outcome R with
        | inl e => (inl e, world R, (found ++ events R)%list)
        | inr _ =>
            let S := save (Math_max (map updated newPages)) (world R) in
            (outcome S, world S, (found ++ events R ++ events S)%list)
        end
    end.
Proof.
  intros newPages found. unfold sync_tail. cbv zeta.
  fold newPages. subst found.
  destruct newPages as [|p rest] eqn:Enew; [reflexivity|].
  cbn [List.length Nat.eqb]. unfold console_log.
  rewrite !bind_emit. cbn [outcome world events fst snd].
  destruct (bind_cases (importTo config (p :: rest))
              (fun _ => save (Math_max (map updated (p :: rest)))) w)
    as [(e & wd & evd & Hi & Hrun) | ([] & wd & evd & Hi & Hrun)];
    rewrite Hrun, Hi; reflexivity.
Qed.

(** A run whose first three steps succeed. *)
Lemma sync_run w config wa eva pages wb evb t wc evc :
  getConfig w = (inr config, wa, eva) ->
  exportPages config wa = (inr pages, wb, evb) ->
  getLast wb = (inr t, wc, evc) ->
  run w
  = (outcome (sync_tail save importTo config pages t wc),
     world (sync_tail save importTo config pages t wc),
     (eva ++ evb ++ evc
      ++ events (sync_tail save importTo config pages t wc))%list).
Proof.
  intros Hc Hx Hr. unfold run, sync.
  rewrite (bind_ok _ _ _ _ _ _ Hc), (bind_ok _ _ _ _ _ _ Hx),
    (bind_ok _ _ _ _ _ _ Hr).
  reflexivity.
Qed.

Lemma frame_at {A : Type} (m : M A) w r w' evs :
  Frame m -> m w = (r, w', evs) ->
  file w' = file w /\ writable w' = writable w /\ writes_of evs = [].
Proof. intros Hm E. specialize (Hm w). now rewrite E in Hm. Qed.


End SyncFacts.

(** ** The import operation leaves the checkpoint file alone *)




Lemma Frame_Eff_importPagesToProject env name pages session :
  Frame (Eff.importPagesToProject env name pages session).
Proof.
  unfold Eff.importPagesToProject.
  destruct (List.length pages =? 0)%nat; [apply Frame_console_log|].
  apply Frame_bind; [apply Frame_console_log | intros _].
  apply Frame_bind; [|intros _; apply Frame_console_log].
  unfold Eff.processBatchesEffect.
  destruct (splitBatches pages BATCH_SIZE); [|apply Frame_throw].
  apply Frame_forBatches. intros b n t.
  apply Frame_bind; [apply Frame_console_log | intros _].
  apply Frame_bind; [apply Frame_importPages | intros _].
  apply Frame_bind; [apply Frame_console_log | intros _].
  destruct (n <? t)%nat; [apply Frame_sleep | apply Frame_ret].
Qed.

Lemma Frame_getConfigEffect env : Frame (Eff.getConfigEffect env).
Proof.
  unfold Eff.getConfigEffect, Eff.config_string.
  repeat (apply Frame_bind;
          [match goal with
           | |- Frame (match ?x with _ => _ end) =>
               destruct x; [apply Frame_ret | apply Frame_throw]
           end | intros ?]).
  apply Frame_ret.
Qed.

Lemma Frame_Eff_exportPagesFromProject env project session :
  Frame (Eff.exportPagesFromProject env project session).
Proof.
  unfold Eff.exportPagesFromProject.
  apply Frame_bind; [apply Frame_console_log | intros _].
  apply Frame_bind; [apply Frame_lib_exportPages | intros [pages|name message]].
  - apply Frame_ret.
  - apply Frame_bind; [intros w; now cbn | intros _; apply Frame_throw].
Qed.

(** ** The checkpoint over a whole run *)








(** ** Runs whose first steps succeed *)

Lemma getConfig_ok env config w :
  configured env config -> getConfig env w = (inr config, w, []).
Proof.
  intros (Hs & Hx & Hi). unfold getConfig. rewrite Hs, Hx, Hi.
  now destruct config.
Qed.

Lemma getConfigEffect_ok env config w :
  configured env config -> Eff.getConfigEffect env w = (inr config, w, []).
Proof.
  intros (Hs & Hx & Hi). unfold Eff.getConfigEffect, Eff.config_string.
  rewrite Hs, Hx, Hi. now destruct config.
Qed.

Lemma exportPagesFromProject_ok env config pages w :
  export_answer env = ExportOk pages ->
  exportPagesFromProject env config w
  = (inr pages, w, export_events (exportingProjectName config)).
Proof.
  intros Hx. unfold exportPagesFromProject, bind, console_log, emit, lib_exportPages.
  now rewrite Hx.
Qed.

Lemma Eff_exportPagesFromProject_ok env project session pages w :
  export_answer env = ExportOk pages ->
  Eff.exportPagesFromProject env project session w
  = (inr pages, w, export_events project).
Proof.
  intros Hx.
  unfold Eff.exportPagesFromProject, bind, console_log, emit, lib_exportPages.
  now rewrite Hx.
Qed.

Lemma CheckpointRead_ok getLast w :
  CheckpointRead getLast -> store_usable w ->
  getLast w = (inr (watermark w), after_read w, read_events w).
Proof.
  intros Hread Hus. specialize (Hread w).
  unfold watermark, after_read, read_events.
  destruct (file w) as [content|] eqn:Efile; [exact Hread|].
  destruct Hus as [Hus|Hus]; [congruence|].
  cbv zeta in Hread. destruct (writable w); [exact Hread | discriminate Hus].
Qed.

Lemma stored_after_read w : stored (after_read w) = Some (watermark w).
Proof.
  unfold stored, after_read, watermark.
  destruct (file w) as [content|] eqn:Efile; cbn.
  - now rewrite Efile.
  - now rewrite parseInt_toString.
Qed.

Section SyncRuns.
Variable getConfig : M Config.
Variable exportPages : Config -> M (list Page).
Variable getLast : M number.
Variable save : number -> M unit.
Variable importTo : Config -> list Page -> M unit.

Hypothesis getLast_read : CheckpointRead getLast.

(** A run that is configured, whose export succeeds and whose checkpoint
    can be read: the rest of the run works on the delta against the
    watermark. *)
Lemma sync_ok w config pages evx :
  getConfig w = (inr config, w, []) ->
  exportPages config w = (inr pages, w, evx) ->
  store_usable w ->
  let T := sync_tail save importTo config pages (watermark w) (after_read w) in
  sync getConfig exportPages getLast save importTo w
  = (outcome T, world T, (evx ++ read_events w ++ events T)%list).
Proof.
  intros Hc Hx Hus T.
  rewrite (sync_run _ _ _ _ _ _ _ _ _ _ _ _ _ _ _ Hc Hx
             (CheckpointRead_ok _ _ getLast_read Hus)).
  reflexivity.
Qed.
End SyncRuns.

(** ** The import of no page *)

(** C10: handed the empty page list, the import operation of every
    version returns normally having only logged that there is nothing to
    import: no CSRF token request, no import call, no delay, and the count
    of import calls is unchanged. *)
Theorem importPagesToProject_empty (env : Env) (config : Config) (w : World) :
  let quiet := (@inr Err unit tt, w, [EvLog "No page to be imported found."]) in
  Plain.importPagesToProject env config [] w = quiet
  /\ Batched.importPagesToProject env config [] w = quiet
  /\ Eff.importPagesToProject env (importingProjectName config) [] (sid config) w
     = quiet
  /\ remote_events (events quiet) = []
  /\ import_calls (events quiet) = []
  /\ imports (world quiet) = imports w.
Proof. repeat split. Qed.

(** ** The empty delta *)

Lemma top_level_completed body w w' evs :
  body w = (inr tt, w', evs) -> top_level body w = (Completed, w', evs).
Proof. intros H. unfold top_level. now rewrite H. Qed.

Lemma sync_tail_empty save importTo config pages t w :
  selectChanges (filterPrivateIconPages pages) t = [] ->
  sync_tail save importTo config pages t w
  = (inr tt, w, [EvLog "No new pages to import."]).
Proof. intros H. unfold sync_tail. cbv zeta. now rewrite H. Qed.

(** The three versions of [main] on an empty delta. *)
Lemma main_empty_delta env config pages w :
  configured env config ->
  export_answer env = ExportOk pages ->
  store_usable w ->
  delta pages w = [] ->
  let quiet_run :=
    (Completed, after_read w,
     (export_events (exportingProjectName config) ++ read_events w
      ++ [EvLog "No new pages to import."])%list) in
  Plain.main env w = quiet_run
  /\ Batched.main env w = quiet_run
  /\ Eff.main env w = quiet_run.
Proof.
  intros Hcfg Hexp Hus Hdelta quiet_run. unfold delta in Hdelta.
  split; [|split].
  - unfold Plain.main. apply top_level_completed.
    rewrite Plain_main_try_sync.
    rewrite (sync_ok _ _ _ _ _ getLastImportTime_read w config pages _
               (getConfig_ok _ _ _ Hcfg) (exportPagesFromProject_ok _ _ _ _ Hexp) Hus).
    now rewrite (sync_tail_empty _ _ _ _ _ _ Hdelta).
  - unfold Batched.main. apply top_level_completed.
    rewrite Batched_main_try_sync.
    rewrite (sync_ok _ _ _ _ _ getLastImportTime_read w config pages _
               (getConfig_ok _ _ _ Hcfg) (exportPagesFromProject_ok _ _ _ _ Hexp) Hus).
    now rewrite (sync_tail_empty _ _ _ _ _ _ Hdelta).
  - unfold Eff.main. apply top_level_completed.
    rewrite Eff_mainEffect_sync.
    rewrite (sync_ok (Eff.getConfigEffect env)
               (fun config =>
                  Eff.exportPagesFromProject env (exportingProjectName config)
                                             (sid config))
               _ _ _ (getLastImportTimeEffect_read env) w config pages _
               (getConfigEffect_ok _ _ _ Hcfg)
               (Eff_exportPagesFromProject_ok
                  env (exportingProjectName config) (sid config) pages w Hexp)
               Hus).
    now rewrite (sync_tail_empty _ _ _ _ _ _ Hdelta).
Qed.

(** C8: a run that gets as far as computing its delta (it is configured,
    the export succeeds, the checkpoint can be read) and finds the delta
    empty completes normally; it makes no import call, no token request
    and no delay; after the checkpoint read it writes nothing, so the file
    holds the watermark the run read (on a first run, the default the read
    itself stored). *)
Theorem empty_delta_run (env : Env) (config : Config) (pages : list Page)
        (w : World) :
  configured env config ->
  export_answer env = ExportOk pages ->
  store_usable w ->
  delta pages w = [] ->
  let quiet_run :=
    (Completed, after_read w,
     (export_events (exportingProjectName config) ++ read_events w
      ++ [EvLog "No new pages to import."])%list) in
  Plain.main env w = quiet_run
  /\ Batched.main env w = quiet_run
  /\ Eff.main env w = quiet_run
  /\ remote_events (events quiet_run) = []
  /\ import_calls (events quiet_run) = []
  /\ imports (world quiet_run) = imports w
  /\ writes_of (events quiet_run) = writes_of (read_events w)
  /\ (file w <> None -> writes_of (events quiet_run) = [] /\ world quiet_run = w)
  /\ stored (world quiet_run) = Some (watermark w).
Proof.
  intros Hcfg Hexp Hus Hdelta quiet_run.
  destruct (main_empty_delta env config pages w Hcfg Hexp Hus Hdelta)
    as (HP & HB & HE).
  split; [exact HP|]. split; [exact HB|]. split; [exact HE|].
  subst quiet_run. cbn [events world snd fst].
  unfold read_events, after_read.
  destruct (file w) as [content|] eqn:Efile; cbn;
    repeat split; try reflexivity; try congruence.
  - unfold stored, watermark. now rewrite Efile.
  - unfold watermark. now rewrite Efile, parseInt_toString.
Qed.

Lemma empty_delta_run_witness :
  let env := mkEnv (fun _ => Some "name") (ExportOk [sample_page])
                   (fun _ => ImportOk "ok") (fun _ => HttpOk) "EACCES" in
  let w := mkWorld (Some "1745842022") true 0 in
  let quiet_run :=
    (Completed, after_read w,
     (export_events "name" ++ read_events w
      ++ [EvLog "No new pages to import."])%list) in
  Plain.main env w = quiet_run
  /\ Batched.main env w = quiet_run
  /\ Eff.main env w = quiet_run
  /\ remote_events (events quiet_run) = []
  /\ import_calls (events quiet_run) = []
  /\ imports (world quiet_run) = imports w
  /\ writes_of (events quiet_run) = writes_of (read_events w)
  /\ (file w <> None -> writes_of (events quiet_run) = [] /\ world quiet_run = w)
  /\ stored (world quiet_run) = Some (watermark w).
Proof.
  apply (empty_delta_run
           (mkEnv (fun _ => Some "name") (ExportOk [sample_page])
                  (fun _ => ImportOk "ok") (fun _ => HttpOk) "EACCES")
           (mkConfig "name" "name" "name") [sample_page]
           (mkWorld (Some "1745842022") true 0)).
  - repeat split.
  - reflexivity.
  - left. discriminate.
  - vm_compute. reflexivity.
Defined.

(** ** The first run and the unreadable checkpoint *)

Lemma import_calls_top_level body w :
  import_calls (events (top_level body w)) = import_calls (events (body w)).
Proof.
  unfold top_level. destruct (body w) as [[[e|a] w'] evs]; cbn; [|reflexivity].
  rewrite import_calls_app. cbn. apply app_nil_r.
Qed.

Lemma import_calls_export_events project : import_calls (export_events project) = [].
Proof. reflexivity. Qed.

Lemma import_calls_read_events w : import_calls (read_events w) = [].
Proof. unfold read_events. now destruct (file w). Qed.

Lemma CheckpointWrite_import_calls save time w :
  CheckpointWrite save -> import_calls (events (save time w)) = [].
Proof.
  intros Hs. specialize (Hs time w).
  destruct (writable w); [now rewrite Hs | destruct Hs as [e ->]; reflexivity].
Qed.

(** The pages a run hands to the import operation are its delta, when the
    import operation passes on every page it is given. *)
Lemma sync_tail_import_calls save importTo config pages t w :
  CheckpointWrite save ->
  (forall newPages w1,
      List.concat (import_calls (events (importTo config newPages w1))) = newPages) ->
  List.concat (import_calls (events (sync_tail save importTo config pages t w)))
  = selectChanges (filterPrivateIconPages pages) t.
Proof.
  intros Hsave Himp. rewrite sync_tail_run. cbv zeta.
  destruct (selectChanges (filterPrivateIconPages pages) t) as [|p rest] eqn:Enew;
    [reflexivity|].
  specialize (Himp (p :: rest) w).
  destruct (importTo config (p :: rest) w) as [[[e|[]] w1] ev1];
    cbn [outcome world events fst snd] in *.
  - now rewrite import_calls_app.
  - rewrite !import_calls_app, (CheckpointWrite_import_calls _ _ _ Hsave).
    cbn [import_calls app]. now rewrite app_nil_r.
Qed.

Lemma Plain_import_calls env config pages w :
  List.concat (import_calls (events (Plain.importPagesToProject env config pages w)))
  = pages.
Proof.
  destruct pages as [|p pages]; [reflexivity|].
  unfold Plain.importPagesToProject, bind, console_log, emit, deps_importPages, throw.
  cbn [List.length Nat.eqb].
  destruct (import_answer env (imports w)); cbn; now rewrite app_nil_r.
Qed.

Lemma Batched_import_calls env config pages w :
  List.concat (import_calls (events (Batched.importPagesToProject env config pages w)))
  = pages.
Proof.
  destruct pages as [|p pages]; [reflexivity|].
  destruct (Batched_importPagesToProject_run env config (p :: pages) w)
    as (batches & evs & Hsplit & Hrun & Hcalls & _); [discriminate|].
  rewrite Hrun. cbn [events snd]. rewrite Hcalls.
  destruct (splitBatches_BATCH_SIZE (p :: pages)) as (batches' & Hsplit' & Hconcat & _).
  congruence.
Qed.

(** A checkpoint file that exists is never replaced by the default: the
    read yields whatever [parseInt] makes of its content and writes
    nothing. *)
Lemma getLastImportTime_present (content : string) (w : World) :
  file w = Some content ->
  getLastImportTime w = (inr (parseInt content), w, [EvRead LAST_IMPORT_FILE]).
Proof.
  intros Hfile. pose proof (getLastImportTime_read w) as Hread.
  now rewrite Hfile in Hread.
Qed.

(** Against [NaN] no page is selected. *)
Lemma selectChanges_NaN (pages : list Page) : selectChanges pages NaN = [].
Proof.
  unfold selectChanges. induction pages as [|p pages IH]; [reflexivity | exact IH].
Qed.

(** C6 (as amended): in a configured run whose export succeeds, when the
    checkpoint file does not exist and can be created, reading the
    checkpoint does not fail: it yields the default 1745842021 and stores
    it at once, and the run selects against that default (the pages it
    hands to the import operation are exactly the exported, non-excluded
    pages updated after 1745842021).  When the file exists and its content
    is unparsable, the read yields NaN and stores nothing, and the run
    imports nothing and leaves the file as it is. *)
Theorem getLastImportTime_first_run (env : Env) (config : Config)
        (pages : list Page) (w : World) :
  configured env config ->
  export_answer env = ExportOk pages ->
  (file w = None -> writable w = true ->
   getLastImportTime w
   = (inr (Num 1745842021),
      mkWorld (Some "1745842021") true (imports w),
      [EvRead LAST_IMPORT_FILE; EvWrite LAST_IMPORT_FILE "1745842021"])
   /\ List.concat (import_calls (events (Plain.main env w)))
      = selectChanges (filterPrivateIconPages pages) (Num 1745842021)
   /\ List.concat (import_calls (events (Batched.main env w)))
      = selectChanges (filterPrivateIconPages pages) (Num 1745842021))
  /\ (forall content,
        file w = Some content -> parseInt content = NaN ->
        getLastImportTime w = (inr NaN, w, [EvRead LAST_IMPORT_FILE])
        /\ (forall run, run = Plain.main env w \/ run = Batched.main env w ->
                        outcome run = Completed
                        /\ world run = w
                        /\ import_calls (events run) = []
                        /\ writes_of (events run) = [])).
Proof.
  intros Hcfg Hexp. split.
  - intros Hfile Hwritable.
    assert (Hus : store_usable w) by (now right).
    assert (Hwm : watermark w = Num 1745842021)
      by (unfold watermark; now rewrite Hfile).
    split; [|split].
    + pose proof (getLastImportTime_read w) as Hread.
      rewrite Hfile in Hread. cbv zeta in Hread. rewrite Hwritable in Hread.
      exact Hread.
    + unfold Plain.main. rewrite import_calls_top_level, Plain_main_try_sync.
      rewrite (sync_ok _ _ _ _ _ getLastImportTime_read w config pages _
                 (getConfig_ok _ _ _ Hcfg) (exportPagesFromProject_ok _ _ _ _ Hexp)
                 Hus).
      cbn [events snd].
      rewrite !import_calls_app, import_calls_export_events, import_calls_read_events.
      cbn [app]. rewrite Hwm.
      apply sync_tail_import_calls; [apply saveLastImportTime_write|].
      intros newPages w1. apply Plain_import_calls.
    + unfold Batched.main. rewrite import_calls_top_level, Batched_main_try_sync.
      rewrite (sync_ok _ _ _ _ _ getLastImportTime_read w config pages _
                 (getConfig_ok _ _ _ Hcfg) (exportPagesFromProject_ok _ _ _ _ Hexp)
                 Hus).
      cbn [events snd].
      rewrite !import_calls_app, import_calls_export_events, import_calls_read_events.
      cbn [app]. rewrite Hwm.
      apply sync_tail_import_calls; [apply saveLastImportTime_write|].
      intros newPages w1. apply Batched_import_calls.
  - intros content Hfile Hnan.
    split; [rewrite <- Hnan; now apply getLastImportTime_present|].
    assert (Hus : store_usable w) by (left; congruence).
    assert (Hdelta : delta pages w = []).
    { unfold delta, watermark. rewrite Hfile, Hnan. apply selectChanges_NaN. }
    destruct (main_empty_delta env config pages w Hcfg Hexp Hus Hdelta)
      as (HP & HB & _).
    assert (Hafter : after_read w = w) by (unfold after_read; now rewrite Hfile).
    assert (Hread : read_events w = [EvRead LAST_IMPORT_FILE])
      by (unfold read_events; now rewrite Hfile).
    intros run [-> | ->]; [rewrite HP | rewrite HB];
      cbn [outcome world events fst snd]; rewrite Hafter, Hread;
      repeat split; reflexivity.
Qed.

Lemma getLastImportTime_first_run_witness :
  let env := mkEnv (fun _ => Some "name") (ExportOk [sample_page])
                   (fun _ => ImportOk "ok") (fun _ => HttpOk) "EACCES" in
  let w := mkWorld None true 0 in
  getLastImportTime w
  = (inr (Num 1745842021),
     mkWorld (Some "1745842021") true 0,
     [EvRead LAST_IMPORT_FILE; EvWrite LAST_IMPORT_FILE "1745842021"])
  /\ List.concat (import_calls (events (Plain.main env w))) = [sample_page]
  /\ List.concat (import_calls (events (Batched.main env w))) = [sample_page].
Proof.
  apply (getLastImportTime_first_run
           (mkEnv (fun _ => Some "name") (ExportOk [sample_page])
                  (fun _ => ImportOk "ok") (fun _ => HttpOk) "EACCES")
           (mkConfig "name" "name" "name") [sample_page] (mkWorld None true 0)).
  - repeat split.
  - reflexivity.
  - reflexivity.
  - reflexivity.
Defined.

(** C6, the claim as stated fails: with a checkpoint file whose content
    has no leading integer the read yields NaN, not 1745842021, and stores
    nothing; the run then finds no page to import although the exported
    page is newer than the default. *)
Lemma getLastImportTime_unparsable :
  let w := mkWorld (Some "not a timestamp") true 0 in
  let env := mkEnv (fun _ => Some "name") (ExportOk [sample_page])
                   (fun _ => ImportOk "ok") (fun _ => HttpOk) "EACCES" in
  parseInt "not a timestamp" = NaN
  /\ getLastImportTime w = (inr NaN, w, [EvRead LAST_IMPORT_FILE])
  /\ ~ (outcome (getLastImportTime w) = inr (Num 1745842021)
        /\ file (world (getLastImportTime w)) = Some "1745842021")
  /\ writes_of (events (Batched.main env w)) = []
  /\ import_calls (events (Batched.main env w)) = []
  /\ file (world (Batched.main env w)) = Some "not a timestamp".
Proof.
  vm_compute. repeat split; try reflexivity.
  intros [H _]. discriminate H.
Qed.

(** ** Order and pacing of the batches *)

Lemma intersperse_length {A : Type} (sep : A) (l : list A) :
  List.length (intersperse sep l) = (2 * List.length l - 1)%nat.
Proof.
  induction l as [|x l IH]; [reflexivity|].
  rewrite intersperse_cons. destruct l as [|y l]; [reflexivity|].
  cbn [List.length] in *. rewrite IH. lia.
Qed.

(** No delay follows the last batch. *)
Lemma intersperse_last {A : Type} (sep d : A) (l : list A) :
  l <> [] -> last (intersperse sep l) d = last l d.
Proof.
  induction l as [|x l IH]; [congruence|]. intros _.
  rewrite intersperse_cons. destruct l as [|y l]; [reflexivity|].
  change (last (x :: sep :: intersperse sep (y :: l)) d)
    with (last (sep :: intersperse sep (y :: l)) d).
  assert (Hne : intersperse sep (y :: l) <> [])
    by (rewrite intersperse_cons; discriminate).
  destruct (intersperse sep (y :: l)) as [|z r] eqn:E; [congruence|].
  change (last (sep :: z :: r) d) with (last (z :: r) d).
  rewrite IH by discriminate. reflexivity.
Qed.

(** The Effect version, when every import succeeds. *)
Lemma Eff_importPagesToProject_ok env name pages session w batches :
  pages <> [] ->
  splitBatches pages BATCH_SIZE = Some batches ->
  (forall k, (imports w <= k < imports w + List.length batches)%nat ->
             remote_answer env k = HttpOk) ->
  exists evs,
    Eff.importPagesToProject env name pages session w
    = (inr tt,
       mkWorld (file w) (writable w) (imports w + List.length batches), evs)
    /\ import_calls evs = batches
    /\ paced_events evs
       = intersperse (EvSleep 1000) (map (EvImport name session) batches).
Proof.
  intros Hne Hsplit Hok.
  unfold Eff.importPagesToProject, Eff.processBatchesEffect.
  destruct pages as [|p pages]; [congruence|].
  cbn [List.length Nat.eqb]. rewrite Hsplit.
  destruct (forBatches_ok env name session (List.length batches) batches 0 w)
    as (evs & Hrun & Hcalls & Hpaced); [exact Hok | reflexivity|].
  unfold console_log at 1. rewrite bind_emit.
  rewrite (bind_ok _ _ _ _ _ _ Hrun).
  cbn [outcome world events fst snd console_log emit].
  eexists. split; [reflexivity|].
  cbn [import_calls]. rewrite import_calls_app, Hcalls. cbn [import_calls].
  split; [apply app_nil_r|].
  unfold paced_events at 1. cbn [filter is_paced].
  fold (paced_events (evs ++ [EvLog ("All " ++ nat_toString (S (List.length pages))
                                     ++ " pages imported successfully.")])).
  rewrite paced_events_app, Hpaced. cbn. apply app_nil_r.
Qed.

(** C7: when every import succeeds, the batches of the partition are
    imported one after the other in the order of the partition, and the
    import calls and the 1000 ms delays alternate: a delay after each
    batch but the last, none after the last (so [k] batches give [k - 1]
    delays, and the last of these events is the import of the last
    batch) -- in the batched version and in the Effect version. *)
Theorem batches_sequential_and_paced (env : Env) (config : Config)
        (pages : list Page) (w : World) :
  pages <> [] ->
  (forall k, exists value, import_answer env k = ImportOk value) ->
  (forall k, remote_answer env k = HttpOk) ->
  exists batches,
    splitBatches pages BATCH_SIZE = Some batches
    /\ batches <> []
    /\ paced_in_order (EvImport (importingProjectName config) (sid config)) batches
         (events (Batched.importPagesToProject env config pages w))
    /\ paced_in_order (EvImport (importingProjectName config) (sid config)) batches
         (events (Eff.importPagesToProject
                    env (importingProjectName config) pages (sid config) w)).
Proof.
  intros Hne Hdeno Heff.
  destruct (splitBatches_BATCH_SIZE pages) as (batches & Hsplit & _ & Hnonempty).
  specialize (Hnonempty Hne).
  exists batches. split; [exact Hsplit|]. split; [exact Hnonempty|].
  assert (Hshape : forall evs,
             import_calls evs = batches ->
             paced_events evs
             = intersperse (EvSleep 1000)
                 (map (EvImport (importingProjectName config) (sid config)) batches) ->
             paced_in_order (EvImport (importingProjectName config) (sid config))
                            batches evs).
  { intros evs Hcalls Hpaced. unfold paced_in_order.
    rewrite Hpaced, intersperse_length, length_map.
    split; [exact Hcalls|]. split; [reflexivity|]. split; [reflexivity|].
    rewrite intersperse_last
      by (intros H; apply map_eq_nil in H; contradiction).
    clear - Hnonempty.
    induction batches as [|b [|b' rest] IH]; [congruence | reflexivity|].
    cbn [map]. change (last (b :: b' :: rest) []) with (last (b' :: rest) []).
    rewrite <- IH by discriminate. reflexivity. }
  split.
  - destruct (Batched_importPagesToProject_run env config pages w Hne)
      as (batches' & evs & Hsplit' & Hrun & Hcalls & _ & Hpaced).
    assert (E : batches' = batches) by congruence. rewrite E in *. clear E.
    rewrite Hrun. cbn [events snd].
    apply Hshape; [exact Hcalls|]. apply Hpaced. intros k _. apply Hdeno.
  - destruct (Eff_importPagesToProject_ok env (importingProjectName config) pages
                (sid config) w batches Hne Hsplit)
      as (evs & Hrun & Hcalls & Hpaced); [intros k _; apply Heff|].
    rewrite Hrun. cbn [events snd].
    now apply Hshape.
Qed.

Lemma batches_sequential_and_paced_witness :
  let env := mkEnv (fun _ => Some "name") (ExportOk [])
                   (fun _ => ImportOk "ok") (fun _ => HttpOk) "EACCES" in
  let config := mkConfig "sid" "source" "destination" in
  let pages := repeat sample_page 250 in
  exists batches,
    splitBatches pages BATCH_SIZE = Some batches
    /\ batches <> []
    /\ paced_in_order (EvImport "destination" "sid") batches
         (events (Batched.importPagesToProject env config pages stored_world))
    /\ paced_in_order (EvImport "destination" "sid") batches
         (events (Eff.importPagesToProject env "destination" pages "sid"
                                           stored_world)).
Proof.
  apply (batches_sequential_and_paced
           (mkEnv (fun _ => Some "name") (ExportOk [])
                  (fun _ => ImportOk "ok") (fun _ => HttpOk) "EACCES")
           (mkConfig "sid" "source" "destination")
           (repeat sample_page 250) stored_world).
  - discriminate.
  - intros k. exists "ok". reflexivity.
  - intros k. reflexivity.
Defined.

(** The scenario of 250 pages: batches of 100, 100 and 50 pages, a delay
    after the first and after the second, none after the third. *)
Example batches_of_250_pages :
  let env := mkEnv (fun _ => Some "name") (ExportOk [])
                   (fun _ => ImportOk "ok") (fun _ => HttpOk) "EACCES" in
  let shape e :=
    match e with
    | EvImport _ _ batch => Some (List.length batch)
    | _ => None
    end in
  map shape
      (paced_events
         (events (Eff.importPagesToProject env "destination"
                    (repeat sample_page 250) "sid" stored_world)))
  = [Some 100%nat; None; Some 100%nat; None; Some 50%nat]
  /\ map shape
       (paced_events
          (events (Batched.importPagesToProject
                     env (mkConfig "sid" "source" "destination")
                     (repeat sample_page 250) stored_world)))
     = [Some 100%nat; None; Some 100%nat; None; Some 50%nat].
Proof. vm_compute. split; reflexivity. Qed.

(** ** A failed batch *)

Lemma sync_tail_import_failed save importTo config pages t w e w' evs :
  let newPages := selectChanges (filterPrivateIconPages pages) t in
  newPages <> [] ->
  importTo config newPages w = (inl e, w', evs) ->
  sync_tail save importTo config pages t w
  = (inl e, w', (found_events newPages ++ evs)%list).
Proof.
  intros newPages Hne Himp. rewrite sync_tail_run. cbv zeta. fold newPages.
  destruct newPages as [|p rest]; [congruence|].
  now rewrite Himp.
Qed.

Lemma sync_tail_import_ok save importTo config pages t w w' evs :
  let newPages := selectChanges (filterPrivateIconPages pages) t in
  newPages <> [] ->
  importTo config newPages w = (inr tt, w', evs) ->
  sync_tail save importTo config pages t w
  = (outcome (save (Math_max (map updated newPages)) w'),
     world (save (Math_max (map updated newPages)) w'),
     (found_events newPages ++ evs
      ++ events (save (Math_max (map updated newPages)) w'))%list).
Proof.
  intros newPages Hne Himp. rewrite sync_tail_run. cbv zeta. fold newPages.
  destruct newPages as [|p rest]; [congruence|].
  now rewrite Himp.
Qed.

(** The Effect version stops at the first failed batch: the batches
    before it were imported, none after it is attempted, and the call
    fails with the [ImportError] of that batch. *)
Lemma Eff_importPagesToProject_fail_fast env name pages session w batches j :
  splitBatches pages BATCH_SIZE = Some batches ->
  (j < List.length batches)%nat ->
  (forall k, (imports w <= k < imports w + j)%nat -> remote_answer env k = HttpOk) ->
  remote_answer env (imports w + j) <> HttpOk ->
  exists message evs tail,
    Eff.importPagesToProject env name pages session w
    = (inl (ImportError message name),
       mkWorld (file w) (writable w) (imports w + S j), evs)
    /\ import_calls evs = (firstn j batches ++ tail)%list
    /\ (tail = [] \/ tail = firstn 1 (skipn j batches))
    /\ writes_of evs = [].
Proof.
  intros Hsplit Hj Hok Hbad.
  destruct pages as [|p pages].
  { cbv in Hsplit. injection Hsplit as <-. cbn in Hj. lia. }
  destruct (forBatches_fail_fast env name session (List.length batches)
              batches 0 w j Hj Hok Hbad)
    as (message & evs & tail & Hrun & Hcalls & Htail).
  assert (Hfull : Eff.importPagesToProject env name (p :: pages) session w
                  = (inl (ImportError message name),
                     mkWorld (file w) (writable w) (imports w + S j),
                     EvLog ("Importing " ++ nat_toString (List.length (p :: pages))
                            ++ " pages to " ++ dquote ++ "/" ++ name ++ dquote
                            ++ " in batches of " ++ nat_toString BATCH_SIZE ++ "...")
                       :: evs)).
  { unfold Eff.importPagesToProject, Eff.processBatchesEffect.
    cbn [List.length Nat.eqb]. rewrite Hsplit.
    unfold console_log at 1. rewrite bind_emit.
    now rewrite (bind_err _ _ _ _ _ _ Hrun). }
  pose proof (Frame_Eff_importPagesToProject env name (p :: pages) session w)
    as (_ & _ & Hwrites).
  rewrite Hfull in Hwrites. cbn [events snd] in Hwrites.
  exists message. eexists. exists tail.
  split; [exact Hfull|]. split; [|split; [exact Htail | exact Hwrites]].
  cbn [import_calls]. exact Hcalls.
Qed.

Lemma top_level_failed body w e w' evs :
  body w = (inl e, w', evs) ->
  top_level body w = (Exited 1, w', (evs ++ [EvError e; EvExit 1])%list).
Proof. intros H. unfold top_level. now rewrite H. Qed.

Lemma after_read_imports w : imports (after_read w) = imports w.
Proof. unfold after_read. now destruct (file w). Qed.

Lemma after_read_writable w : writable (after_read w) = writable w.
Proof. unfold after_read. now destruct (file w). Qed.

(** The run of the Effect version in which the batch of index [j] is the
    first to fail: it exits with status 1 on the [ImportError] of that
    batch; the batches before it were imported and none after it is
    attempted; the checkpoint is not advanced. *)
Lemma Eff_main_fail_fast env config pages w batches j :
  configured env config ->
  export_answer env = ExportOk pages ->
  store_usable w ->
  splitBatches (delta pages w) BATCH_SIZE = Some batches ->
  (j < List.length batches)%nat ->
  (forall k, (imports w <= k < imports w + j)%nat -> remote_answer env k = HttpOk) ->
  remote_answer env (imports w + j) <> HttpOk ->
  exists message tail evs,
    Eff.main env w
    = (Exited 1,
       mkWorld (file (after_read w)) (writable w) (imports w + S j),
       (evs ++ [EvError (ImportError message (importingProjectName config));
                EvExit 1])%list)
    /\ import_calls evs = (firstn j batches ++ tail)%list
    /\ (tail = [] \/ tail = firstn 1 (skipn j batches))
    /\ writes_of evs = writes_of (read_events w).
Proof.
  intros Hcfg Hexp Hus Hsplit Hj Hok Hbad. unfold delta in Hsplit.
  assert (Hne : selectChanges (filterPrivateIconPages pages) (watermark w) <> []).
  { intros E. rewrite E in Hsplit. cbv in Hsplit. injection Hsplit as <-.
    cbn in Hj. lia. }
  destruct (Eff_importPagesToProject_fail_fast env (importingProjectName config)
              _ (sid config) (after_read w) batches j Hsplit Hj)
    as (message & evs & tail & Hrun & Hcalls & Htail & Hwrites).
  { intros k Hk. apply Hok. rewrite after_read_imports in Hk. lia. }
  { now rewrite after_read_imports. }
  rewrite after_read_imports, after_read_writable in Hrun.
  exists message, tail. eexists. split.
  - unfold Eff.main. apply top_level_failed.
    rewrite Eff_mainEffect_sync.
    rewrite (sync_ok (Eff.getConfigEffect env)
               (fun config =>
                  Eff.exportPagesFromProject env (exportingProjectName config)
                                             (sid config))
               _ _ _ (getLastImportTimeEffect_read env) w config pages _
               (getConfigEffect_ok _ _ _ Hcfg)
               (Eff_exportPagesFromProject_ok
                  env (exportingProjectName config) (sid config) pages w Hexp)
               Hus).
    rewrite (sync_tail_import_failed _ _ _ _ _ _ _ _ _ Hne Hrun).
    reflexivity.
  - cbn [events snd].
    rewrite !import_calls_app, !writes_of_app, Hcalls, Hwrites.
    rewrite import_calls_read_events. cbn. rewrite app_nil_r. auto.
Qed.


(** Among the answers to [n] calls there is a first failure, or none. *)
Lemma first_failure (answer : nat -> RemoteAnswer) (base : nat) : forall n,
    (forall k, (base <= k < base + n)%nat -> answer k = HttpOk)
    \/ (exists j, (j < n)%nat
                  /\ (forall k, (base <= k < base + j)%nat -> answer k = HttpOk)
                  /\ answer (base + j)%nat <> HttpOk).
Proof.
  induction n as [|n IH].
  - left. intros k Hk. lia.
  - destruct IH as [Hall | (j & Hj & Hbefore & Hbad)].
    + destruct (answer (base + n)%nat) eqn:E.
      * right. exists n. repeat split; [lia | exact Hall | congruence].
      * right. exists n. repeat split; [lia | exact Hall | congruence].
      * right. exists n. repeat split; [lia | exact Hall | congruence].
      * left. intros k Hk.
        destruct (Nat.eq_dec k (base + n)) as [->|Hneq]; [exact E|].
        apply Hall. lia.
    + right. exists j. repeat split; [lia | exact Hbefore | exact Hbad].
Qed.


(** ** The batched version does not stop on a failed batch *)


(** C1, on the code: the first of two batches fails.  The reducer builds
    the error naming batch 1/2 but returns it; the second batch is
    imported all the same, no error is reported, the run completes and
    the checkpoint is advanced.  On the same input the Effect version
    stops after the first batch, reports the failure and leaves the
    checkpoint as it was. *)
Theorem Batched_failed_batch_does_not_stop_the_run :
  let env := failing_env (repeat sample_page 101) in
  let config := mkConfig "name" "name" "name" in
  let R := Batched.main env stored_world in
  let E := Eff.main env stored_world in
  import_answer env 0 = ImportFailed "ImportError" "rejected"
  /\ outcome (Batched.reducer env config 2 (ret None) (repeat sample_page 100) 0
                              stored_world)
     = inr (Some (mkError "ImportError when importing pages (batch 1/2)"
                          "rejected"))
  /\ outcome R = Completed
  /\ map (@List.length Page) (import_calls (events R)) = [100; 1]%nat
  /\ errors_of (events R) = []
  /\ In (EvLog "All 101 pages imported successfully.") (events R)
  /\ writes_of (events R) = ["1745842022"]
  /\ file (world R) = Some "1745842022"
  /\ outcome E = Exited 1
  /\ map (@List.length Page) (import_calls (events E)) = [100]%nat
  /\ errors_of (events E) = [ImportError "Import failed: 500 - rejected" "name"]
  /\ writes_of (events E) = []
  /\ file (world E) = Some "1745842021".
Proof.
  vm_compute. repeat split; try reflexivity.
  repeat (first [left; reflexivity | right]).
Qed.

(** C4, on the code: the delta is one page and its import fails.  The
    batched version writes the checkpoint all the same; the plain and the
    Effect versions exit without writing it. *)
Theorem Batched_checkpoint_written_after_failed_import :
  let env := failing_env [sample_page] in
  let R := Batched.main env stored_world in
  delta [sample_page] stored_world = [sample_page]
  /\ import_answer env 0 = ImportFailed "ImportError" "rejected"
  /\ import_calls (events R) = [[sample_page]]
  /\ outcome R = Completed
  /\ writes_of (events R) = ["1745842022"]
  /\ file (world R) = Some "1745842022"
  /\ outcome (Plain.main env stored_world) = Exited 1
  /\ writes_of (events (Plain.main env stored_world)) = []
  /\ outcome (Eff.main env stored_world) = Exited 1
  /\ writes_of (events (Eff.main env stored_world)) = [].
Proof. vm_compute. repeat split; reflexivity. Qed.

(** ** The scenario of three pages *)

(** The checkpoint is 1745842021; page A is older, page B is newer, page C
    is newer and private: the delta is [B], one batch of one page is
    imported and the checkpoint becomes 1745842022. *)
Example three_pages_scenario :
  let A := mkPage "A" [mkLine "a" 0 0] 1745842020 in
  let B := mkPage "B" [mkLine "b" 0 0] 1745842022 in
  let C := mkPage "C" [mkLine "secret [private.icon]" 0 0] 1745900000 in
  let env := mkEnv (fun _ => Some "name") (ExportOk [A; B; C])
                   (fun _ => ImportOk "ok") (fun _ => HttpOk) "EACCES" in
  delta [A; B; C] stored_world = [B]
  /\ import_calls (events (Plain.main env stored_world)) = [[B]]
  /\ import_calls (events (Batched.main env stored_world)) = [[B]]
  /\ import_calls (events (Eff.main env stored_world)) = [[B]]
  /\ file (world (Plain.main env stored_world)) = Some "1745842022"
  /\ file (world (Batched.main env stored_world)) = Some "1745842022"
  /\ file (world (Eff.main env stored_world)) = Some "1745842022".
Proof. vm_compute. repeat split; reflexivity. Qed.

(* ================================================================== *)
(** * Further properties of the code *)

(** ** The checkpoint store, written and read back *)



Lemma toString_Num (z : Z) :
  toString (Num z) = if z <? 0 then String "-"%char (dec (- z)) else dec z.
Proof. reflexivity. Qed.

Lemma skip_ws_pad (pad s : string) :
  all_ws pad = true -> skip_ws (pad ++ s) = skip_ws s.
Proof.
  induction pad as [|c pad IH]; [reflexivity|].
  cbn [all_ws]. intros H. apply andb_prop in H as [Hc Hpad].
  change (String c pad ++ s) with (String c (pad ++ s)).
  cbn [skip_ws]. rewrite Hc. now apply IH.
Qed.

Lemma parseInt_pad (pad s : string) :
  all_ws pad = true -> parseInt (pad ++ s) = parseInt s.
Proof. intros H. unfold parseInt. now rewrite skip_ws_pad. Qed.

Lemma parse_digits_stop (rest : string) (n : Z) :
  starts_with_digit rest = false -> parse_digits rest n = n.
Proof.
  destruct rest as [|c rest]; [reflexivity|]. cbn.
  now destruct (digit_of c).
Qed.

Lemma dec_then (n : Z) (rest : string) :
  0 <= n ->
  starts_with_digit (dec n ++ rest) = true
  /\ parse_digits (dec n ++ rest) 0 = parse_digits rest n.
Proof.
  intros Hn. split.
  - unfold dec. cbn [dec_fuel]. rewrite append_assoc.
    assert (Hd : 0 <= n mod 10 < 10) by (apply Z.mod_pos_bound; lia).
    assert (Hs : starts_with_digit
                   (String (digit_char (n mod 10)) EmptyString ++ rest) = true).
    { cbn [append starts_with_digit]. now rewrite digit_of_digit_char. }
    destruct (n <? 10); [exact Hs|].
    apply starts_with_digit_dec_fuel; [apply Z.div_pos; lia | exact Hs].
  - unfold dec. apply parse_digits_dec_fuel.
    rewrite Nat2Z.inj_succ, Z2Nat.id by apply Z.log2_nonneg.
    destruct (Z.eq_dec n 0) as [->|Hz]; [vm_compute; split; congruence|].
    split; [lia|]. apply Z.log2_spec. lia.
Qed.

(** X2: a checkpoint file edited by hand is still understood: white space
    before the number and anything that does not start with a digit after
    it (a final newline, a comment) are ignored by the read, which yields
    the number and leaves the file as it is. *)
Theorem getLastImportTime_tolerates_padding (pad rest : string) (z : Z)
        (w : World) :
  all_ws pad = true ->
  starts_with_digit rest = false ->
  file w = Some (pad ++ toString (Num z) ++ rest) ->
  parseInt (pad ++ toString (Num z) ++ rest) = Num z
  /\ getLastImportTime w = (inr (Num z), w, [EvRead LAST_IMPORT_FILE])
  /\ watermark w = Num z.
Proof.
  intros Hpad Hrest Hfile.
  assert (Hparse : parseInt (pad ++ toString (Num z) ++ rest) = Num z).
  { rewrite parseInt_pad by exact Hpad.
    rewrite toString_Num.
    destruct (z <? 0) eqn:E.
    - apply Z.ltb_lt in E.
      destruct (dec_then (- z) rest ltac:(lia)) as [Hs Hv].
      change (String "-" (dec (- z)) ++ rest) with (String "-"%char (dec (- z) ++ rest)).
      rewrite parseInt_minus_digits by exact Hs.
      rewrite Hv, parse_digits_stop by exact Hrest. f_equal. lia.
    - apply Z.ltb_ge in E.
      destruct (dec_then z rest E) as [Hs Hv].
      rewrite parseInt_digits by exact Hs.
      now rewrite Hv, parse_digits_stop. }
  split; [exact Hparse|]. split.
  - rewrite <- Hparse. now apply getLastImportTime_present.
  - unfold watermark. now rewrite Hfile.
Qed.

Lemma getLastImportTime_tolerates_padding_witness :
  let newline := String (ascii_of_nat 10) EmptyString in
  let w := mkWorld (Some ("  1745900000" ++ newline)) false 0 in
  getLastImportTime w = (inr (Num 1745900000), w, [EvRead LAST_IMPORT_FILE]).
Proof.
  apply (getLastImportTime_tolerates_padding
           "  " (String (ascii_of_nat 10) EmptyString) 1745900000
           (mkWorld (Some ("  1745900000" ++ String (ascii_of_nat 10) EmptyString))
                    false 0)).
  - reflexivity.
  - reflexivity.
  - reflexivity.
Defined.

(** ** Runs that stop before the import *)

(** X3: when one of the three environment variables is not set, no
    version does anything but report the error and exit with status 1: no
    export, no checkpoint read or write, no import.  The Deno versions
    report the failed assertion; the Effect version names the first
    missing key, in the order SID, SOURCE_PROJECT_NAME,
    DESTINATION_PROJECT_NAME. *)
Theorem missing_configuration_stops_the_run (env : Env) (w : World) :
  env_get env "SID" = None
  \/ env_get env "SOURCE_PROJECT_NAME" = None
  \/ env_get env "DESTINATION_PROJECT_NAME" = None ->
  let failed := (Exited 1, w, [EvError AssertError; EvExit 1]) in
  Plain.main env w = failed
  /\ Batched.main env w = failed
  /\ Full.main env w = failed
  /\ exists key,
      Eff.main env w = (Exited 1, w, [EvError (ConfigError key); EvExit 1])
      /\ env_get env key = None
      /\ (key = "SID"
          \/ (key = "SOURCE_PROJECT_NAME" /\ env_get env "SID" <> None)
          \/ (key = "DESTINATION_PROJECT_NAME"
              /\ env_get env "SID" <> None
              /\ env_get env "SOURCE_PROJECT_NAME" <> None)).
Proof.
  intros Hmissing failed.
  assert (Hcfg : getConfig env w = (inl AssertError, w, [])).
  { unfold getConfig, bind, assertString, ret, throw.
    destruct (env_get env "SID"); [|reflexivity].
    destruct (env_get env "SOURCE_PROJECT_NAME"); [|reflexivity].
    destruct (env_get env "DESTINATION_PROJECT_NAME"); [|reflexivity].
    destruct Hmissing as [H|[H|H]]; discriminate H. }
  split; [|split; [|split]].
  - unfold Plain.main, Plain.main_try.
    now rewrite (top_level_failed _ w _ _ _ (bind_err _ _ _ _ _ _ Hcfg)).
  - unfold Batched.main, Batched.main_try.
    now rewrite (top_level_failed _ w _ _ _ (bind_err _ _ _ _ _ _ Hcfg)).
  - unfold Full.main, Full.main_try.
    now rewrite (top_level_failed _ w _ _ _ (bind_err _ _ _ _ _ _ Hcfg)).
  - unfold Eff.main, Eff.mainEffect, Eff.getConfigEffect, Eff.config_string,
      top_level, bind, throw, ret.
    destruct (env_get env "SID") as [s|] eqn:Es.
    + destruct (env_get env "SOURCE_PROJECT_NAME") as [x|] eqn:Ex.
      * destruct (env_get env "DESTINATION_PROJECT_NAME") as [d|] eqn:Ed.
        { destruct Hmissing as [H|[H|H]]; discriminate H. }
        exists "DESTINATION_PROJECT_NAME". split; [reflexivity|]. split; [exact Ed|].
        right. right. repeat split; congruence.
      * exists "SOURCE_PROJECT_NAME". split; [reflexivity|]. split; [exact Ex|].
        right. left. split; congruence.
    + exists "SID". split; [reflexivity|]. split; [exact Es|]. now left.
Qed.

Lemma missing_configuration_stops_the_run_witness :
  let env := mkEnv (fun key => if String.eqb key "SOURCE_PROJECT_NAME"
                               then None else Some "value")
                   (ExportOk [sample_page]) (fun _ => ImportOk "ok")
                   (fun _ => HttpOk) "EACCES" in
  Plain.main env stored_world
  = (Exited 1, stored_world, [EvError AssertError; EvExit 1])
  /\ Eff.main env stored_world
     = (Exited 1, stored_world,
        [EvError (ConfigError "SOURCE_PROJECT_NAME"); EvExit 1]).
Proof.
  destruct (missing_configuration_stops_the_run
              (mkEnv (fun key => if String.eqb key "SOURCE_PROJECT_NAME"
                                 then None else Some "value")
                     (ExportOk [sample_page]) (fun _ => ImportOk "ok")
                     (fun _ => HttpOk) "EACCES")
              stored_world)
    as (HP & _ & _ & _).
  - right. left. reflexivity.
  - split; [exact HP | reflexivity].
Defined.

(** X4: when the export fails, no version goes on: the checkpoint file is
    neither read nor written (so a first run does not even seed it) and
    nothing is imported.  The Deno versions throw an error named after the
    remote error, [... when exporting a json file]; the Effect version logs
    the result and fails with an [ExportError] carrying the remote message
    and the project. *)
Theorem export_failure_stops_the_run (env : Env) (config : Config)
        (name message : string) (w : World) :
  configured env config ->
  export_answer env = ExportFailed name message ->
  let log := EvLog ("Exporting a json file from " ++ dquote ++ "/"
                    ++ exportingProjectName config ++ dquote ++ "...") in
  let deno :=
    (Exited 1, w,
     [log; EvExport (exportingProjectName config);
      EvError (JsError (mkError (name ++ " when exporting a json file") message));
      EvExit 1]) in
  Plain.main env w = deno
  /\ Batched.main env w = deno
  /\ Full.main env w = deno
  /\ Eff.main env w
     = (Exited 1, w,
        [log; EvExport (exportingProjectName config); EvLogResult name message;
         EvError (ExportError message (exportingProjectName config)); EvExit 1]).
Proof.
  intros Hcfg Hexp log deno.
  assert (Hx : exportPagesFromProject env config w
               = (inl (JsError (mkError (name ++ " when exporting a json file")
                                        message)),
                  w, [log; EvExport (exportingProjectName config)])).
  { unfold exportPagesFromProject, bind, console_log, emit, lib_exportPages, throw.
    now rewrite Hexp. }
  split; [|split; [|split]].
  - unfold Plain.main, Plain.main_try.
    apply (top_level_failed _ w _ w [log; EvExport (exportingProjectName config)]).
    rewrite (bind_ok _ _ _ _ _ _ (getConfig_ok env config w Hcfg)).
    now rewrite (bind_err _ _ _ _ _ _ Hx).
  - unfold Batched.main, Batched.main_try.
    apply (top_level_failed _ w _ w [log; EvExport (exportingProjectName config)]).
    rewrite (bind_ok _ _ _ _ _ _ (getConfig_ok env config w Hcfg)).
    now rewrite (bind_err _ _ _ _ _ _ Hx).
  - unfold Full.main, Full.main_try.
    apply (top_level_failed _ w _ w [log; EvExport (exportingProjectName config)]).
    rewrite (bind_ok _ _ _ _ _ _ (getConfig_ok env config w Hcfg)).
    now rewrite (bind_err _ _ _ _ _ _ Hx).
  - unfold Eff.main, Eff.mainEffect.
    apply (top_level_failed _ w _ w
             [log; EvExport (exportingProjectName config); EvLogResult name message]).
    rewrite (bind_ok _ _ _ _ _ _ (getConfigEffect_ok env config w Hcfg)).
    assert (Hxe : Eff.exportPagesFromProject env (exportingProjectName config)
                    (sid config) w
                  = (inl (ExportError message (exportingProjectName config)), w,
                     [log; EvExport (exportingProjectName config);
                      EvLogResult name message])).
    { unfold Eff.exportPagesFromProject, bind, console_log, emit, lib_exportPages,
        throw. now rewrite Hexp. }
    now rewrite (bind_err _ _ _ _ _ _ Hxe).
Qed.

Lemma export_failure_stops_the_run_witness :
  let env := mkEnv (fun _ => Some "name") (ExportFailed "NotFoundError" "no project")
                   (fun _ => ImportOk "ok") (fun _ => HttpOk) "EACCES" in
  let w := mkWorld None true 0 in
  world (Plain.main env w) = w
  /\ errors_of (events (Plain.main env w))
     = [JsError (mkError "NotFoundError when exporting a json file" "no project")]
  /\ errors_of (events (Eff.main env w)) = [ExportError "no project" "name"].
Proof.
  destruct (export_failure_stops_the_run
              (mkEnv (fun _ => Some "name")
                     (ExportFailed "NotFoundError" "no project")
                     (fun _ => ImportOk "ok") (fun _ => HttpOk) "EACCES")
              (mkConfig "name" "name" "name") "NotFoundError" "no project"
              (mkWorld None true 0))
    as (HP & _ & _ & HE).
  - repeat split.
  - reflexivity.
  - cbv zeta. rewrite HP, HE. repeat split.
Defined.

(** X5: on a first run in a place where the checkpoint file cannot be
    created, the read of the checkpoint is fatal: the failed write of the
    default escapes the recovery, the run exits with status 1 after the
    export and imports nothing.  The Deno versions report the file error
    itself, the Effect version a [FileWriteError] for the file. *)
Theorem unwritable_first_run_is_fatal (env : Env) (config : Config)
        (pages : list Page) (w : World) :
  configured env config ->
  export_answer env = ExportOk pages ->
  file w = None ->
  writable w = false ->
  let before :=
    (export_events (exportingProjectName config)
     ++ [EvRead LAST_IMPORT_FILE; EvWriteFailed LAST_IMPORT_FILE "1745842021"])%list in
  let deno :=
    (Exited 1, w, (before ++ [EvError (IoError LAST_IMPORT_FILE); EvExit 1])%list) in
  Plain.main env w = deno
  /\ Batched.main env w = deno
  /\ Eff.main env w
     = (Exited 1, w,
        (before ++ [EvError (FileWriteError (io_message env) LAST_IMPORT_FILE);
                    EvExit 1])%list)
  /\ import_calls before = [].
Proof.
  intros Hcfg Hexp Hfile Hwritable before deno.
  assert (Hget : getLastImportTime w
                 = (inl (IoError LAST_IMPORT_FILE), w,
                    [EvRead LAST_IMPORT_FILE;
                     EvWriteFailed LAST_IMPORT_FILE "1745842021"])).
  { unfold getLastImportTime, catch, bind, readTextFile, saveLastImportTime,
      writeTextFile, ret. now rewrite Hfile, Hwritable. }
  assert (Hgete : Eff.getLastImportTimeEffect env w
                  = (inl (FileWriteError (io_message env) LAST_IMPORT_FILE), w,
                     [EvRead LAST_IMPORT_FILE;
                      EvWriteFailed LAST_IMPORT_FILE "1745842021"])).
  { unfold Eff.getLastImportTimeEffect, Eff.saveLastImportTimeEffect, catch, bind,
      readTextFile, writeTextFile, ret, throw. now rewrite Hfile, Hwritable. }
  split; [|split; [|split]].
  - unfold Plain.main, Plain.main_try. apply top_level_failed.
    rewrite (bind_ok _ _ _ _ _ _ (getConfig_ok env config w Hcfg)).
    rewrite (bind_ok _ _ _ _ _ _ (exportPagesFromProject_ok env config pages w Hexp)).
    cbv zeta. now rewrite (bind_err _ _ _ _ _ _ Hget).
  - unfold Batched.main, Batched.main_try. apply top_level_failed.
    rewrite (bind_ok _ _ _ _ _ _ (getConfig_ok env config w Hcfg)).
    rewrite (bind_ok _ _ _ _ _ _ (exportPagesFromProject_ok env config pages w Hexp)).
    cbv zeta. now rewrite (bind_err _ _ _ _ _ _ Hget).
  - unfold Eff.main, Eff.mainEffect. apply top_level_failed.
    rewrite (bind_ok _ _ _ _ _ _ (getConfigEffect_ok env config w Hcfg)).
    rewrite (bind_ok _ _ _ _ _ _
               (Eff_exportPagesFromProject_ok env (exportingProjectName config)
                  (sid config) pages w Hexp)).
    cbv zeta. now rewrite (bind_err _ _ _ _ _ _ Hgete).
  - reflexivity.
Qed.

Lemma unwritable_first_run_is_fatal_witness :
  let env := mkEnv (fun _ => Some "name") (ExportOk [sample_page])
                   (fun _ => ImportOk "ok") (fun _ => HttpOk) "EACCES" in
  let w := mkWorld None false 0 in
  outcome (Plain.main env w) = Exited 1
  /\ world (Plain.main env w) = w
  /\ errors_of (events (Eff.main env w))
     = [FileWriteError "EACCES" LAST_IMPORT_FILE].
Proof.
  destruct (unwritable_first_run_is_fatal
              (mkEnv (fun _ => Some "name") (ExportOk [sample_page])
                     (fun _ => ImportOk "ok") (fun _ => HttpOk) "EACCES")
              (mkConfig "name" "name" "name") [sample_page] (mkWorld None false 0))
    as (HP & _ & HE & _).
  - repeat split.
  - reflexivity.
  - reflexivity.
  - reflexivity.
  - cbv zeta. rewrite HP, HE. repeat split.
Defined.

(** ** What reaches the import endpoint *)

Lemma Silent_ret {A : Type} (a : A) : Silent (ret a).
Proof. intros w. reflexivity. Qed.

Lemma Silent_throw {A : Type} (e : Err) : Silent (@throw A e).
Proof. intros w. reflexivity. Qed.

Lemma Silent_bind {A B : Type} (m : M A) (k : A -> M B) :
  Silent m -> (forall a, Silent (k a)) -> Silent (bind m k).
Proof.
  intros Hm Hk w. specialize (Hm w). unfold bind.
  destruct (m w) as [[[e|a] w1] e1]; cbn in *; [exact Hm|].
  specialize (Hk a w1). destruct (k a w1) as [[r w2] e2]; cbn in *.
  now rewrite import_calls_app, Hm, Hk.
Qed.

Lemma Silent_catch {A : Type} (m : M A) (h : Err -> M A) :
  Silent m -> (forall e, Silent (h e)) -> Silent (catch m h).
Proof.
  intros Hm Hh w. specialize (Hm w). unfold catch.
  destruct (m w) as [[[e|a] w1] e1]; cbn in *; [|exact Hm].
  specialize (Hh e w1). destruct (h e w1) as [[r w2] e2]; cbn in *.
  now rewrite import_calls_app, Hm, Hh.
Qed.

Lemma Silent_console_log msg : Silent (console_log msg).
Proof. intros w. reflexivity. Qed.

Lemma Silent_readTextFile path : Silent (readTextFile path).
Proof. intros w. unfold readTextFile. now destruct (file w). Qed.

Lemma Silent_writeTextFile path content : Silent (writeTextFile path content).
Proof. intros w. unfold writeTextFile. now destruct (writable w). Qed.

Lemma Silent_getConfig env : Silent (getConfig env).
Proof.
  unfold getConfig, assertString.
  repeat (apply Silent_bind;
          [match goal with
           | |- Silent (match ?x with _ => _ end) =>
               destruct x; [apply Silent_ret | apply Silent_throw]
           end | intros ?]).
  apply Silent_ret.
Qed.

Lemma Silent_getConfigEffect env : Silent (Eff.getConfigEffect env).
Proof.
  unfold Eff.getConfigEffect, Eff.config_string.
  repeat (apply Silent_bind;
          [match goal with
           | |- Silent (match ?x with _ => _ end) =>
               destruct x; [apply Silent_ret | apply Silent_throw]
           end | intros ?]).
  apply Silent_ret.
Qed.

Lemma Silent_exportPagesFromProject env config :
  Silent (exportPagesFromProject env config).
Proof.
  unfold exportPagesFromProject.
  apply Silent_bind; [apply Silent_console_log | intros _].
  apply Silent_bind; [intros w; reflexivity | intros [pages|name message]].
  - apply Silent_ret.
  - apply Silent_throw.
Qed.

Lemma Silent_Eff_exportPagesFromProject env project session :
  Silent (Eff.exportPagesFromProject env project session).
Proof.
  unfold Eff.exportPagesFromProject.
  apply Silent_bind; [apply Silent_console_log | intros _].
  apply Silent_bind; [intros w; reflexivity | intros [pages|name message]].
  - apply Silent_ret.
  - apply Silent_bind; [intros w; reflexivity | intros _; apply Silent_throw].
Qed.

Lemma Silent_saveLastImportTime time : Silent (saveLastImportTime time).
Proof. apply Silent_writeTextFile. Qed.

Lemma Silent_getLastImportTime : Silent getLastImportTime.
Proof.
  unfold getLastImportTime. apply Silent_catch.
  - apply Silent_bind; [apply Silent_readTextFile | intros ?; apply Silent_ret].
  - intros _. apply Silent_bind; [apply Silent_saveLastImportTime|].
    intros _. apply Silent_ret.
Qed.

Lemma Silent_saveLastImportTimeEffect env time :
  Silent (Eff.saveLastImportTimeEffect env time).
Proof.
  unfold Eff.saveLastImportTimeEffect. apply Silent_catch.
  - apply Silent_writeTextFile.
  - intros _. apply Silent_throw.
Qed.

Lemma Silent_getLastImportTimeEffect env : Silent (Eff.getLastImportTimeEffect env).
Proof.
  unfold Eff.getLastImportTimeEffect. apply Silent_catch.
  - apply Silent_catch; [|intros _; apply Silent_throw].
    apply Silent_bind; [apply Silent_readTextFile | intros ?; apply Silent_ret].
  - intros _. apply Silent_bind; [apply Silent_saveLastImportTimeEffect|].
    intros _. apply Silent_ret.
Qed.

Lemma sends_only_app allowed e1 e2 :
  sends_only allowed e1 -> sends_only allowed e2 -> sends_only allowed (e1 ++ e2).
Proof.
  unfold sends_only. intros H1 H2. rewrite import_calls_app.
  apply Forall_app. now split.
Qed.

Lemma sends_only_silent allowed evs : import_calls evs = [] -> sends_only allowed evs.
Proof. unfold sends_only. intros ->. constructor. Qed.

Lemma sends_only_weaken (P Q : Page -> Prop) evs :
  (forall p, P p -> Q p) -> sends_only P evs -> sends_only Q evs.
Proof.
  unfold sends_only. intros HPQ H.
  eapply Forall_impl; [|exact H]. intros b Hb.
  eapply Forall_impl; [|exact Hb]. exact HPQ.
Qed.

Lemma sends_only_top_level allowed body w :
  sends_only allowed (events (body w)) ->
  sends_only allowed (events (top_level body w)).
Proof. unfold sends_only. now rewrite import_calls_top_level. Qed.

(** A page that passed the exclusion filter carries no marker. *)
Lemma filterPrivateIconPages_In p pages :
  In p (filterPrivateIconPages pages) -> In p pages /\ ~ has_marker p.
Proof.
  unfold filterPrivateIconPages. intros H. apply filter_In in H as [Hin Hneg].
  split; [exact Hin|]. intros Hm. apply isIncludedIcon_spec in Hm.
  rewrite Hm in Hneg. discriminate.
Qed.

(** A page of the delta against [t] is not private and is newer than [t]. *)
Lemma selected_page_is_fresh p pages t :
  In p (selectChanges (filterPrivateIconPages pages) t) ->
  ~ has_marker p /\ gt (updated p) t = true.
Proof.
  unfold selectChanges. intros H. apply filter_In in H as [Hin Hgt].
  apply filterPrivateIconPages_In in Hin as [_ Hm]. now split.
Qed.

Lemma In_firstn {A : Type} (x : A) : forall n l, In x (firstn n l) -> In x l.
Proof.
  induction n as [|n IH]; intros [|y l] H; cbn in *; try tauto.
  destruct H as [->|H]; auto.
Qed.

Lemma In_skipn {A : Type} (x : A) : forall n l, In x (skipn n l) -> In x l.
Proof.
  induction n as [|n IH]; intros [|y l] H; cbn in *; try tauto.
  right. now apply IH.
Qed.

(** The import operation of each version passes on pages of its argument
    only. *)
Lemma Plain_sends_its_pages env config pages w :
  sends_only (fun p => In p pages)
             (events (Plain.importPagesToProject env config pages w)).
Proof.
  unfold sends_only.
  destruct pages as [|p pages]; [constructor|].
  unfold Plain.importPagesToProject, bind, console_log, emit, deps_importPages, throw.
  cbn [List.length Nat.eqb].
  destruct (import_answer env (imports w)); cbn;
    (constructor; [apply Forall_forall; auto | constructor]).
Qed.

Lemma Batched_sends_its_pages env config pages w :
  sends_only (fun p => In p pages)
             (events (Batched.importPagesToProject env config pages w)).
Proof.
  unfold sends_only.
  destruct pages as [|p pages]; [constructor|].
  destruct (Batched_importPagesToProject_run env config (p :: pages) w)
    as (batches & evs & Hsplit & Hrun & Hcalls & _); [discriminate|].
  rewrite Hrun. cbn [events snd]. rewrite Hcalls.
  destruct (splitBatches_BATCH_SIZE (p :: pages)) as (batches' & Hsplit' & Hconcat & _).
  assert (E : batches' = batches) by congruence. rewrite E in Hconcat.
  apply Forall_forall. intros b Hb. apply Forall_forall. intros q Hq.
  rewrite <- Hconcat. apply in_concat. now exists b.
Qed.

Lemma Eff_sends_its_pages env name pages session w :
  sends_only (fun p => In p pages)
             (events (Eff.importPagesToProject env name pages session w)).
Proof.
  unfold sends_only.
  destruct pages as [|p pages]; [constructor|].
  destruct (splitBatches_BATCH_SIZE (p :: pages)) as (batches & Hsplit & Hconcat & _).
  assert (Hwithin : forall calls,
             (forall b, In b calls -> In b batches) ->
             Forall (Forall (fun q => In q (p :: pages))) calls).
  { intros calls Hcalls. apply Forall_forall. intros b Hb.
    apply Forall_forall. intros q Hq.
    rewrite <- Hconcat. apply in_concat. exists b. split; [now apply Hcalls | exact Hq]. }
  destruct (first_failure (remote_answer env) (imports w) (List.length batches))
    as [Hok | (j & Hj & Hbefore & Hbad)].
  - destruct (Eff_importPagesToProject_ok env name (p :: pages) session w batches)
      as (evs & Hrun & Hcalls & _); [discriminate | exact Hsplit | exact Hok|].
    rewrite Hrun. cbn [events snd]. rewrite Hcalls. now apply Hwithin.
  - destruct (Eff_importPagesToProject_fail_fast env name (p :: pages) session w
                batches j Hsplit Hj Hbefore Hbad)
      as (message & evs & tail & Hrun & Hcalls & Htail & _).
    rewrite Hrun. cbn [events snd]. rewrite Hcalls.
    apply Hwithin. intros b Hb. apply in_app_or in Hb as [Hb|Hb].
    + eapply In_firstn. exact Hb.
    + destruct Htail as [-> | ->]; [destruct Hb|].
      apply In_firstn in Hb. eapply In_skipn. exact Hb.
Qed.

Section SyncSends.
Variable getConfig : M Config.
Variable exportPages : Config -> M (list Page).
Variable getLast : M number.
Variable save : number -> M unit.
Variable importTo : Config -> list Page -> M unit.

Hypothesis getConfig_frame : Frame getConfig.
Hypothesis exportPages_frame : forall config, Frame (exportPages config).
Hypothesis getConfig_silent : Silent getConfig.
Hypothesis exportPages_silent : forall config, Silent (exportPages config).
Hypothesis getLast_silent : Silent getLast.
Hypothesis save_silent : forall time, Silent (save time).
Hypothesis getLast_read : CheckpointRead getLast.
Hypothesis importTo_sends : forall config pages w,
    sends_only (fun p => In p pages) (events (importTo config pages w)).

(** The import calls of a run carry pages of its delta only. *)
Lemma sync_sends_fresh_pages w :
  sends_only (fun p => ~ has_marker p /\ gt (updated p) (watermark w) = true)
             (events (sync getConfig exportPages getLast save importTo w)).
Proof.
  unfold sync.
  destruct (bind_cases getConfig
              (fun config => pages <- exportPages config ;;
                             lastImportTime <- getLast ;;
                             sync_tail save importTo config pages lastImportTime) w)
    as [(e & wa & eva & Hc & Hrun) | (config & wa & eva & Hc & Hrun)];
    rewrite Hrun; clear Hrun; cbn [outcome world events fst snd];
    pose proof (getConfig_silent w) as Hsa; rewrite Hc in Hsa; cbn [events snd] in Hsa;
    destruct (frame_at _ _ _ _ _ getConfig_frame Hc) as (Hfa & _ & _).
  { now apply sends_only_silent. }
  apply sends_only_app; [now apply sends_only_silent|].
  destruct (bind_cases (exportPages config)
              (fun pages => lastImportTime <- getLast ;;
                            sync_tail save importTo config pages lastImportTime) wa)
    as [(e & wb & evb & Hx & Hrun) | (pages & wb & evb & Hx & Hrun)];
    rewrite Hrun; clear Hrun; cbn [outcome world events fst snd];
    pose proof (exportPages_silent config wa) as Hsb; rewrite Hx in Hsb;
    cbn [events snd] in Hsb;
    destruct (frame_at _ _ _ _ _ (exportPages_frame config) Hx) as (Hfb & _ & _).
  { now apply sends_only_silent. }
  apply sends_only_app; [now apply sends_only_silent|].
  assert (Hfile : file wb = file w) by congruence.
  destruct (bind_cases getLast
              (fun lastImportTime =>
                 sync_tail save importTo config pages lastImportTime) wb)
    as [(e & wc & evc & Hr & Hrun) | (t & wc & evc & Hr & Hrun)];
    rewrite Hrun; clear Hrun; cbn [outcome world events fst snd];
    pose proof (getLast_silent wb) as Hsc; rewrite Hr in Hsc; cbn [events snd] in Hsc.
  { now apply sends_only_silent. }
  apply sends_only_app; [now apply sends_only_silent|].
  assert (Ht : t = watermark w).
  { pose proof (getLast_read wb) as Hread. unfold watermark.
    rewrite Hfile in Hread. destruct (file w) as [content|].
    - rewrite Hr in Hread. now injection Hread.
    - cbv zeta in Hread. destruct (writable wb).
      + rewrite Hr in Hread. now injection Hread.
      + destruct Hread as [e Hread]. rewrite Hr in Hread. discriminate. }
  subst t. rewrite sync_tail_run. cbv zeta.
  destruct (selectChanges (filterPrivateIconPages pages) (watermark w))
    as [|p rest] eqn:Enew; [now apply sends_only_silent|].
  pose proof (importTo_sends config (p :: rest) wc) as Himp.
  apply (sends_only_weaken _
           (fun q => ~ has_marker q /\ gt (updated q) (watermark w) = true)) in Himp.
  2:{ intros q Hq. rewrite <- Enew in Hq. now apply selected_page_is_fresh in Hq. }
  destruct (importTo config (p :: rest) wc) as [[[e|[]] wd] evd];
    cbn [outcome world events fst snd] in *.
  - apply sends_only_app; [now apply sends_only_silent | exact Himp].
  - apply sends_only_app; [now apply sends_only_silent|].
    apply sends_only_app; [exact Himp|].
    apply sends_only_silent. apply save_silent.
Qed.
End SyncSends.

(** X6: whatever the environment answers and whatever the checkpoint
    file holds, no version ever hands to the import endpoint a page that
    carries the private marker; the checkpointed versions never hand over
    a page whose [updated] is not strictly greater than the checkpoint
    value read at the start of the run. *)
Theorem private_and_old_pages_are_never_sent (env : Env) (w : World) :
  let fresh p :=
    ~ has_marker p /\ exists c, watermark w = Num c /\ c < updated p in
  sends_only fresh (events (Plain.main env w))
  /\ sends_only fresh (events (Batched.main env w))
  /\ sends_only fresh (events (Eff.main env w))
  /\ sends_only (fun p => ~ has_marker p) (events (Full.main env w)).
Proof.
  intros fresh.
  assert (Hfresh : forall p,
             ~ has_marker p /\ gt (updated p) (watermark w) = true -> fresh p).
  { intros p [Hm Hgt]. split; [exact Hm|].
    pose proof (watermark_not_NegInfinity w) as Hinf.
    destruct (watermark w) as [c| |]; cbn in Hgt; try discriminate; [|congruence].
    exists c. split; [reflexivity | now apply Z.ltb_lt]. }
  split; [|split; [|split]].
  - unfold Plain.main. apply sends_only_top_level.
    apply (sends_only_weaken _ _ _ Hfresh).
    rewrite Plain_main_try_sync. apply sync_sends_fresh_pages.
    + apply Frame_getConfig.
    + apply Frame_exportPagesFromProject.
    + apply Silent_getConfig.
    + apply Silent_exportPagesFromProject.
    + apply Silent_getLastImportTime.
    + apply Silent_saveLastImportTime.
    + apply getLastImportTime_read.
    + apply Plain_sends_its_pages.
  - unfold Batched.main. apply sends_only_top_level.
    apply (sends_only_weaken _ _ _ Hfresh).
    rewrite Batched_main_try_sync. apply sync_sends_fresh_pages.
    + apply Frame_getConfig.
    + apply Frame_exportPagesFromProject.
    + apply Silent_getConfig.
    + apply Silent_exportPagesFromProject.
    + apply Silent_getLastImportTime.
    + apply Silent_saveLastImportTime.
    + apply getLastImportTime_read.
    + apply Batched_sends_its_pages.
  - unfold Eff.main. apply sends_only_top_level.
    apply (sends_only_weaken _ _ _ Hfresh).
    rewrite Eff_mainEffect_sync. apply sync_sends_fresh_pages.
    + apply Frame_getConfigEffect.
    + intros config. apply Frame_Eff_exportPagesFromProject.
    + apply Silent_getConfigEffect.
    + intros config. apply Silent_Eff_exportPagesFromProject.
    + apply Silent_getLastImportTimeEffect.
    + apply Silent_saveLastImportTimeEffect.
    + apply getLastImportTimeEffect_read.
    + intros config pages w1. apply Eff_sends_its_pages.
  - unfold Full.main. apply sends_only_top_level. unfold Full.main_try.
    destruct (bind_cases (getConfig env)
                (fun config => pages <- exportPagesFromProject env config ;;
                               Full.importPagesToProject
                                 env config (filterPrivateIconPages pages)) w)
      as [(e & wa & eva & Hc & Hrun) | (config & wa & eva & Hc & Hrun)];
      rewrite Hrun; clear Hrun; cbn [outcome world events fst snd];
      pose proof (Silent_getConfig env w) as Hsa; rewrite Hc in Hsa;
      cbn [events snd] in Hsa.
    { now apply sends_only_silent. }
    apply sends_only_app; [now apply sends_only_silent|].
    destruct (bind_cases (exportPagesFromProject env config)
                (fun pages => Full.importPagesToProject
                                env config (filterPrivateIconPages pages)) wa)
      as [(e & wb & evb & Hx & Hrun) | (pages & wb & evb & Hx & Hrun)];
      rewrite Hrun; clear Hrun; cbn [outcome world events fst snd];
      pose proof (Silent_exportPagesFromProject env config wa) as Hsb;
      rewrite Hx in Hsb; cbn [events snd] in Hsb.
    { now apply sends_only_silent. }
    apply sends_only_app; [now apply sends_only_silent|].
    apply (sends_only_weaken (fun p => In p (filterPrivateIconPages pages))).
    + intros p Hp. now apply filterPrivateIconPages_In in Hp.
    + apply (Plain_sends_its_pages env config (filterPrivateIconPages pages) wb).
Qed.

(** ** Runs that reach the import *)

Section SyncOutcomes.
Variable getConfig : M Config.
Variable exportPages : Config -> M (list Page).
Variable getLast : M number.
Variable save : number -> M unit.
Variable importTo : Config -> list Page -> M unit.

Hypothesis getLast_read : CheckpointRead getLast.
Hypothesis save_write : CheckpointWrite save.

Variable w : World.
Variable config : Config.
Variable pages : list Page.
Variable evx : list Event.

Hypothesis config_ok : getConfig w = (inr config, w, []).
Hypothesis export_ok : exportPages config w = (inr pages, w, evx).
Hypothesis read_ok : store_usable w.
Hypothesis delta_nonempty : delta pages w <> [].

Let run := sync getConfig exportPages getLast save importTo w.
Let before := (evx ++ read_events w ++ found_events (delta pages w))%list.

(** The import fails: the run fails with the same error, right there. *)
Lemma sync_import_failed e w' evs :
  importTo config (delta pages w) (after_read w) = (inl e, w', evs) ->
  run = (inl e, w', (before ++ evs)%list).
Proof.
  intros Himp. unfold run, before.
  rewrite (sync_ok _ _ _ _ _ getLast_read w config pages evx config_ok export_ok read_ok).
  rewrite (sync_tail_import_failed _ _ _ _ _ _ _ _ _ delta_nonempty Himp).
  cbn [outcome world events fst snd]. now rewrite <- !app_assoc.
Qed.


(** The import succeeds and the checkpoint cannot be written. *)
Lemma sync_imported_not_written w' evs :
  importTo config (delta pages w) (after_read w) = (inr tt, w', evs) ->
  writable w' = false ->
  exists e,
    run = (inl e, w',
           (before ++ evs
            ++ [EvWriteFailed LAST_IMPORT_FILE
                  (toString (Math_max (map updated (delta pages w))))])%list)
    /\ save (Math_max (map updated (delta pages w))) w'
       = (inl e, w',
          [EvWriteFailed LAST_IMPORT_FILE
             (toString (Math_max (map updated (delta pages w))))]).
Proof.
  intros Himp Hwritable. unfold run, before.
  rewrite (sync_ok _ _ _ _ _ getLast_read w config pages evx config_ok export_ok read_ok).
  rewrite (sync_tail_import_ok _ _ _ _ _ _ _ _ delta_nonempty Himp).
  pose proof (save_write (Math_max (map updated (delta pages w))) w') as Hs.
  rewrite Hwritable in Hs. destruct Hs as [e Hs]. exists e.
  unfold delta in *. rewrite Hs. cbn [outcome world events fst snd].
  split; [now rewrite <- !app_assoc | reflexivity].
Qed.
End SyncOutcomes.

(** The single import call of the plain version. *)
Lemma Plain_import_ok env config pages w value :
  pages <> [] ->
  import_answer env (imports w) = ImportOk value ->
  Plain.importPagesToProject env config pages w
  = (inr tt, mkWorld (file w) (writable w) (S (imports w)),
     [EvLog ("Importing " ++ nat_toString (List.length pages) ++ " pages to "
             ++ dquote ++ "/" ++ importingProjectName config ++ dquote ++ "...");
      EvImport (importingProjectName config) (sid config) pages;
      EvLogValue value]).
Proof.
  intros Hne Hans. destruct pages as [|p pages]; [congruence|].
  unfold Plain.importPagesToProject, bind, console_log, emit, deps_importPages.
  cbn [List.length Nat.eqb]. now rewrite Hans.
Qed.

Lemma Plain_import_failed env config pages w name message :
  pages <> [] ->
  import_answer env (imports w) = ImportFailed name message ->
  Plain.importPagesToProject env config pages w
  = (inl (JsError (mkError (name ++ " when importing pages") message)),
     mkWorld (file w) (writable w) (S (imports w)),
     [EvLog ("Importing " ++ nat_toString (List.length pages) ++ " pages to "
             ++ dquote ++ "/" ++ importingProjectName config ++ dquote ++ "...");
      EvImport (importingProjectName config) (sid config) pages]).
Proof.
  intros Hne Hans. destruct pages as [|p pages]; [congruence|].
  unfold Plain.importPagesToProject, bind, console_log, emit, deps_importPages, throw.
  cbn [List.length Nat.eqb]. now rewrite Hans.
Qed.


Lemma watermark_after_read w : watermark (after_read w) = watermark w.
Proof.
  unfold watermark, after_read. destruct (file w) as [content|] eqn:E; cbn.
  - now rewrite E.
  - apply parseInt_toString.
Qed.

Lemma delta_same_file pages w w' : file w' = file w -> delta pages w' = delta pages w.
Proof. intros H. unfold delta, watermark. now rewrite H. Qed.

Lemma delta_after_read pages w : delta pages (after_read w) = delta pages w.
Proof. unfold delta. now rewrite watermark_after_read. Qed.


Lemma Plain_main_try_ok env config pages w :
  configured env config ->
  export_answer env = ExportOk pages ->
  getConfig env w = (inr config, w, [])
  /\ exportPagesFromProject env config w
     = (inr pages, w, export_events (exportingProjectName config)).
Proof.
  intros Hcfg Hexp. split; [now apply getConfig_ok | now apply exportPagesFromProject_ok].
Qed.

Lemma Eff_mainEffect_ok env config pages w :
  configured env config ->
  export_answer env = ExportOk pages ->
  Eff.getConfigEffect env w = (inr config, w, [])
  /\ (fun config => Eff.exportPagesFromProject env (exportingProjectName config)
                                              (sid config)) config w
     = (inr pages, w, export_events (exportingProjectName config)).
Proof.
  intros Hcfg Hexp.
  split; [now apply getConfigEffect_ok | now apply Eff_exportPagesFromProject_ok].
Qed.

Lemma Eff_import_all_ok env config pages w :
  delta pages w <> [] ->
  (forall k, remote_answer env k = HttpOk) ->
  exists batches evs,
    splitBatches (delta pages w) BATCH_SIZE = Some batches
    /\ Eff.importPagesToProject env (importingProjectName config) (delta pages w)
         (sid config) (after_read w)
       = (inr tt,
          mkWorld (file (after_read w)) (writable w) (imports w + List.length batches),
          evs)
    /\ import_calls evs = batches
    /\ List.concat batches = delta pages w.
Proof.
  intros Hne Hok.
  destruct (splitBatches_BATCH_SIZE (delta pages w)) as (batches & Hsplit & Hconcat & _).
  destruct (Eff_importPagesToProject_ok env (importingProjectName config)
              (delta pages w) (sid config) (after_read w) batches Hne Hsplit)
    as (evs & Hrun & Hcalls & _); [intros k _; apply Hok|].
  rewrite after_read_imports, after_read_writable in Hrun.
  exists batches, evs. repeat split; assumption.
Qed.



Lemma errors_of_app (e1 e2 : list Event) :
  errors_of (e1 ++ e2) = (errors_of e1 ++ errors_of e2)%list.
Proof.
  induction e1 as [|e e1 IH]; cbn; [reflexivity|].
  destruct e; cbn; now rewrite IH.
Qed.



(** X9: a run of the plain or of the Effect version whose import fails
    can simply be run again.  It exits with status 1 and leaves in the
    checkpoint file the value it read, so the delta of the next run over
    the same export is the delta of the failed run.  In the Effect version
    at most the batches up to the first failed one were sent. *)
Theorem failed_import_leaves_the_delta (env : Env) (config : Config)
        (pages : list Page) (w : World) (name message : string)
        (batches : list (list Page)) (k : nat) :
  configured env config ->
  export_answer env = ExportOk pages ->
  store_usable w ->
  delta pages w <> [] ->
  import_answer env (imports w) = ImportFailed name message ->
  splitBatches (delta pages w) BATCH_SIZE = Some batches ->
  (k < List.length batches)%nat ->
  remote_answer env (imports w + k) <> HttpOk ->
  let P := Plain.main env w in
  let E := Eff.main env w in
  outcome P = Exited 1
  /\ errors_of (events P)
     = [JsError (mkError (name ++ " when importing pages") message)]
  /\ file (world P) = file (after_read w)
  /\ delta pages (world P) = delta pages w
  /\ outcome E = Exited 1
  /\ file (world E) = file (after_read w)
  /\ delta pages (world E) = delta pages w
  /\ (List.length (import_calls (events E)) <= S k)%nat
  /\ writes_of (events E) = writes_of (read_events w).
Proof.
  intros Hcfg Hexp Hus Hne Hplain Hsplit Hk Hbad P E.
  destruct (Plain_main_try_ok env config pages w Hcfg Hexp) as [Hc Hx].
  assert (Hsame : forall w', file w' = file (after_read w) ->
                             delta pages w' = delta pages w).
  { intros w' Hf. rewrite (delta_same_file pages (after_read w) w' Hf).
    apply delta_after_read. }
  (* the plain version *)
  assert (HP : P = (Exited 1,
                    mkWorld (file (after_read w)) (writable (after_read w))
                            (S (imports (after_read w))),
                    ((export_events (exportingProjectName config) ++ read_events w
                      ++ found_events (delta pages w))
                     ++ [EvLog ("Importing "
                                ++ nat_toString (List.length (delta pages w))
                                ++ " pages to " ++ dquote ++ "/"
                                ++ importingProjectName config ++ dquote ++ "...");
                         EvImport (importingProjectName config) (sid config)
                                  (delta pages w)])
                    ++ [EvError (JsError (mkError (name ++ " when importing pages")
                                                  message));
                        EvExit 1])%list).
  { subst P. unfold Plain.main. apply top_level_failed.
    rewrite Plain_main_try_sync.
    apply (sync_import_failed _ _ _ _ _ getLastImportTime_read w config pages _
             Hc Hx Hus Hne).
    apply Plain_import_failed; [exact Hne | now rewrite after_read_imports]. }
  (* the Effect version *)
  destruct (first_failure (remote_answer env) (imports w) (S k))
    as [Hok | (j & Hj & Hbefore & Hbadj)].
  { exfalso. apply Hbad. apply Hok. lia. }
  destruct (Eff_main_fail_fast env config pages w batches j Hcfg Hexp Hus Hsplit
              ltac:(lia) Hbefore Hbadj)
    as (msg & tail & evs & HE & Hcalls & Htail & Hwrites).
  fold E in HE. rewrite HP, HE. cbn [outcome world events fst snd file].
  split; [reflexivity|]. split.
  { rewrite !errors_of_app. unfold export_events, read_events, found_events.
    destruct (file w); reflexivity. }
  split; [reflexivity|]. split; [now apply Hsame|].
  split; [reflexivity|]. split; [reflexivity|]. split; [now apply Hsame|].
  split.
  - rewrite import_calls_app, Hcalls. cbn [import_calls]. rewrite app_nil_r.
    rewrite length_app, length_firstn.
    destruct Htail as [-> | ->]; cbn [List.length].
    + lia.
    + rewrite length_firstn. lia.
  - rewrite writes_of_app, Hwrites. cbn [writes_of]. apply app_nil_r.
Qed.

Lemma failed_import_leaves_the_delta_witness :
  let env := failing_env [sample_page] in
  outcome (Plain.main env stored_world) = Exited 1
  /\ outcome (Eff.main env stored_world) = Exited 1
  /\ delta [sample_page] (world (Plain.main env stored_world)) = [sample_page]
  /\ delta [sample_page] (world (Eff.main env stored_world)) = [sample_page].
Proof.
  destruct (failed_import_leaves_the_delta
              (failing_env [sample_page]) (mkConfig "name" "name" "name")
              [sample_page] stored_world "ImportError" "rejected"
              [[sample_page]] 0)
    as (HoP & _ & _ & HdP & HoE & _ & HdE & _).
  - repeat split.
  - reflexivity.
  - left. discriminate.
  - discriminate.
  - reflexivity.
  - reflexivity.
  - cbn. lia.
  - discriminate.
  - cbv zeta. split; [exact HoP|]. split; [exact HoE|].
    split; [exact HdP | exact HdE].
Defined.

(** X10: when every import succeeded but the checkpoint cannot be
    written at the end, the plain and the Effect version exit with status
    1 after having sent the whole delta; the checkpoint file is unchanged,
    so the next run over the same export sends the same pages again. *)
Theorem unwritable_checkpoint_after_import (env : Env) (config : Config)
        (pages : list Page) (w : World) (content value : string) :
  configured env config ->
  export_answer env = ExportOk pages ->
  file w = Some content ->
  writable w = false ->
  delta pages w <> [] ->
  import_answer env (imports w) = ImportOk value ->
  (forall k, remote_answer env k = HttpOk) ->
  let P := Plain.main env w in
  let E := Eff.main env w in
  outcome P = Exited 1
  /\ import_calls (events P) = [delta pages w]
  /\ errors_of (events P) = [IoError LAST_IMPORT_FILE]
  /\ file (world P) = Some content
  /\ delta pages (world P) = delta pages w
  /\ outcome E = Exited 1
  /\ List.concat (import_calls (events E)) = delta pages w
  /\ file (world E) = Some content
  /\ delta pages (world E) = delta pages w.
Proof.
  intros Hcfg Hexp Hfile Hwritable Hne Hplain Heff P E.
  assert (Hus : store_usable w) by (left; congruence).
  assert (Hafter : after_read w = w) by (unfold after_read; now rewrite Hfile).
  assert (Hread : read_events w = [EvRead LAST_IMPORT_FILE])
    by (unfold read_events; now rewrite Hfile).
  destruct (Plain_main_try_ok env config pages w Hcfg Hexp) as [Hc Hx].
  destruct (Eff_mainEffect_ok env config pages w Hcfg Hexp) as [Hce Hxe].
  (* the plain version *)
  assert (HimpP : Plain.importPagesToProject env config (delta pages w) (after_read w)
                  = (inr tt, mkWorld (file w) (writable w) (S (imports w)),
                     [EvLog ("Importing "
                             ++ nat_toString (List.length (delta pages w))
                             ++ " pages to " ++ dquote ++ "/"
                             ++ importingProjectName config ++ dquote ++ "...");
                      EvImport (importingProjectName config) (sid config)
                               (delta pages w);
                      EvLogValue value])).
  { rewrite Hafter. now apply Plain_import_ok. }
  destruct (sync_imported_not_written _ _ _ _ _ getLastImportTime_read
              saveLastImportTime_write w config pages _ Hc Hx Hus Hne _ _ HimpP
              Hwritable)
    as (e & HrunP & HsaveP).
  assert (He : e = IoError LAST_IMPORT_FILE).
  { unfold saveLastImportTime, writeTextFile in HsaveP. cbn [writable] in HsaveP.
    rewrite Hwritable in HsaveP. now injection HsaveP. }
  subst e. rewrite <- Plain_main_try_sync in HrunP.
  pose proof (top_level_failed _ _ _ _ _ HrunP) as HP. fold (Plain.main env w) in HP.
  fold P in HP.
  (* the Effect version *)
  destruct (Eff_import_all_ok env config pages w Hne Heff)
    as (batches & evs & _ & HimpE & Hcalls & Hconcat).
  destruct (sync_imported_not_written
              (Eff.getConfigEffect env)
              (fun config =>
                 Eff.exportPagesFromProject env (exportingProjectName config)
                                            (sid config))
              _ _
              (fun config pages =>
                 Eff.importPagesToProject env (importingProjectName config) pages
                                          (sid config))
              (getLastImportTimeEffect_read env)
              (saveLastImportTimeEffect_write env) w config pages _ Hce Hxe Hus Hne
              _ _ HimpE Hwritable)
    as (e & HrunE & _).
  rewrite <- Eff_mainEffect_sync in HrunE.
  pose proof (top_level_failed _ _ _ _ _ HrunE) as HE. fold (Eff.main env w) in HE.
  fold E in HE.
  rewrite HP, HE. cbn [outcome world events fst snd file]. rewrite Hafter, Hfile, Hread.
  split; [reflexivity|]. split; [reflexivity|]. split; [reflexivity|].
  split; [reflexivity|].
  split; [apply delta_same_file; cbn; now rewrite Hfile|].
  split; [reflexivity|]. split.
  { rewrite !import_calls_app, Hcalls. unfold export_events, found_events.
    cbn [import_calls app]. rewrite ?app_nil_r. exact Hconcat. }
  split; [reflexivity|].
  apply delta_same_file. cbn. now rewrite Hfile.
Qed.

Lemma unwritable_checkpoint_after_import_witness :
  let env := mkEnv (fun _ => Some "name") (ExportOk [sample_page])
                   (fun _ => ImportOk "ok") (fun _ => HttpOk) "EACCES" in
  let w := mkWorld (Some "1745842021") false 0 in
  outcome (Eff.main env w) = Exited 1
  /\ List.concat (import_calls (events (Eff.main env w))) = [sample_page]
  /\ file (world (Eff.main env w)) = Some "1745842021".
Proof.
  destruct (unwritable_checkpoint_after_import
              (mkEnv (fun _ => Some "name") (ExportOk [sample_page])
                     (fun _ => ImportOk "ok") (fun _ => HttpOk) "EACCES")
              (mkConfig "name" "name" "name") [sample_page]
              (mkWorld (Some "1745842021") false 0) "1745842021" "ok")
    as (_ & _ & _ & _ & _ & Ho & Hc & Hf & _).
  - repeat split.
  - reflexivity.
  - reflexivity.
  - reflexivity.
  - discriminate.
  - reflexivity.
  - intros k. reflexivity.
  - cbv zeta. split; [exact Ho|]. split; [exact Hc | exact Hf].
Defined.




(** ** The two filters of a run *)

Lemma filter_comm {A : Type} (f g : A -> bool) (l : list A) :
  filter f (filter g l) = filter g (filter f l).
Proof.
  induction l as [|x l IH]; [reflexivity|]. cbn [filter].
  destruct (g x) eqn:Eg, (f x) eqn:Ef; cbn [filter];
    rewrite ?Eg, ?Ef, IH; reflexivity.
Qed.

Lemma filter_filter_weaker {A : Type} (f g : A -> bool) (l : list A) :
  (forall x, f x = true -> g x = true) ->
  filter f (filter g l) = filter f l.
Proof.
  intros Himp. induction l as [|x l IH]; [reflexivity|]. cbn [filter].
  destruct (g x) eqn:Eg; cbn [filter].
  - now rewrite IH.
  - destruct (f x) eqn:Ef; [|exact IH].
    apply Himp in Ef. congruence.
Qed.

(** X12: the exclusion filter and the change selection can be taken in
    either order, each of them treats an export page by page (the delta
    of two exports put end to end is the two deltas put end to end), and
    the exclusion filter applied twice is the exclusion filter. *)
Theorem filters_commute (pages more : list Page) (t : number) :
  selectChanges (filterPrivateIconPages pages) t
  = filterPrivateIconPages (selectChanges pages t)
  /\ selectChanges (filterPrivateIconPages (pages ++ more)) t
     = (selectChanges (filterPrivateIconPages pages) t
        ++ selectChanges (filterPrivateIconPages more) t)%list
  /\ filterPrivateIconPages (filterPrivateIconPages pages)
     = filterPrivateIconPages pages
  /\ (List.length (selectChanges (filterPrivateIconPages pages) t)
      <= List.length pages)%nat.
Proof.
  unfold selectChanges, filterPrivateIconPages. split; [|split; [|split]].
  - apply filter_comm.
  - now rewrite !filter_app.
  - apply filter_idempotent.
  - etransitivity; apply filter_length_le.
Qed.

(** X13: a later checkpoint only shrinks the delta.  If the watermark of
    [w'] is at least the watermark of [w], the delta of an export against
    [w'] is the delta against [w] from which the pages not newer than the
    later watermark were dropped: every page of it is in the earlier
    delta, and it is no longer. *)
Theorem delta_shrinks_as_checkpoint_advances (pages : list Page) (w w' : World)
        (c c' : Z) :
  watermark w = Num c ->
  watermark w' = Num c' ->
  c <= c' ->
  delta pages w' = selectChanges (delta pages w) (Num c')
  /\ (forall p, In p (delta pages w') -> In p (delta pages w))
  /\ (List.length (delta pages w') <= List.length (delta pages w))%nat.
Proof.
  intros Hw Hw' Hle.
  assert (E : delta pages w' = selectChanges (delta pages w) (Num c')).
  { unfold delta, selectChanges. rewrite Hw, Hw'. symmetry.
    apply filter_filter_weaker. intros p. cbn [gt].
    rewrite !Z.ltb_lt. lia. }
  split; [exact E|]. rewrite E. split.
  - intros p Hp. unfold selectChanges in Hp. now apply filter_In in Hp.
  - apply filter_length_le.
Qed.

Lemma delta_shrinks_as_checkpoint_advances_witness :
  delta [sample_page] (mkWorld (Some "1745842022") true 0)
  = selectChanges (delta [sample_page] stored_world) (Num 1745842022).
Proof.
  apply (proj1 (delta_shrinks_as_checkpoint_advances
                  [sample_page] stored_world (mkWorld (Some "1745842022") true 0)
                  1745842021 1745842022
                  ltac:(vm_compute; reflexivity) ltac:(vm_compute; reflexivity)
                  ltac:(lia))).
Defined.

(** ** Imports of at most one batch *)

Lemma splitBatches_one_batch {T : Type} (items : list T) (B : nat) :
  items <> [] -> (List.length items <= B)%nat ->
  splitBatches items B = Some [items].
Proof.
  intros Hne Hle.
  assert (Hn : (0 < List.length items)%nat)
    by (destruct items; [congruence | cbn; lia]).
  unfold splitBatches, batchCount.
  destruct B as [|B']; [lia|].
  assert (E : ((List.length items + S B' - 1) / S B' = 1)%nat).
  { symmetry. apply Nat.div_unique with (r := (List.length items - 1)%nat); lia. }
  rewrite E. cbn [seq map]. rewrite Nat.mul_0_l.
  now rewrite slice_whole by lia.
Qed.

(** X14: a delta of at most [BATCH_SIZE] pages goes out in one call
    carrying all of it, with no delay, in the batched versions as in the
    plain one; the Effect version asks for the CSRF token first and makes
    no call when that request fails. *)
Theorem small_delta_is_one_call (env : Env) (config : Config)
        (pages : list Page) (w : World) :
  pages <> [] ->
  (List.length pages <= BATCH_SIZE)%nat ->
  let post := EvImport (importingProjectName config) (sid config) pages in
  splitBatches pages BATCH_SIZE = Some [pages]
  /\ remote_events (events (Plain.importPagesToProject env config pages w)) = [post]
  /\ remote_events (events (Batched.importPagesToProject env config pages w)) = [post]
  /\ remote_events
       (events (Eff.importPagesToProject env (importingProjectName config) pages
                  (sid config) w))
     = (EvGetProfile (sid config)
          :: match remote_answer env (imports w) with
             | ProfileFailed => []
             | _ => [post]
             end)%list.
Proof.
  intros Hne Hle post.
  pose proof (splitBatches_one_batch pages BATCH_SIZE Hne Hle) as Hsplit.
  split; [exact Hsplit|].
  destruct pages as [|p pages]; [congruence|].
  split; [|split].
  - unfold Plain.importPagesToProject, bind, console_log, emit, deps_importPages, throw.
    cbn [List.length Nat.eqb].
    destruct (import_answer env (imports w)); reflexivity.
  - unfold Batched.importPagesToProject.
    cbn [List.length Nat.eqb]. rewrite Hsplit.
    cbn [Batched.reduce_from List.length].
    unfold Batched.reducer, bind, console_log, emit, deps_importPages, sleep, ret.
    destruct (import_answer env (imports w)); reflexivity.
  - unfold Eff.importPagesToProject, Eff.processBatchesEffect.
    cbn [List.length Nat.eqb]. rewrite Hsplit.
    cbn [Eff.forBatches List.length].
    unfold bind, console_log, emit, Eff.importPages, sleep, ret.
    destruct (remote_answer env (imports w)); reflexivity.
Qed.

Lemma small_delta_is_one_call_witness :
  remote_events
    (events (Batched.importPagesToProject
               (failing_env [sample_page]) (mkConfig "sid" "from" "to")
               [sample_page] stored_world))
  = [EvImport "to" "sid" [sample_page]].
Proof.
  apply (small_delta_is_one_call
           (failing_env [sample_page]) (mkConfig "sid" "from" "to")
           [sample_page] stored_world);
    [discriminate | vm_compute; lia].
Defined.

(** ** The CSRF token of the Effect version *)

Lemma token_requests_app (e1 e2 : list Event) :
  token_requests (e1 ++ e2) = (token_requests e1 ++ token_requests e2)%list.
Proof.
  induction e1 as [|e e1 IH]; cbn; [reflexivity|].
  destruct e; cbn; now rewrite IH.
Qed.

Lemma token_before_post_head e evs :
  token_before_post (e :: evs) ->
  match e with EvImport _ _ _ => False | _ => True end.
Proof. destruct e; cbn; auto. Qed.

Lemma token_before_post_app : forall e1 e2,
  token_before_post e1 -> token_before_post e2 -> token_before_post (e1 ++ e2).
Proof.
  intros e1. remember (List.length e1) as n eqn:Hn.
  revert e1 Hn. induction n as [n IH] using lt_wf_ind. intros e1 Hn e2 H1 H2.
  destruct e1 as [|e rest]; [exact H2|].
  cbn [List.length] in Hn.
  assert (Hrest : forall l, (List.length l <= List.length rest)%nat ->
                            token_before_post l -> token_before_post (l ++ e2)).
  { intros l Hl Hp. apply (IH (List.length l)); [lia | reflexivity | exact Hp | exact H2]. }
  destruct e; cbn [app token_before_post] in *;
    try (apply Hrest; [lia | exact H1]); try contradiction.
  destruct rest as [|e' rest'].
  - cbn [app]. destruct e2 as [|e'' e2']; [exact I|].
    pose proof (token_before_post_head _ _ H2) as Hh.
    destruct e''; try exact H2; contradiction.
  - destruct e'; cbn [app] in *;
      try (apply (Hrest (_ :: rest')); [cbn; lia | exact H1]).
    destruct H1 as [Hs H1]. split; [exact Hs|].
    apply Hrest; [cbn; lia | exact H1].
Qed.

Lemma Tokened_ret {A : Type} (a : A) : Tokened (ret a).
Proof. intros w. cbn. repeat split; lia. Qed.

Lemma Tokened_throw {A : Type} (e : Err) : Tokened (@throw A e).
Proof. intros w. cbn. repeat split; lia. Qed.

Lemma Tokened_console_log msg : Tokened (console_log msg).
Proof. intros w. cbn. repeat split; lia. Qed.

Lemma Tokened_sleep ms : Tokened (sleep ms).
Proof. intros w. cbn. repeat split; lia. Qed.

Lemma Tokened_emit_titles titles : Tokened (emit (EvLogTitles titles)).
Proof. intros w. cbn. repeat split; lia. Qed.

Lemma Tokened_bind {A B : Type} (m : M A) (k : A -> M B) :
  Tokened m -> (forall a, Tokened (k a)) -> Tokened (bind m k).
Proof.
  intros Hm Hk w. specialize (Hm w). unfold bind.
  destruct (m w) as [[[e|a] w1] e1]; cbn [outcome world events fst snd] in *;
    [exact Hm|].
  specialize (Hk a w1). destruct (k a w1) as [[r w2] e2];
    cbn [outcome world events fst snd] in *.
  destruct Hm as (Hp1 & Hn1 & Hc1), Hk as (Hp2 & Hn2 & Hc2).
  rewrite token_requests_app, import_calls_app, !length_app.
  split; [now apply token_before_post_app | lia].
Qed.

Lemma Tokened_catch {A : Type} (m : M A) (h : Err -> M A) :
  Tokened m -> (forall e, Tokened (h e)) -> Tokened (catch m h).
Proof.
  intros Hm Hh w. specialize (Hm w). unfold catch.
  destruct (m w) as [[[e|a] w1] e1]; cbn [outcome world events fst snd] in *;
    [|exact Hm].
  specialize (Hh e w1). destruct (h e w1) as [[r w2] e2];
    cbn [outcome world events fst snd] in *.
  destruct Hm as (Hp1 & Hn1 & Hc1), Hh as (Hp2 & Hn2 & Hc2).
  rewrite token_requests_app, import_calls_app, !length_app.
  split; [now apply token_before_post_app | lia].
Qed.

Lemma Tokened_importPages env project batch session :
  Tokened (Eff.importPages env project batch session).
Proof.
  intros w. unfold Eff.importPages.
  destruct (remote_answer env (imports w)); cbn; repeat split; lia.
Qed.

Lemma Tokened_forBatches (f : list Page -> nat -> nat -> M unit) total :
  (forall b n t, Tokened (f b n t)) ->
  forall batches i, Tokened (Eff.forBatches f batches i total).
Proof.
  intros Hf. induction batches as [|b rest IH]; intros i; cbn [Eff.forBatches].
  - apply Tokened_ret.
  - apply Tokened_bind; [apply Hf | intros _; apply IH].
Qed.

Lemma Tokened_Eff_importPagesToProject env name pages session :
  Tokened (Eff.importPagesToProject env name pages session).
Proof.
  unfold Eff.importPagesToProject.
  destruct (List.length pages =? 0)%nat; [apply Tokened_console_log|].
  apply Tokened_bind; [apply Tokened_console_log | intros _].
  apply Tokened_bind; [|intros _; apply Tokened_console_log].
  unfold Eff.processBatchesEffect.
  destruct (splitBatches pages BATCH_SIZE); [|apply Tokened_throw].
  apply Tokened_forBatches. intros b n t.
  apply Tokened_bind; [apply Tokened_console_log | intros _].
  apply Tokened_bind; [apply Tokened_importPages | intros _].
  apply Tokened_bind; [apply Tokened_console_log | intros _].
  destruct (n <? t)%nat; [apply Tokened_sleep | apply Tokened_ret].
Qed.

Lemma Tokened_readTextFile path : Tokened (readTextFile path).
Proof. intros w. unfold readTextFile. destruct (file w); cbn; repeat split; lia. Qed.

Lemma Tokened_writeTextFile path content : Tokened (writeTextFile path content).
Proof.
  intros w. unfold writeTextFile. destruct (writable w); cbn; repeat split; lia.
Qed.

Lemma Tokened_mainEffect env : Tokened (Eff.mainEffect env).
Proof.
  unfold Eff.mainEffect.
  apply Tokened_bind.
  { unfold Eff.getConfigEffect, Eff.config_string.
    repeat (apply Tokened_bind;
            [match goal with
             | |- Tokened (match ?x with _ => _ end) =>
                 destruct x; [apply Tokened_ret | apply Tokened_throw]
             end | intros ?]).
    apply Tokened_ret. }
  intros config. apply Tokened_bind.
  { unfold Eff.exportPagesFromProject.
    apply Tokened_bind; [apply Tokened_console_log | intros _].
    apply Tokened_bind; [intros w; cbn; repeat split; lia|].
    intros [pages|name message]; [apply Tokened_ret|].
    apply Tokened_bind; [intros w; cbn; repeat split; lia | intros _].
    apply Tokened_throw. }
  intros pages. cbv zeta. apply Tokened_bind.
  { unfold Eff.getLastImportTimeEffect, Eff.saveLastImportTimeEffect.
    apply Tokened_catch.
    - apply Tokened_catch; [|intros _; apply Tokened_throw].
      apply Tokened_bind; [apply Tokened_readTextFile | intros ?; apply Tokened_ret].
    - intros _. apply Tokened_bind; [|intros _; apply Tokened_ret].
      apply Tokened_catch; [apply Tokened_writeTextFile | intros _; apply Tokened_throw]. }
  intros lastImportTime.
  destruct (List.length _ =? 0)%nat; [apply Tokened_console_log|].
  apply Tokened_bind; [apply Tokened_console_log | intros _].
  apply Tokened_bind; [apply Tokened_emit_titles | intros _].
  apply Tokened_bind; [apply Tokened_Eff_importPagesToProject | intros _].
  unfold Eff.saveLastImportTimeEffect.
  apply Tokened_catch; [apply Tokened_writeTextFile | intros _; apply Tokened_throw].
Qed.

(** X15: in the Effect version every POST to the import endpoint comes
    right after a CSRF token request made with the same session, in every
    run; a token is requested anew for every batch attempted (as many
    requests as import attempts), and no POST is made without one. *)
Theorem token_requested_before_every_post (env : Env) (w : World) :
  let R := Eff.main env w in
  token_before_post (events R)
  /\ imports (world R) = (imports w + List.length (token_requests (events R)))%nat
  /\ (List.length (import_calls (events R))
      <= List.length (token_requests (events R)))%nat.
Proof.
  cbv zeta. unfold Eff.main, top_level.
  pose proof (Tokened_mainEffect env w) as (Hp & Hn & Hc).
  destruct (Eff.mainEffect env w) as [[[e|[]] w'] evs];
    cbn [outcome world events fst snd] in *; [|auto].
  rewrite token_requests_app, import_calls_app, !length_app. cbn.
  rewrite !Nat.add_0_r.
  split; [|split; assumption].
  apply token_before_post_app; [exact Hp | cbn; exact I].
Qed.

(** ** The failing batch of the Effect version *)

Section EffTraces.
Variable env : Env.
Variable project session : string.

Let processFunc (batch : list Page) (batchNumber totalBatches : nat) : M unit :=
  (console_log ("Importing batch " ++ nat_toString batchNumber ++ "/"
                ++ nat_toString totalBatches ++ " ("
                ++ nat_toString (List.length batch) ++ " pages)...") ;;
   Eff.importPages env project batch session ;;
   console_log (check_mark ++ " Batch " ++ nat_toString batchNumber ++ "/"
                ++ nat_toString totalBatches ++ " completed successfully.") ;;
   (if (batchNumber <? totalBatches)%nat then sleep 1000 else ret tt))%run.

Lemma processFunc_failed_trace batch i totalBatches w :
  remote_answer env (imports w) <> HttpOk ->
  processFunc batch (i + 1) totalBatches w
  = (inl (ImportError (import_failure_message (remote_answer env (imports w)))
                      project),
     mkWorld (file w) (writable w) (S (imports w)),
     batch_announcement (i + 1) totalBatches (List.length batch)
       :: failed_attempt (remote_answer env (imports w)) project session batch).
Proof.
  intros Hbad.
  unfold processFunc, bind, console_log, emit, Eff.importPages, sleep, ret,
    batch_announcement, failed_attempt, import_failure_message.
  cbn [imports file writable].
  destruct (remote_answer env (imports w)); try congruence; reflexivity.
Qed.

Lemma forBatches_failure_trace totalBatches : forall batches i w j,
  (j < List.length batches)%nat ->
  (forall k, (imports w <= k < imports w + j)%nat ->
             remote_answer env k = HttpOk) ->
  remote_answer env (imports w + j) <> HttpOk ->
  exists before,
    Eff.forBatches processFunc batches i totalBatches w
    = (inl (ImportError
              (import_failure_message (remote_answer env (imports w + j))) project),
       mkWorld (file w) (writable w) (imports w + S j),
       (before
        ++ batch_announcement (i + j + 1) totalBatches
             (List.length (nth j batches []))
        :: failed_attempt (remote_answer env (imports w + j)) project session
             (nth j batches []))%list)
    /\ import_calls before = firstn j batches.
Proof.
  induction batches as [|batch rest IH]; intros i w j Hj Hok Hbad;
    cbn [List.length] in Hj; [lia|].
  cbn [Eff.forBatches]. destruct j as [|j].
  - rewrite !Nat.add_0_r in *.
    rewrite (bind_err _ _ _ _ _ _ (processFunc_failed_trace batch i totalBatches w Hbad)).
    exists []. cbn [app nth]. split; [|reflexivity].
    now replace (imports w + 1)%nat with (S (imports w)) by lia.
  - destruct (processFunc_ok env project session batch i totalBatches w
                (Hok (imports w) ltac:(lia)))
      as (evs1 & Hstep & Hcalls1 & _).
    rewrite (bind_ok _ _ _ _ _ _ Hstep).
    destruct (IH (S i) (mkWorld (file w) (writable w) (S (imports w))) j)
      as (before & Hrun & Hcalls).
    { lia. }
    { intros k Hk. apply Hok. cbn [imports] in Hk. lia. }
    { cbn [imports]. now replace (S (imports w) + j)%nat
        with (imports w + S j)%nat by lia. }
    rewrite Hrun. cbn [outcome world events fst snd file writable imports nth].
    exists (evs1 ++ before)%list. split.
    + replace (S (imports w) + S j)%nat with (imports w + S (S j))%nat by lia.
      replace (S (imports w) + j)%nat with (imports w + S j)%nat by lia.
      replace (S i + j + 1)%nat with (i + S j + 1)%nat by lia.
      now rewrite <- app_assoc.
    + rewrite import_calls_app, Hcalls1, Hcalls. reflexivity.
Qed.
End EffTraces.

(** X16: what the Effect version reports when a batch fails.  If the
    batch of index [j] is the first whose import fails, the run exits
    with status 1 on an [ImportError] for the destination project whose
    message tells what went wrong (the token request, the fetch, or the
    HTTP status with the response body); the last line logged before the
    error announces that batch as number [j+1] of the total; the batches
    before it have been posted and, when the token request is what
    failed, the failing batch itself was never posted. *)
Theorem Eff_failed_batch_is_reported (env : Env) (config : Config)
        (pages : list Page) (w : World) (batches : list (list Page)) (j : nat) :
  configured env config ->
  export_answer env = ExportOk pages ->
  store_usable w ->
  splitBatches (delta pages w) BATCH_SIZE = Some batches ->
  (j < List.length batches)%nat ->
  (forall k, (imports w <= k < imports w + j)%nat -> remote_answer env k = HttpOk) ->
  remote_answer env (imports w + j) <> HttpOk ->
  let answer := remote_answer env (imports w + j) in
  let failure :=
    ImportError (import_failure_message answer) (importingProjectName config) in
  exists before,
    Eff.main env w
    = (Exited 1,
       mkWorld (file (after_read w)) (writable w) (imports w + S j),
       (before
        ++ batch_announcement (j + 1) (List.length batches)
             (List.length (nth j batches []))
        :: failed_attempt answer (importingProjectName config) (sid config)
             (nth j batches [])
        ++ [EvError failure; EvExit 1])%list)
    /\ import_calls before = firstn j batches.
Proof.
  intros Hcfg Hexp Hus Hsplit Hj Hok Hbad answer failure.
  assert (Hne : delta pages w <> []).
  { intros E. rewrite E in Hsplit. cbv in Hsplit. injection Hsplit as <-.
    cbn in Hj. lia. }
  destruct (forBatches_failure_trace env (importingProjectName config) (sid config)
              (List.length batches) batches 0 (after_read w) j Hj)
    as (before & Hrun & Hcalls).
  { intros k Hk. apply Hok. rewrite after_read_imports in Hk. lia. }
  { now rewrite after_read_imports. }
  rewrite after_read_imports, after_read_writable in Hrun. cbn [Nat.add] in Hrun.
  fold answer in Hrun. fold failure in Hrun.
  assert (Himp : Eff.importPagesToProject env (importingProjectName config)
                   (delta pages w) (sid config) (after_read w)
                 = (inl failure,
                    mkWorld (file (after_read w)) (writable w) (imports w + S j),
                    EvLog ("Importing " ++ nat_toString (List.length (delta pages w))
                           ++ " pages to " ++ dquote ++ "/"
                           ++ importingProjectName config ++ dquote
                           ++ " in batches of " ++ nat_toString BATCH_SIZE ++ "...")
                      :: (before
                          ++ batch_announcement (j + 1) (List.length batches)
                               (List.length (nth j batches []))
                          :: failed_attempt answer (importingProjectName config)
                               (sid config) (nth j batches []))%list)).
  { unfold Eff.importPagesToProject, Eff.processBatchesEffect.
    destruct (delta pages w) as [|p rest] eqn:Ed; [congruence|].
    cbn [List.length Nat.eqb]. rewrite Hsplit.
    unfold console_log at 1. rewrite bind_emit.
    now rewrite (bind_err _ _ _ _ _ _ Hrun). }
  destruct (Eff_mainEffect_ok env config pages w Hcfg Hexp) as [Hc Hx].
  assert (Hmain :
            Eff.main env w
            = (Exited 1,
               mkWorld (file (after_read w)) (writable w) (imports w + S j),
               (((export_events (exportingProjectName config) ++ read_events w
                  ++ found_events (delta pages w))
                 ++ EvLog ("Importing "
                           ++ nat_toString (List.length (delta pages w))
                           ++ " pages to " ++ dquote ++ "/"
                           ++ importingProjectName config ++ dquote
                           ++ " in batches of " ++ nat_toString BATCH_SIZE ++ "...")
                 :: (before
                     ++ batch_announcement (j + 1) (List.length batches)
                          (List.length (nth j batches []))
                     :: failed_attempt answer (importingProjectName config)
                          (sid config) (nth j batches [])))
                ++ [EvError failure; EvExit 1])%list)).
  { unfold Eff.main. apply top_level_failed. rewrite Eff_mainEffect_sync.
    apply (sync_import_failed _ _ _ _ _ (getLastImportTimeEffect_read env)
             w config pages _ Hc Hx Hus Hne).
    exact Himp. }
  exists ((export_events (exportingProjectName config) ++ read_events w
           ++ found_events (delta pages w))
          ++ EvLog ("Importing "
                    ++ nat_toString (List.length (delta pages w))
                    ++ " pages to " ++ dquote ++ "/"
                    ++ importingProjectName config ++ dquote
                    ++ " in batches of " ++ nat_toString BATCH_SIZE ++ "...")
          :: before)%list.
  split.
  - rewrite Hmain. f_equal.
    rewrite <- !app_assoc. rewrite <- !app_comm_cons. rewrite <- !app_assoc.
    reflexivity.
  - rewrite !import_calls_app, import_calls_export_events, import_calls_read_events.
    unfold found_events. cbn [import_calls app]. exact Hcalls.
Qed.

Lemma Eff_failed_batch_is_reported_witness :
  outcome (Eff.main (failing_env [sample_page]) stored_world) = Exited 1
  /\ imports (world (Eff.main (failing_env [sample_page]) stored_world)) = 1%nat.
Proof.
  destruct (Eff_failed_batch_is_reported
              (failing_env [sample_page]) (mkConfig "name" "name" "name")
              [sample_page] stored_world [[sample_page]] 0)
    as (before & Hmain & _).
  - repeat split.
  - reflexivity.
  - left. discriminate.
  - reflexivity.
  - cbn. lia.
  - intros k Hk. cbn in Hk. lia.
  - discriminate.
  - rewrite Hmain. split; reflexivity.
Defined.

(** ** The checkpoint write comes last *)



Section SyncLast.
Variable getConfig : M Config.
Variable exportPages : Config -> M (list Page).
Variable getLast : M number.
Variable save : number -> M unit.
Variable importTo : Config -> list Page -> M unit.

Hypothesis getConfig_frame : Frame getConfig.
Hypothesis exportPages_frame : forall config, Frame (exportPages config).
Hypothesis importTo_frame : forall config pages, Frame (importTo config pages).
Hypothesis getLast_read : CheckpointRead getLast.
Hypothesis save_write : CheckpointWrite save.


End SyncLast.



(** ** The version without a checkpoint *)

Lemma Full_main_try_run env config pages w :
  configured env config ->
  export_answer env = ExportOk pages ->
  Full.main_try env w
  = (outcome (Plain.importPagesToProject env config (filterPrivateIconPages pages) w),
     world (Plain.importPagesToProject env config (filterPrivateIconPages pages) w),
     (export_events (exportingProjectName config)
      ++ events (Plain.importPagesToProject env config
                   (filterPrivateIconPages pages) w))%list).
Proof.
  intros Hcfg Hexp. unfold Full.main_try.
  rewrite (bind_ok _ _ _ _ _ _ (getConfig_ok env config w Hcfg)).
  rewrite (bind_ok _ _ _ _ _ _ (exportPagesFromProject_ok env config pages w Hexp)).
  reflexivity.
Qed.

(** X18: the second program of unnamed/part_000 keeps no checkpoint.  A
    configured run whose export succeeds never touches the checkpoint
    file and sends, in one call, every exported page that does not carry
    the private marker, whatever was sent before; it completes when the
    call succeeds or when no page is left, and exits with status 1 on the
    renamed error of the import call otherwise. *)
Theorem Full_main_sends_everything (env : Env) (config : Config)
        (pages : list Page) (w : World) :
  configured env config ->
  export_answer env = ExportOk pages ->
  let sent := filterPrivateIconPages pages in
  let R := Full.main env w in
  file (world R) = file w
  /\ file_accesses (events R) = []
  /\ import_calls (events R) = match sent with [] => [] | _ :: _ => [sent] end
  /\ (sent = [] -> R = (Completed, w,
                        (export_events (exportingProjectName config)
                         ++ [EvLog "No page to be imported found."])%list))
  /\ (forall value,
        sent <> [] -> import_answer env (imports w) = ImportOk value ->
        outcome R = Completed /\ errors_of (events R) = [])
  /\ (forall name message,
        sent <> [] -> import_answer env (imports w) = ImportFailed name message ->
        outcome R = Exited 1
        /\ errors_of (events R)
           = [JsError (mkError (name ++ " when importing pages") message)]).
Proof.
  intros Hcfg Hexp sent R. subst R. unfold Full.main, top_level.
  rewrite (Full_main_try_run env config pages w Hcfg Hexp). fold sent.
  destruct sent as [|p rest] eqn:Esent.
  - cbn. repeat split; try reflexivity; intros; congruence.
  - destruct (import_answer env (imports w)) as [value|name message] eqn:Eans.
    + rewrite (Plain_import_ok env config (p :: rest) w value ltac:(discriminate) Eans).
      cbn [outcome world events fst snd file].
      repeat split; try reflexivity; try discriminate; intros; congruence.
    + rewrite (Plain_import_failed env config (p :: rest) w name message
                 ltac:(discriminate) Eans).
      cbn [outcome world events fst snd file].
      split; [reflexivity|]. split; [reflexivity|]. split; [reflexivity|].
      split; [discriminate|]. split; [intros value _ H; discriminate H|].
      intros name' message' _ H. injection H as <- <-. split; reflexivity.
Qed.

Lemma Full_main_sends_everything_witness :
  import_calls
    (events (Full.main (failing_env [sample_page])
                       (mkWorld (Some "9999999999") true 0)))
  = [[sample_page]].
Proof.
  destruct (Full_main_sends_everything
              (failing_env [sample_page]) (mkConfig "name" "name" "name")
              [sample_page] (mkWorld (Some "9999999999") true 0))
    as (_ & _ & H & _).
  - repeat split.
  - reflexivity.
  - exact H.
Defined.

(** ** The versions side by side *)



(** ** A checkpoint file without a number *)

Lemma parseInt_blank (content : string) :
  all_ws content = true -> parseInt content = NaN.
Proof.
  intros H. rewrite <- (append_nil_r content).
  rewrite (parseInt_pad content EmptyString H). reflexivity.
Qed.

(** X20: a checkpoint file that holds no number blocks the sync.  When
    the file exists and [parseInt] makes nothing of its content (an empty
    or blank file, for instance), every configured run of every
    checkpointed version completes having imported nothing and leaves the
    world exactly as it found it, whatever the export holds: so does the
    next run, and the one after. *)
Theorem blank_checkpoint_blocks_every_run (env : Env) (config : Config)
        (pages : list Page) (w : World) (content : string) :
  configured env config ->
  export_answer env = ExportOk pages ->
  file w = Some content ->
  parseInt content = NaN ->
  let stuck :=
    (Completed, w,
     (export_events (exportingProjectName config)
      ++ [EvRead LAST_IMPORT_FILE; EvLog "No new pages to import."])%list) in
  Plain.main env w = stuck
  /\ Batched.main env w = stuck
  /\ Eff.main env w = stuck.
Proof.
  intros Hcfg Hexp Hfile Hnan stuck.
  assert (Hus : store_usable w) by (left; congruence).
  assert (Hdelta : delta pages w = []).
  { unfold delta, watermark. rewrite Hfile, Hnan. apply selectChanges_NaN. }
  pose proof (main_empty_delta env config pages w Hcfg Hexp Hus Hdelta) as H.
  cbv zeta in H. unfold after_read, read_events in H. rewrite Hfile in H.
  exact H.
Qed.

Lemma blank_checkpoint_blocks_every_run_witness :
  let env := mkEnv (fun _ => Some "name") (ExportOk [sample_page])
                   (fun _ => ImportOk "ok") (fun _ => HttpOk) "EACCES" in
  let w := mkWorld (Some EmptyString) true 0 in
  world (Plain.main env w) = w
  /\ world (Batched.main env w) = w
  /\ world (Eff.main env w) = w.
Proof.
  destruct (blank_checkpoint_blocks_every_run
              (mkEnv (fun _ => Some "name") (ExportOk [sample_page])
                     (fun _ => ImportOk "ok") (fun _ => HttpOk) "EACCES")
              (mkConfig "name" "name" "name") [sample_page]
              (mkWorld (Some EmptyString) true 0) EmptyString)
    as (HP & HB & HE).
  - repeat split.
  - reflexivity.
  - reflexivity.
  - reflexivity.
  - cbv zeta. rewrite HP, HB, HE. repeat split.
Defined.

(** ** Error reports *)

Lemma reports_app (e1 e2 : list Event) :
  reports (e1 ++ e2) = (reports e1 ++ reports e2)%list.
Proof. apply filter_app. Qed.

Lemma Unreporting_ret {A : Type} (a : A) : Unreporting (ret a).
Proof. intros w. reflexivity. Qed.

Lemma Unreporting_throw {A : Type} (e : Err) : Unreporting (@throw A e).
Proof. intros w. reflexivity. Qed.

Lemma Unreporting_bind {A B : Type} (m : M A) (k : A -> M B) :
  Unreporting m -> (forall a, Unreporting (k a)) -> Unreporting (bind m k).
Proof.
  intros Hm Hk w. specialize (Hm w). unfold bind.
  destruct (m w) as [[[e|a] w1] e1]; cbn [events snd] in *; [exact Hm|].
  specialize (Hk a w1). destruct (k a w1) as [[r w2] e2]; cbn [events snd] in *.
  now rewrite reports_app, Hm, Hk.
Qed.

Lemma Unreporting_catch {A : Type} (m : M A) (h : Err -> M A) :
  Unreporting m -> (forall e, Unreporting (h e)) -> Unreporting (catch m h).
Proof.
  intros Hm Hh w. specialize (Hm w). unfold catch.
  destruct (m w) as [[[e|a] w1] e1]; cbn [events snd] in *; [|exact Hm].
  specialize (Hh e w1). destruct (h e w1) as [[r w2] e2]; cbn [events snd] in *.
  now rewrite reports_app, Hm, Hh.
Qed.

Lemma Unreporting_console_log msg : Unreporting (console_log msg).
Proof. intros w. reflexivity. Qed.

Lemma Unreporting_sleep ms : Unreporting (sleep ms).
Proof. intros w. reflexivity. Qed.

Lemma Unreporting_readTextFile path : Unreporting (readTextFile path).
Proof. intros w. unfold readTextFile. now destruct (file w). Qed.

Lemma Unreporting_writeTextFile path content : Unreporting (writeTextFile path content).
Proof. intros w. unfold writeTextFile. now destruct (writable w). Qed.

Lemma Unreporting_getConfig env : Unreporting (getConfig env).
Proof.
  unfold getConfig, assertString.
  repeat (apply Unreporting_bind;
          [match goal with
           | |- Unreporting (match ?x with _ => _ end) =>
               destruct x; [apply Unreporting_ret | apply Unreporting_throw]
           end | intros ?]).
  apply Unreporting_ret.
Qed.

Lemma Unreporting_getConfigEffect env : Unreporting (Eff.getConfigEffect env).
Proof.
  unfold Eff.getConfigEffect, Eff.config_string.
  repeat (apply Unreporting_bind;
          [match goal with
           | |- Unreporting (match ?x with _ => _ end) =>
               destruct x; [apply Unreporting_ret | apply Unreporting_throw]
           end | intros ?]).
  apply Unreporting_ret.
Qed.

Lemma Unreporting_exportPagesFromProject env config :
  Unreporting (exportPagesFromProject env config).
Proof.
  unfold exportPagesFromProject.
  apply Unreporting_bind; [apply Unreporting_console_log | intros _].
  apply Unreporting_bind; [intros w; reflexivity | intros [pages|name message]].
  - apply Unreporting_ret.
  - apply Unreporting_throw.
Qed.

Lemma Unreporting_Eff_exportPagesFromProject env project session :
  Unreporting (Eff.exportPagesFromProject env project session).
Proof.
  unfold Eff.exportPagesFromProject.
  apply Unreporting_bind; [apply Unreporting_console_log | intros _].
  apply Unreporting_bind; [intros w; reflexivity | intros [pages|name message]].
  - apply Unreporting_ret.
  - apply Unreporting_bind; [intros w; reflexivity | intros _; apply Unreporting_throw].
Qed.

Lemma Unreporting_getLastImportTime : Unreporting getLastImportTime.
Proof.
  unfold getLastImportTime, saveLastImportTime. apply Unreporting_catch.
  - apply Unreporting_bind; [apply Unreporting_readTextFile | intros ?; apply Unreporting_ret].
  - intros _. apply Unreporting_bind; [apply Unreporting_writeTextFile|].
    intros _. apply Unreporting_ret.
Qed.

Lemma Unreporting_saveLastImportTimeEffect env time :
  Unreporting (Eff.saveLastImportTimeEffect env time).
Proof.
  unfold Eff.saveLastImportTimeEffect. apply Unreporting_catch.
  - apply Unreporting_writeTextFile.
  - intros _. apply Unreporting_throw.
Qed.

Lemma Unreporting_getLastImportTimeEffect env :
  Unreporting (Eff.getLastImportTimeEffect env).
Proof.
  unfold Eff.getLastImportTimeEffect. apply Unreporting_catch.
  - apply Unreporting_catch; [|intros _; apply Unreporting_throw].
    apply Unreporting_bind; [apply Unreporting_readTextFile | intros ?; apply Unreporting_ret].
  - intros _. apply Unreporting_bind; [apply Unreporting_saveLastImportTimeEffect|].
    intros _. apply Unreporting_ret.
Qed.

Lemma Unreporting_Plain_importPagesToProject env config pages :
  Unreporting (Plain.importPagesToProject env config pages).
Proof.
  unfold Plain.importPagesToProject.
  destruct (List.length pages =? 0)%nat; [apply Unreporting_console_log|].
  apply Unreporting_bind; [apply Unreporting_console_log | intros _].
  apply Unreporting_bind; [intros w; reflexivity | intros [value|name message]].
  - intros w. reflexivity.
  - apply Unreporting_throw.
Qed.

Lemma Unreporting_reducer env config total previousPromise batch index :
  Unreporting previousPromise ->
  Unreporting (Batched.reducer env config total previousPromise batch index).
Proof.
  intros Hprev. unfold Batched.reducer.
  apply Unreporting_bind; [exact Hprev | intros _].
  apply Unreporting_bind; [apply Unreporting_console_log | intros _].
  apply Unreporting_bind; [intros w; reflexivity | intros [value|name message]].
  - apply Unreporting_bind; [apply Unreporting_console_log | intros _].
    apply Unreporting_bind; [|intros _; apply Unreporting_ret].
    destruct (index <? total - 1)%nat; [apply Unreporting_sleep | apply Unreporting_ret].
  - apply Unreporting_ret.
Qed.

Lemma Unreporting_reduce_from env config total : forall items acc index,
  Unreporting acc ->
  Unreporting (Batched.reduce_from (Batched.reducer env config total) acc items index).
Proof.
  induction items as [|batch rest IH]; intros acc index Hacc;
    cbn [Batched.reduce_from]; [exact Hacc|].
  apply IH. now apply Unreporting_reducer.
Qed.

Lemma Unreporting_Batched_importPagesToProject env config pages :
  Unreporting (Batched.importPagesToProject env config pages).
Proof.
  unfold Batched.importPagesToProject.
  destruct (List.length pages =? 0)%nat; [apply Unreporting_console_log|].
  apply Unreporting_bind; [apply Unreporting_console_log | intros _].
  destruct (splitBatches pages BATCH_SIZE); [|apply Unreporting_throw].
  apply Unreporting_bind; [|intros _; apply Unreporting_console_log].
  apply Unreporting_reduce_from. apply Unreporting_ret.
Qed.

Lemma Unreporting_forBatches (f : list Page -> nat -> nat -> M unit) total :
  (forall b n t, Unreporting (f b n t)) ->
  forall batches i, Unreporting (Eff.forBatches f batches i total).
Proof.
  intros Hf. induction batches as [|b rest IH]; intros i; cbn [Eff.forBatches].
  - apply Unreporting_ret.
  - apply Unreporting_bind; [apply Hf | intros _; apply IH].
Qed.

Lemma Unreporting_Eff_importPagesToProject env name pages session :
  Unreporting (Eff.importPagesToProject env name pages session).
Proof.
  unfold Eff.importPagesToProject.
  destruct (List.length pages =? 0)%nat; [apply Unreporting_console_log|].
  apply Unreporting_bind; [apply Unreporting_console_log | intros _].
  apply Unreporting_bind; [|intros _; apply Unreporting_console_log].
  unfold Eff.processBatchesEffect.
  destruct (splitBatches pages BATCH_SIZE); [|apply Unreporting_throw].
  apply Unreporting_forBatches. intros b n t.
  apply Unreporting_bind; [apply Unreporting_console_log | intros _].
  apply Unreporting_bind.
  { intros w. unfold Eff.importPages.
    destruct (remote_answer env (imports w)); reflexivity. }
  intros _.
  apply Unreporting_bind; [apply Unreporting_console_log | intros _].
  destruct (n <? t)%nat; [apply Unreporting_sleep | apply Unreporting_ret].
Qed.

Section SyncReports.
Variable getConfig : M Config.
Variable exportPages : Config -> M (list Page).
Variable getLast : M number.
Variable save : number -> M unit.
Variable importTo : Config -> list Page -> M unit.

Hypothesis getConfig_unreporting : Unreporting getConfig.
Hypothesis exportPages_unreporting : forall config, Unreporting (exportPages config).
Hypothesis getLast_unreporting : Unreporting getLast.
Hypothesis save_unreporting : forall time, Unreporting (save time).
Hypothesis importTo_unreporting : forall config pages, Unreporting (importTo config pages).

Lemma Unreporting_sync : Unreporting (sync getConfig exportPages getLast save importTo).
Proof.
  unfold sync, sync_tail.
  apply Unreporting_bind; [exact getConfig_unreporting | intros config].
  apply Unreporting_bind; [apply exportPages_unreporting | intros pages].
  apply Unreporting_bind; [exact getLast_unreporting | intros t].
  cbv zeta.
  destruct (List.length _ =? 0)%nat; [apply Unreporting_console_log|].
  apply Unreporting_bind; [apply Unreporting_console_log | intros _].
  apply Unreporting_bind; [intros w; reflexivity | intros _].
  apply Unreporting_bind; [apply importTo_unreporting | intros _].
  apply save_unreporting.
Qed.
End SyncReports.

Lemma top_level_reported_once body w :
  Unreporting body -> reported_once (top_level body w).
Proof.
  intros Hbody. specialize (Hbody w). unfold reported_once, top_level.
  destruct (body w) as [[[e|a] w'] evs]; cbn [outcome world events fst snd] in *.
  - right. exists e, evs. auto.
  - left. auto.
Qed.

(** X21: errors are reported once, at the end.  In every run of every
    version, whatever the environment and the checkpoint file: either the
    run completes and nothing was written to the error channel, or the
    run's last two acts are one error report and the exit with status 1,
    and nothing was reported before.  No run exits with another status,
    reports an error and carries on, or exits silently. *)
Theorem errors_are_reported_once_at_the_end (env : Env) (w : World) :
  reported_once (Plain.main env w)
  /\ reported_once (Batched.main env w)
  /\ reported_once (Eff.main env w)
  /\ reported_once (Full.main env w).
Proof.
  split; [|split; [|split]]; apply top_level_reported_once.
  - rewrite Plain_main_try_sync. apply Unreporting_sync.
    + apply Unreporting_getConfig.
    + apply Unreporting_exportPagesFromProject.
    + apply Unreporting_getLastImportTime.
    + intros time. apply Unreporting_writeTextFile.
    + apply Unreporting_Plain_importPagesToProject.
  - rewrite Batched_main_try_sync. apply Unreporting_sync.
    + apply Unreporting_getConfig.
    + apply Unreporting_exportPagesFromProject.
    + apply Unreporting_getLastImportTime.
    + intros time. apply Unreporting_writeTextFile.
    + apply Unreporting_Batched_importPagesToProject.
  - rewrite Eff_mainEffect_sync. apply Unreporting_sync.
    + apply Unreporting_getConfigEffect.
    + intros config. apply Unreporting_Eff_exportPagesFromProject.
    + apply Unreporting_getLastImportTimeEffect.
    + apply Unreporting_saveLastImportTimeEffect.
    + intros config pages. apply Unreporting_Eff_importPagesToProject.
  - unfold Full.main_try.
    apply Unreporting_bind; [apply Unreporting_getConfig | intros config].
    apply Unreporting_bind; [apply Unreporting_exportPagesFromProject | intros pages].
    apply (Unreporting_Plain_importPagesToProject env config
             (filterPrivateIconPages pages)).
Qed.
